(** * The revision-file statistics engine of libsvn_fs_fs (stats.c)

    A shallow embedding of [subversion/libsvn_fs_fs/stats.c] and the
    properties of it that the specification states.

    Conventions of the embedding.
    - C integers are values of [Z]; where stats.c fixes the width of a
      variable ([apr_uint32_t ref_count], [apr_uint16_t header_size],
      [apr_size_t], [apr_off_t], [apr_int64_t]) the conversion is written
      out with [to_uint32], [to_uint16], [to_size], [to_off], [to_int64].
      [apr_size_t] is taken to be 64 bits wide.
    - Objects that stats.c allocates and then mutates through pointers
      ([rep_stats_t], [revision_info_t]) live in a store; a pointer is the
      index of the object in the store.
    - Functions returning an [svn_error_t] become computations of the monad
      [M], which threads the store and yields either a value or the reason
      the computation stopped.
    - The FSFS library that stats.c calls (rev-file access, the node-revision
      decoder, the p2l index, ...) is a record of functions, [svn_fs_t]. *)

From Stdlib Require Import ZArith Lia Ascii String List Bool.
From stdpp Require Import base option list.

Open Scope Z_scope.

(** ** Machine integers *)

Definition to_uint16 (z : Z) : Z := z mod 2 ^ 16.
Definition to_uint32 (z : Z) : Z := z mod 2 ^ 32.
Definition to_size (z : Z) : Z := z mod 2 ^ 64.
Definition to_int64 (z : Z) : Z := (z + 2 ^ 63) mod 2 ^ 64 - 2 ^ 63.
Definition to_off (z : Z) : Z := to_int64 z.

Definition int64_max : Z := 2 ^ 63 - 1.

(** [x << n] on [apr_int64_t].  C leaves the shift undefined when the count
    is not in [0, 64), when [x] is negative, or when the result does not fit;
    [None] stands for "undefined". *)
Definition shl_int64 (x n : Z) : option Z :=
  if (0 <=? n) && (n <? 64) && (0 <=? x) && (x * 2 ^ n <=? int64_max)
  then Some (Z.shiftl x n)
  else None.

(** ** Data model (stats.c, lines 45-139) *)

Inductive rep_kind_t : Type :=
| unused_rep
| dir_property_rep
| file_property_rep
| dir_rep
| file_rep.

Global Instance rep_kind_eq_dec : EqDecision rep_kind_t.
Proof. solve_decision. Defined.

(** A pointer into one of the stores; [rep_ptr] designates a [rep_stats_t],
    [info_ptr] a [revision_info_t]. *)
Abbreviation rep_ptr := nat (only parsing).
Abbreviation info_ptr := nat (only parsing).

(** Handle of an open rev / pack file (a [svn_fs_fs__revision_file_t]). *)
Abbreviation rev_file_t := Z (only parsing).

Record rep_stats_t : Type := mk_rep_stats {
  rs_offset : Z;          (* apr_off_t offset *)
  rs_size : Z;            (* apr_size_t size *)
  rs_expanded_size : Z;   (* apr_size_t expanded_size *)
  rs_revision : Z;        (* svn_revnum_t revision *)
  rs_ref_count : Z;       (* apr_uint32_t ref_count *)
  rs_header_size : Z;     (* apr_uint16_t header_size *)
  rs_kind : rep_kind_t    (* char kind *)
}.

Record revision_info_t : Type := mk_revision_info {
  ri_revision : Z;
  ri_offset : Z;
  ri_changes : Z;
  ri_changes_len : Z;
  ri_change_count : Z;
  ri_end : Z;
  ri_dir_noderev_count : Z;
  ri_file_noderev_count : Z;
  ri_dir_noderev_size : Z;
  ri_file_noderev_size : Z;
  ri_representations : list rep_ptr;
  ri_rev_file : option rev_file_t
}.

(** ** The result structure

    [svn_fs_fs__stats_t] and the structures it is made of are declared in
    private/svn_fs_fs_private.h.  Their counters are accumulators that
    stats.c only ever adds to; they are kept as integers of [Z]. *)

Record svn_fs_fs__histogram_line_t : Type := mk_line {
  hl_count : Z;
  hl_sum : Z
}.

Record svn_fs_fs__histogram_t : Type := mk_histogram {
  h_total : svn_fs_fs__histogram_line_t;
  h_lines : list svn_fs_fs__histogram_line_t     (* lines[64] *)
}.

Record svn_fs_fs__large_change_info_t : Type := mk_large_change {
  lci_path : string;
  lci_size : Z;
  lci_revision : Z
}.

Record svn_fs_fs__largest_changes_t : Type := mk_largest_changes {
  lc_changes : list svn_fs_fs__large_change_info_t;
  lc_count : Z;
  lc_min_size : Z
}.

Record svn_fs_fs__rep_pack_stats_t : Type := mk_rep_pack_stats {
  rps_count : Z;
  rps_packed_size : Z;
  rps_expanded_size : Z;
  rps_overhead_size : Z
}.

Record svn_fs_fs__representation_stats_t : Type := mk_representation_stats {
  rst_total : svn_fs_fs__rep_pack_stats_t;
  rst_uniques : svn_fs_fs__rep_pack_stats_t;
  rst_shared : svn_fs_fs__rep_pack_stats_t;
  rst_references : Z;
  rst_expanded_size : Z
}.

Record svn_fs_fs__node_stats_t : Type := mk_node_stats {
  ns_count : Z;
  ns_size : Z
}.

Record svn_fs_fs__extension_info_t : Type := mk_extension_info {
  ei_extension : string;
  ei_node_histogram : svn_fs_fs__histogram_t;
  ei_rep_histogram : svn_fs_fs__histogram_t
}.

(** The histogram members of [svn_fs_fs__stats_t]; all have the same type,
    so the structure holds them as a family indexed by the member's name. *)
Inductive histogram_member : Type :=
| rep_size_histogram
| node_size_histogram
| added_rep_size_histogram
| added_node_size_histogram
| unused_rep_histogram
| file_histogram
| file_rep_histogram
| file_prop_histogram
| file_prop_rep_histogram
| dir_histogram
| dir_rep_histogram
| dir_prop_histogram
| dir_prop_rep_histogram.

Global Instance histogram_member_eq_dec : EqDecision histogram_member.
Proof. solve_decision. Defined.

(** Likewise the [svn_fs_fs__representation_stats_t] members. *)
Inductive rep_stats_member : Type :=
| total_rep_stats
| file_rep_stats
| dir_rep_stats
| file_prop_rep_stats
| dir_prop_rep_stats.

Global Instance rep_stats_member_eq_dec : EqDecision rep_stats_member.
Proof. solve_decision. Defined.

Record svn_fs_fs__stats_t : Type := mk_stats {
  total_size : Z;
  revision_count : Z;
  change_count : Z;
  change_len : Z;
  rep_stats : rep_stats_member -> svn_fs_fs__representation_stats_t;
  total_node_stats : svn_fs_fs__node_stats_t;
  file_node_stats : svn_fs_fs__node_stats_t;
  dir_node_stats : svn_fs_fs__node_stats_t;
  largest_changes : svn_fs_fs__largest_changes_t;
  histograms : histogram_member -> svn_fs_fs__histogram_t;
  by_extension : list (string * svn_fs_fs__extension_info_t)
}.

Definition set_largest_changes (lc : svn_fs_fs__largest_changes_t)
    (stats : svn_fs_fs__stats_t) : svn_fs_fs__stats_t :=
  mk_stats (total_size stats) (revision_count stats) (change_count stats)
    (change_len stats) (rep_stats stats) (total_node_stats stats)
    (file_node_stats stats) (dir_node_stats stats) lc (histograms stats)
    (by_extension stats).

Definition set_histogram (m : histogram_member) (h : svn_fs_fs__histogram_t)
    (stats : svn_fs_fs__stats_t) : svn_fs_fs__stats_t :=
  mk_stats (total_size stats) (revision_count stats) (change_count stats)
    (change_len stats) (rep_stats stats) (total_node_stats stats)
    (file_node_stats stats) (dir_node_stats stats) (largest_changes stats)
    (fun m' => if decide (m' = m) then h else histograms stats m')
    (by_extension stats).

Definition set_by_extension (ext : list (string * svn_fs_fs__extension_info_t))
    (stats : svn_fs_fs__stats_t) : svn_fs_fs__stats_t :=
  mk_stats (total_size stats) (revision_count stats) (change_count stats)
    (change_len stats) (rep_stats stats) (total_node_stats stats)
    (file_node_stats stats) (dir_node_stats stats) (largest_changes stats)
    (histograms stats) ext.

Definition set_rep_stats (m : rep_stats_member)
    (r : svn_fs_fs__representation_stats_t)
    (stats : svn_fs_fs__stats_t) : svn_fs_fs__stats_t :=
  mk_stats (total_size stats) (revision_count stats) (change_count stats)
    (change_len stats)
    (fun m' => if decide (m' = m) then r else rep_stats stats m')
    (total_node_stats stats) (file_node_stats stats) (dir_node_stats stats)
    (largest_changes stats) (histograms stats) (by_extension stats).

(** The zero-filled structures that [apr_pcalloc] hands out. *)
Definition zero_line : svn_fs_fs__histogram_line_t := mk_line 0 0.
Definition zero_histogram : svn_fs_fs__histogram_t :=
  mk_histogram zero_line (replicate 64 zero_line).
Definition zero_rep_pack_stats : svn_fs_fs__rep_pack_stats_t :=
  mk_rep_pack_stats 0 0 0 0.
Definition zero_representation_stats : svn_fs_fs__representation_stats_t :=
  mk_representation_stats zero_rep_pack_stats zero_rep_pack_stats
    zero_rep_pack_stats 0 0.
Definition zero_node_stats : svn_fs_fs__node_stats_t := mk_node_stats 0 0.

Definition SVN_INVALID_REVNUM : Z := -1.

(** ** Largest changes and histograms (stats.c, lines 234-385) *)

(** [initialize_largest_changes]: [count] entries of size 0 and invalid
    revision, [min_size] 1. *)
Definition initialize_largest_changes (stats : svn_fs_fs__stats_t) (count : Z)
    : svn_fs_fs__stats_t :=
  set_largest_changes
    (mk_largest_changes
       (replicate (Z.to_nat count) (mk_large_change "" 0 SVN_INVALID_REVNUM))
       count 1)
    stats.

(** The loop [while (((apr_int64_t)(1) << shift) <= size) shift++;]. *)
Fixpoint histogram_shift (fuel : nat) (shift size : Z) : option Z :=
  match fuel with
  | O => None
  | S fuel' =>
      match shl_int64 1 shift with
      | None => None
      | Some bound =>
          if bound <=? size then histogram_shift fuel' (shift + 1) size
          else Some shift
      end
  end.

(** [add_to_histogram].  The shift is undefined from the 64th evaluation of
    the loop condition on, so 64 units of fuel cover every defined run. *)
Definition add_to_histogram (histogram : svn_fs_fs__histogram_t) (size : Z)
    : option svn_fs_fs__histogram_t :=
  shift ← histogram_shift 64 0 size;
  line ← h_lines histogram !! Z.to_nat shift;
  Some (mk_histogram
          (mk_line (hl_count (h_total histogram) + 1)
                   (hl_sum (h_total histogram) + size))
          (<[Z.to_nat shift := mk_line (hl_count line + 1) (hl_sum line + size)]>
             (h_lines histogram))).

(** The insertion loop of [add_change] (lines 309-313): starting at [i],
    move entries one slot to the right while the left neighbour is smaller
    than [rep_size]; yields the final [i] and the array. *)
Fixpoint shift_changes (i : nat) (rep_size : Z)
    (changes : list svn_fs_fs__large_change_info_t)
    : nat * list svn_fs_fs__large_change_info_t :=
  match i with
  | O => (O, changes)
  | S j =>
      match changes !! j with
      | Some prev =>
          if lci_size prev >=? rep_size then (i, changes)
          else shift_changes j rep_size (<[i := prev]> changes)
      | None => (i, changes)
      end
  end.

(** Lines 296-318 of [add_change]: the update of the largest-changes list.
    [None] when [changes[count - 1]] does not exist. *)
Definition add_largest_change (lc : svn_fs_fs__largest_changes_t)
    (rep_size revision : Z) (path : string)
    : option svn_fs_fs__largest_changes_t :=
  if rep_size >=? lc_min_size lc then
    let last := Z.to_nat (lc_count lc - 1) in
    if (1 <=? lc_count lc) && bool_decide (last < length (lc_changes lc))%nat then
      let info := mk_large_change path rep_size revision in
      let '(i, changes) := shift_changes last rep_size
                             (<[last := info]> (lc_changes lc)) in
      let changes := <[i := info]> changes in
      new_min ← lci_size <$> changes !! last;
      Some (mk_largest_changes changes (lc_count lc) new_min)
    else None
  else Some lc.

(** [strrchr s c]: the index of the last occurrence of [c] in [s]. *)
Fixpoint strrchr (s : string) (c : ascii) : option nat :=
  match s with
  | EmptyString => None
  | String a rest =>
      match strrchr rest c with
      | Some i => Some (S i)
      | None => if Ascii.eqb a c then Some O else None
      end
  end.

Fixpoint string_drop (n : nat) (s : string) : string :=
  match n, s with
  | O, _ => s
  | S n', String _ rest => string_drop n' rest
  | S _, EmptyString => EmptyString
  end.

(** Lines 362-367 of [add_change]: the extension of [path], with the dot,
    or "(none)". *)
Definition extension_of (path : string) : string :=
  match strrchr path "/"%char with
  | None => "(none)"%string
  | Some slash =>
      let file_name := string_drop slash path in
      match strrchr file_name "."%char with
      | None => "(none)"%string
      | Some dot =>
          if Nat.eqb dot 1 then "(none)"%string else string_drop dot file_name
      end
  end.

Fixpoint hash_get (h : list (string * svn_fs_fs__extension_info_t)) (key : string)
    : option svn_fs_fs__extension_info_t :=
  match h with
  | [] => None
  | (k, v) :: rest => if String.eqb k key then Some v else hash_get rest key
  end.

Fixpoint hash_set (h : list (string * svn_fs_fs__extension_info_t)) (key : string)
    (v : svn_fs_fs__extension_info_t) : list (string * svn_fs_fs__extension_info_t) :=
  match h with
  | [] => [(key, v)]
  | (k, v') :: rest =>
      if String.eqb k key then (k, v) :: rest else (k, v') :: hash_set rest key v
  end.

(** [add_to_histogram (&stats->m, size)]. *)
Definition add_to_stats_histogram (m : histogram_member) (size : Z)
    (stats : svn_fs_fs__stats_t) : option svn_fs_fs__stats_t :=
  h ← add_to_histogram (histograms stats m) size;
  Some (set_histogram m h stats).

(** [add_change] (lines 287-385). *)
Definition add_change (stats : svn_fs_fs__stats_t)
    (rep_size expanded_size revision : Z) (path : string)
    (kind : rep_kind_t) (plain_added : bool) : option svn_fs_fs__stats_t :=
  (* identify largest reps *)
  lc ← add_largest_change (largest_changes stats) rep_size revision path;
  let stats := set_largest_changes lc stats in
  (* global histograms *)
  stats ← add_to_stats_histogram rep_size_histogram rep_size stats;
  stats ← add_to_stats_histogram node_size_histogram expanded_size stats;
  stats ← (if plain_added then
             stats ← add_to_stats_histogram added_rep_size_histogram rep_size stats;
             add_to_stats_histogram added_node_size_histogram expanded_size stats
           else Some stats);
  (* specific histograms by type *)
  stats ← match kind with
          | unused_rep =>
              add_to_stats_histogram unused_rep_histogram rep_size stats
          | dir_property_rep =>
              stats ← add_to_stats_histogram dir_prop_rep_histogram rep_size stats;
              add_to_stats_histogram dir_prop_histogram expanded_size stats
          | file_property_rep =>
              stats ← add_to_stats_histogram file_prop_rep_histogram rep_size stats;
              add_to_stats_histogram file_prop_histogram expanded_size stats
          | dir_rep =>
              stats ← add_to_stats_histogram dir_rep_histogram rep_size stats;
              add_to_stats_histogram dir_histogram expanded_size stats
          | file_rep =>
              stats ← add_to_stats_histogram file_rep_histogram rep_size stats;
              add_to_stats_histogram file_histogram expanded_size stats
          end;
  (* by extension *)
  match kind with
  | file_rep =>
      let extension := extension_of path in
      let info := match hash_get (by_extension stats) extension with
                  | Some info => info
                  | None => mk_extension_info extension zero_histogram zero_histogram
                  end in
      node_h ← add_to_histogram (ei_node_histogram info) expanded_size;
      rep_h ← add_to_histogram (ei_rep_histogram info) rep_size;
      Some (set_by_extension
              (hash_set (by_extension stats) extension
                 (mk_extension_info (ei_extension info) node_h rep_h))
              stats)
  | _ => Some stats
  end.

(** ** Counting changes (stats.c, lines 704-721) *)

Definition newline : Byte.byte := Byte.x0a.

(** The loop of [get_change_count]: [lines] after scanning [len] bytes from
    [changes]; [None] when the scan leaves the buffer. *)
Fixpoint count_lines (changes : list Byte.byte) (len : nat) (lines : Z)
    : option Z :=
  match len with
  | O => Some lines
  | S len' =>
      match changes with
      | [] => None
      | c :: rest =>
          count_lines rest len'
            (if Byte.eqb c newline then to_size (lines + 1) else lines)
      end
  end.

Definition get_change_count (changes : list Byte.byte) (len : Z) : option Z :=
  lines ← count_lines changes (Z.to_nat len) 0;
  Some (lines / 2).

(** ** Errors, outcomes and the store *)

Inductive svn_error_t : Type :=
| SVN_ERR_FS_CORRUPT (msg : string)
| SVN_ERR_CANCELLED
| SVN_ERR_ASSERTION_FAIL
| SVN_ERR_IO (code : Z).

(** Why a computation did not yield a value: it returned an error, it ran
    into behaviour that C leaves undefined (an array read out of range, a
    null or dangling pointer), or the fuel of a loop ran out. *)
Inductive stop : Type :=
| Failed (err : svn_error_t)
| Undefined
| OutOfFuel.

Inductive result (A : Type) : Type :=
| Ok (a : A)
| Stop (why : stop).
Arguments Ok {A} a.
Arguments Stop {A} why.

(** Untyped pointers and function pointers; [0] is NULL. *)
Abbreviation ptr := Z (only parsing).

(** Calls of the caller's callbacks, oldest first. *)
Inductive event : Type :=
| ProgressCall (func : ptr) (revision : Z) (baton : ptr)
| CancelCall (func : ptr) (baton : ptr).

Record state : Type := mk_state {
  st_reps : list rep_stats_t;          (* every rep_stats_t allocated so far *)
  st_infos : list revision_info_t;     (* every revision_info_t allocated so far *)
  st_revisions : list info_ptr;        (* query->revisions *)
  st_stats : svn_fs_fs__stats_t;       (* the object query->stats points to *)
  st_trace : list event
}.

Definition M (A : Type) : Type := state -> result A * state.

Definition ret {A} (a : A) : M A := fun s => (Ok a, s).

Definition bind {A B} (m : M A) (k : A -> M B) : M B :=
  fun s => match m s with
           | (Ok a, s') => k a s'
           | (Stop why, s') => (Stop why, s')
           end.

Notation "x <- m ;; k" := (bind m (fun x => k))
  (at level 100, m at next level, right associativity).
Notation "m ;; k" := (bind m (fun _ => k))
  (at level 100, right associativity).

Definition stop_with {A} (why : stop) : M A := fun s => (Stop why, s).
Definition raise {A} (err : svn_error_t) : M A := stop_with (Failed err).

(** [SVN_ERR (f (...))] for a library function [f]. *)
Definition lift_result {A} (r : result A) : M A := fun s => (r, s).

(** A read that C leaves undefined when the value is missing. *)
Definition defined {A} (o : option A) : M A :=
  match o with
  | Some a => ret a
  | None => stop_with Undefined
  end.

Definition get_state : M state := fun s => (Ok s, s).

Definition when_ (b : bool) (m : M unit) : M unit := if b then m else ret tt.

Fixpoint for_each {A} (l : list A) (body : A -> M unit) : M unit :=
  match l with
  | [] => ret tt
  | x :: rest => body x ;; for_each rest body
  end.

(** *** Record updates *)

Definition set_rs_ref_count (v : Z) (r : rep_stats_t) : rep_stats_t :=
  mk_rep_stats (rs_offset r) (rs_size r) (rs_expanded_size r) (rs_revision r)
    v (rs_header_size r) (rs_kind r).
Definition set_rs_header_size (v : Z) (r : rep_stats_t) : rep_stats_t :=
  mk_rep_stats (rs_offset r) (rs_size r) (rs_expanded_size r) (rs_revision r)
    (rs_ref_count r) v (rs_kind r).
Definition set_rs_kind (v : rep_kind_t) (r : rep_stats_t) : rep_stats_t :=
  mk_rep_stats (rs_offset r) (rs_size r) (rs_expanded_size r) (rs_revision r)
    (rs_ref_count r) (rs_header_size r) v.

Definition zero_revision_info : revision_info_t :=
  mk_revision_info 0 0 0 0 0 0 0 0 0 0 [] None.

Definition set_ri_revision (v : Z) (i : revision_info_t) : revision_info_t :=
  mk_revision_info v (ri_offset i) (ri_changes i) (ri_changes_len i)
    (ri_change_count i) (ri_end i) (ri_dir_noderev_count i)
    (ri_file_noderev_count i) (ri_dir_noderev_size i) (ri_file_noderev_size i)
    (ri_representations i) (ri_rev_file i).
Definition set_ri_offset (v : Z) (i : revision_info_t) : revision_info_t :=
  mk_revision_info (ri_revision i) v (ri_changes i) (ri_changes_len i)
    (ri_change_count i) (ri_end i) (ri_dir_noderev_count i)
    (ri_file_noderev_count i) (ri_dir_noderev_size i) (ri_file_noderev_size i)
    (ri_representations i) (ri_rev_file i).
Definition set_ri_changes (v : Z) (i : revision_info_t) : revision_info_t :=
  mk_revision_info (ri_revision i) (ri_offset i) v (ri_changes_len i)
    (ri_change_count i) (ri_end i) (ri_dir_noderev_count i)
    (ri_file_noderev_count i) (ri_dir_noderev_size i) (ri_file_noderev_size i)
    (ri_representations i) (ri_rev_file i).
Definition set_ri_changes_len (v : Z) (i : revision_info_t) : revision_info_t :=
  mk_revision_info (ri_revision i) (ri_offset i) (ri_changes i) v
    (ri_change_count i) (ri_end i) (ri_dir_noderev_count i)
    (ri_file_noderev_count i) (ri_dir_noderev_size i) (ri_file_noderev_size i)
    (ri_representations i) (ri_rev_file i).
Definition set_ri_change_count (v : Z) (i : revision_info_t) : revision_info_t :=
  mk_revision_info (ri_revision i) (ri_offset i) (ri_changes i)
    (ri_changes_len i) v (ri_end i) (ri_dir_noderev_count i)
    (ri_file_noderev_count i) (ri_dir_noderev_size i) (ri_file_noderev_size i)
    (ri_representations i) (ri_rev_file i).
Definition set_ri_end (v : Z) (i : revision_info_t) : revision_info_t :=
  mk_revision_info (ri_revision i) (ri_offset i) (ri_changes i)
    (ri_changes_len i) (ri_change_count i) v (ri_dir_noderev_count i)
    (ri_file_noderev_count i) (ri_dir_noderev_size i) (ri_file_noderev_size i)
    (ri_representations i) (ri_rev_file i).
Definition set_ri_dir_noderev (count size : Z) (i : revision_info_t)
    : revision_info_t :=
  mk_revision_info (ri_revision i) (ri_offset i) (ri_changes i)
    (ri_changes_len i) (ri_change_count i) (ri_end i) count
    (ri_file_noderev_count i) size (ri_file_noderev_size i)
    (ri_representations i) (ri_rev_file i).
Definition set_ri_file_noderev (count size : Z) (i : revision_info_t)
    : revision_info_t :=
  mk_revision_info (ri_revision i) (ri_offset i) (ri_changes i)
    (ri_changes_len i) (ri_change_count i) (ri_end i) (ri_dir_noderev_count i)
    count (ri_dir_noderev_size i) size
    (ri_representations i) (ri_rev_file i).
Definition set_ri_representations (v : list rep_ptr) (i : revision_info_t)
    : revision_info_t :=
  mk_revision_info (ri_revision i) (ri_offset i) (ri_changes i)
    (ri_changes_len i) (ri_change_count i) (ri_end i) (ri_dir_noderev_count i)
    (ri_file_noderev_count i) (ri_dir_noderev_size i) (ri_file_noderev_size i)
    v (ri_rev_file i).
Definition set_ri_rev_file (v : option rev_file_t) (i : revision_info_t)
    : revision_info_t :=
  mk_revision_info (ri_revision i) (ri_offset i) (ri_changes i)
    (ri_changes_len i) (ri_change_count i) (ri_end i) (ri_dir_noderev_count i)
    (ri_file_noderev_count i) (ri_dir_noderev_size i) (ri_file_noderev_size i)
    (ri_representations i) v.

(** *** Primitive accesses to the store *)

(** [apr_pcalloc] of a [rep_stats_t], with its first assignments. *)
Definition alloc_rep (r : rep_stats_t) : M rep_ptr :=
  fun s => (Ok (length (st_reps s)),
            mk_state (st_reps s ++ [r]) (st_infos s) (st_revisions s)
              (st_stats s) (st_trace s)).

Definition read_rep (p : rep_ptr) : M rep_stats_t :=
  fun s => match st_reps s !! p with
           | Some r => (Ok r, s)
           | None => (Stop Undefined, s)
           end.

Definition update_rep (p : rep_ptr) (f : rep_stats_t -> rep_stats_t) : M unit :=
  fun s => match st_reps s !! p with
           | Some r =>
               (Ok tt, mk_state (<[p := f r]> (st_reps s)) (st_infos s)
                         (st_revisions s) (st_stats s) (st_trace s))
           | None => (Stop Undefined, s)
           end.

Definition alloc_info (i : revision_info_t) : M info_ptr :=
  fun s => (Ok (length (st_infos s)),
            mk_state (st_reps s) (st_infos s ++ [i]) (st_revisions s)
              (st_stats s) (st_trace s)).

Definition read_info (p : info_ptr) : M revision_info_t :=
  fun s => match st_infos s !! p with
           | Some i => (Ok i, s)
           | None => (Stop Undefined, s)
           end.

Definition update_info (p : info_ptr) (f : revision_info_t -> revision_info_t)
    : M unit :=
  fun s => match st_infos s !! p with
           | Some i =>
               (Ok tt, mk_state (st_reps s) (<[p := f i]> (st_infos s))
                         (st_revisions s) (st_stats s) (st_trace s))
           | None => (Stop Undefined, s)
           end.

(** [APR_ARRAY_PUSH] of [info] onto [query->revisions]. *)
Definition push_revision (p : info_ptr) : M unit :=
  fun s => (Ok tt, mk_state (st_reps s) (st_infos s) (st_revisions s ++ [p])
                     (st_stats s) (st_trace s)).

(** [APR_ARRAY_IDX] of [query->revisions] at [revision]; the macro does not
    check the index. *)
Definition revision_at (revision : Z) : M info_ptr :=
  fun s => if 0 <=? revision then
             match st_revisions s !! Z.to_nat revision with
             | Some p => (Ok p, s)
             | None => (Stop Undefined, s)
             end
           else (Stop Undefined, s).

Definition read_stats : M svn_fs_fs__stats_t := fun s => (Ok (st_stats s), s).

Definition write_stats (stats : svn_fs_fs__stats_t) : M unit :=
  fun s => (Ok tt, mk_state (st_reps s) (st_infos s) (st_revisions s) stats
                     (st_trace s)).

Definition emit (e : event) : M unit :=
  fun s => (Ok tt, mk_state (st_reps s) (st_infos s) (st_revisions s)
                     (st_stats s) (st_trace s ++ [e])).

(** ** What stats.c receives from the FSFS library *)

Inductive svn_node_kind_t : Type :=
| svn_node_none
| svn_node_file
| svn_node_dir
| svn_node_unknown
| svn_node_symlink.

Global Instance svn_node_kind_eq_dec : EqDecision svn_node_kind_t.
Proof. solve_decision. Defined.

Record representation_t : Type := mk_representation {
  rep_revision : Z;
  rep_item_index : Z;
  rep_size : Z;
  rep_expanded_size : Z
}.

Record svn_fs_id_t : Type := mk_id {
  svn_fs_fs__id_rev : Z;
  svn_fs_fs__id_item : Z
}.

Record node_revision_t : Type := mk_node_revision {
  nr_kind : svn_node_kind_t;
  nr_predecessor_id : option svn_fs_id_t;
  nr_data_rep : option representation_t;
  nr_prop_rep : option representation_t;
  nr_created_path : string
}.

Record svn_fs_dirent_t : Type := mk_dirent {
  dirent_name : string;
  dirent_id : svn_fs_id_t
}.

Record svn_fs_fs__p2l_entry_t : Type := mk_p2l_entry {
  p2l_offset : Z;
  p2l_size : Z;
  p2l_type : Z;
  p2l_item_revision : Z;
  p2l_item_number : Z
}.

Definition SVN_FS_FS__ITEM_TYPE_NODEREV : Z := 5.
Definition SVN_FS_FS__ITEM_TYPE_CHANGES : Z := 6.

Record svn_stringbuf_t : Type := mk_stringbuf {
  sb_data : list Byte.byte;
  sb_len : Z
}.

(** The filesystem object with the functions of libsvn_fs_fs and of the I/O
    layer that stats.c calls on it.  A function that reports errors yields a
    [result]. *)
Record svn_fs_t : Type := mk_fs {
  svn_fs_fs__shard_size : Z;
  svn_fs_fs__youngest_rev : result Z;
  svn_fs_fs__min_unpacked_rev : result Z;
  svn_fs_fs__use_log_addressing : bool;
  p2l_page_size : Z;
  svn_fs_fs__open_pack_or_rev_file : Z -> result rev_file_t;
  (* svn_io_file_info_get: the size of the file *)
  svn_io_file_size : rev_file_t -> result Z;
  (* svn_io_file_seek to an offset, then svn_io_file_read_full2 of len bytes *)
  svn_io_file_read_at : rev_file_t -> Z -> Z -> result (list Byte.byte);
  svn_fs_fs__get_packed_offset : Z -> result Z;
  svn_fs_fs__close_revision_file : rev_file_t -> result unit;
  (* seek to an offset, then svn_fs_fs__read_rep_header: its header_size *)
  svn_fs_fs__read_rep_header : rev_file_t -> Z -> result Z;
  (* the decoder, applied to the bytes the stream still holds *)
  svn_fs_fs__read_noderev : list Byte.byte -> result node_revision_t;
  svn_fs_fs__rep_contents_dir : node_revision_t -> result (list svn_fs_dirent_t);
  svn_fs_fs__p2l_get_max_offset : rev_file_t -> Z -> result Z;
  svn_fs_fs__p2l_index_lookup :
    rev_file_t -> Z -> Z -> Z -> result (list svn_fs_fs__p2l_entry_t)
}.

(** [query_t] (lines 145-180).  The members [revisions] and [stats] point to
    objects that change during the run; those are [st_revisions] and
    [st_stats] of the store. *)
Record query_t : Type := mk_query {
  q_fs : svn_fs_t;
  q_head : Z;
  q_shard_size : Z;
  q_min_unpacked_rev : Z;
  q_null_base : rep_ptr;
  q_progress_func : ptr;
  q_progress_baton : ptr;
  q_cancel_func : ptr;
  q_cancel_baton : ptr
}.

(** ** C strings in a byte buffer *)

Definition nul : Byte.byte := Byte.x00.
Definition space : Byte.byte := Byte.x20.

(** The bytes before the first NUL. *)
Fixpoint c_string (buf : list Byte.byte) : list Byte.byte :=
  match buf with
  | [] => []
  | b :: rest => if Byte.eqb b nul then [] else b :: c_string rest
  end.

Fixpoint bytes_strchr (s : list Byte.byte) (c : Byte.byte) : option nat :=
  match s with
  | [] => None
  | b :: rest =>
      if Byte.eqb b c then Some O else S <$> bytes_strchr rest c
  end.

Fixpoint bytes_strrchr (s : list Byte.byte) (c : Byte.byte) : option nat :=
  match s with
  | [] => None
  | b :: rest =>
      match bytes_strrchr rest c with
      | Some i => Some (S i)
      | None => if Byte.eqb b c then Some O else None
      end
  end.

(** [strstr (s, "\n\n")]. *)
Fixpoint strstr_end_marker (s : list Byte.byte) : option nat :=
  match s with
  | b1 :: ((b2 :: _) as rest) =>
      if Byte.eqb b1 newline && Byte.eqb b2 newline then Some O
      else S <$> strstr_end_marker rest
  | _ => None
  end.

(** ** Binary search in a sorted array *)

(** Modelled from the spec: the loop of [svn_sort__bsearch_lower_bound],
    which belongs to libsvn_subr, whose sources are not at hand.  The spec
    has [find] "perform a binary search by offset; on miss returns the
    insertion index".  [fuel] bounds the number of halvings; a comparison
    that is not defined leaves the search undefined. *)
Fixpoint bsearch_loop {A K} (fuel : nat) (array : list A) (key : K)
    (compare_func : A -> K -> option Z) (lower upper : Z) : option Z :=
  if lower <=? upper then
    match fuel with
    | O => None
    | S fuel' =>
        let try := lower + (upper - lower) / 2 in
        elt ← array !! Z.to_nat try;
        cmp ← compare_func elt key;
        if cmp <? 0
        then bsearch_loop fuel' array key compare_func (try + 1) upper
        else bsearch_loop fuel' array key compare_func lower (try - 1)
    end
  else Some lower.

(** Modelled from the spec: [svn_sort__bsearch_lower_bound] of libsvn_subr,
    the index of the first element that does not compare below [key], the
    "insertion index" of the spec. *)
Definition svn_sort__bsearch_lower_bound {A K} (array : list A) (key : K)
    (compare_func : A -> K -> option Z) : option Z :=
  bsearch_loop (length array) array key compare_func 0
    (Z.of_nat (length array) - 1).

(** Modelled from the spec: [svn_sort__array_insert] of libsvn_subr, which
    the spec has "insert in sorted position", at the index that the search
    gave; an index outside of the array is an error of the caller. *)
Definition svn_sort__array_insert {A} (array : list A) (new_element : A)
    (insert_index : Z) : option (list A) :=
  if (0 <=? insert_index) && (insert_index <=? Z.of_nat (length array))
  then Some (take (Z.to_nat insert_index) array ++ new_element
               :: drop (Z.to_nat insert_index) array)
  else None.

(** [compare_representation_offsets] (lines 446-455), on the representation
    the array element points to. *)
Definition compare_representation_offsets (data : rep_stats_t) (key : Z) : Z :=
  let lhs := rs_offset data in
  let rhs := key in
  if lhs <? rhs then -1 else (if lhs >? rhs then 1 else 0).

(** ** The traversal (stats.c, lines 182-232 and 387-1067) *)

Section Traversal.

(** [svn_cstring_strtoui64 (&val, str, minval, maxval, base)] of
    libsvn_subr. *)
Variable svn_cstring_strtoui64 : list Byte.byte -> Z -> Z -> Z -> result Z.

(** What the cancellation callback at address [func] returns when it is
    called with [baton] after the callback calls [trace]: [None] for
    [SVN_NO_ERROR]. *)
Variable call_cancel_func : ptr -> ptr -> list event -> option svn_error_t.

Definition APR_SIZE_MAX : Z := 2 ^ 64 - 1.

(** [get_file_size] (lines 184-196). *)
Definition get_file_size (fs : svn_fs_t) (rev_file : rev_file_t) : M Z :=
  lift_result (svn_io_file_size fs rev_file).

(** [get_content] (lines 203-232).  The enlargement of the file buffer
    has no effect on what is read. *)
Definition get_content (file : rev_file_t) (query : query_t)
    (revision offset len : Z) : M svn_stringbuf_t :=
  data <- lift_result (svn_io_file_read_at (q_fs query) file offset len) ;;
  ret (mk_stringbuf data len).

(** [read_revision_header] (lines 391-440); yields [changes],
    [changes_len] and [root_noderev]. *)
Definition read_revision_header (file_content : svn_stringbuf_t)
    : M (Z * Z * Z) :=
  let len := Z.min 64 (sb_len file_content) in
  let buf := take (Z.to_nat len)
               (drop (Z.to_nat (sb_len file_content - len))
                  (sb_data file_content)) in
  if negb (Z.of_nat (length buf) =? len) then stop_with Undefined else
  if len <=? 0 then stop_with Undefined else
  last_byte <- defined (buf !! Z.to_nat (len - 1)) ;;
  (* The last byte should be a newline. *)
  if negb (Byte.eqb last_byte newline) then
    raise (SVN_ERR_FS_CORRUPT "Revision lacks trailing newline")
  else
    (* Look for the next previous newline. *)
    let buf := <[Z.to_nat (len - 1) := nul]> buf in
    match bytes_strrchr (c_string buf) newline with
    | None =>
        raise (SVN_ERR_FS_CORRUPT
                 "Final line in revision file longer than 64 characters")
    | Some line =>
        match bytes_strchr (c_string (drop line buf)) space with
        | None =>
            raise (SVN_ERR_FS_CORRUPT
                     "Final line in revision file missing space")
        | Some rel =>
            let space := (line + rel)%nat in
            (* terminate the header line *)
            let buf := <[space := nul]> buf in
            (* extract information *)
            val <- lift_result
                     (svn_cstring_strtoui64 (c_string (drop (S line) buf))
                        0 APR_SIZE_MAX 10) ;;
            let root_noderev := to_size val in
            val <- lift_result
                     (svn_cstring_strtoui64 (c_string (drop (S space) buf))
                        0 APR_SIZE_MAX 10) ;;
            let changes := to_size val in
            let changes_len :=
              to_size (sb_len file_content - changes
                       - (len - Z.of_nat line) + 1) in
            ret (changes, changes_len, root_noderev)
        end
    end.

(** [find_representation] (lines 466-504); yields the representation
    found, [*idx] and the value left in [*revision_info]. *)
Definition find_representation (query : query_t)
    (revision_info : option (option info_ptr)) (revision offset : Z)
    : M (option rep_ptr * Z * option (option info_ptr)) :=
  (* first let's find the revision *)
  let info := match revision_info with
              | Some p => p
              | None => None
              end in
  stale <- match info with
           | None => ret true
           | Some p =>
               i <- read_info p ;;
               ret (negb (ri_revision i =? revision))
           end ;;
  found <- (if stale : bool then
              p <- revision_at revision ;;
              ret (Some p, match revision_info with
                           | Some _ => Some (Some p)
                           | None => None
                           end)
            else ret (info, revision_info)) ;;
  let '(info, revision_info) := found in
  match info with
  | None =>
      (* not found -> no result *)
      ret (None, -1, revision_info)
  | Some p =>
      (* look for the representation *)
      i <- read_info p ;;
      s <- get_state ;;
      idx <- defined
               (svn_sort__bsearch_lower_bound (ri_representations i) offset
                  (fun elt key =>
                     r ← st_reps s !! elt;
                     Some (compare_representation_offsets r key))) ;;
      if idx <? Z.of_nat (length (ri_representations i)) then
        result <- defined (ri_representations i !! Z.to_nat idx) ;;
        r <- read_rep result ;;
        if rs_offset r =? offset then ret (Some result, idx, revision_info)
        else ret (None, idx, revision_info)
      else ret (None, idx, revision_info)
  end.

(** [parse_representation] (lines 512-564). *)
Definition parse_representation (query : query_t) (rep : representation_t)
    (revision_info : info_ptr) : M rep_ptr :=
  found <- find_representation query (Some (Some revision_info))
             (rep_revision rep) (to_off (rep_item_index rep)) ;;
  let '(result, idx, revision_info) := found in
  match result with
  | Some result => ret result
  | None =>
      (* not parsed, yet: create a new rep object *)
      result <- alloc_rep
                  (mk_rep_stats (to_off (rep_item_index rep))
                     (to_size (rep_size rep))
                     (to_size (if rep_expanded_size rep =? 0
                               then rep_size rep
                               else rep_expanded_size rep))
                     (rep_revision rep) 0 0 unused_rep) ;;
      revision_info <- defined (mjoin revision_info) ;;
      (* In phys. addressing mode, follow link to the actual
         representation. *)
      when_ (negb (svn_fs_fs__use_log_addressing (q_fs query)))
        (info <- read_info revision_info ;;
         r <- read_rep result ;;
         let offset := to_off (ri_offset info + rs_offset r) in
         rev_file <- match ri_rev_file info with
                     | Some rev_file => ret rev_file
                     | None => raise SVN_ERR_ASSERTION_FAIL
                     end ;;
         header_size <- lift_result
                          (svn_fs_fs__read_rep_header (q_fs query)
                             rev_file offset) ;;
         update_rep result (set_rs_header_size (to_uint16 header_size))) ;;
      info <- read_info revision_info ;;
      representations <- defined
                           (svn_sort__array_insert (ri_representations info)
                              result idx) ;;
      update_info revision_info (set_ri_representations representations) ;;
      ret result
  end.

(** Lines 655-656 and 666-668 of [read_noderev]: count the reference and,
    if it is the first, classify the representation. *)
Definition add_reference (kind : rep_kind_t) (r : rep_stats_t) : rep_stats_t :=
  let r := set_rs_ref_count (to_uint32 (rs_ref_count r + 1)) r in
  if rs_ref_count r =? 1 then set_rs_kind kind r else r.

(** Lines 672-679 of [read_noderev]: [add_change] for [rep], if it is
    there and referenced once. *)
Definition record_change (rep : option rep_ptr) (noderev : node_revision_t)
    : M unit :=
  match rep with
  | None => ret tt
  | Some p =>
      r <- read_rep p ;;
      when_ (rs_ref_count r =? 1)
        (stats <- read_stats ;;
         stats <- defined
                    (add_change stats (to_int64 (rs_size r))
                       (to_int64 (rs_expanded_size r)) (rs_revision r)
                       (nr_created_path noderev) (rs_kind r)
                       (bool_decide (nr_predecessor_id noderev = None))) ;;
         write_stats stats)
  end.

(** [parse_dir] (lines 582-615); [read_noderev] is the function it calls
    back into. *)
Definition parse_dir
    (read_noderev : query_t -> svn_stringbuf_t -> Z -> info_ptr -> M unit)
    (query : query_t) (file_content : svn_stringbuf_t)
    (noderev : node_revision_t) (revision_info : info_ptr) : M unit :=
  entries <- lift_result (svn_fs_fs__rep_contents_dir (q_fs query) noderev) ;;
  for_each entries (fun dirent =>
    info <- read_info revision_info ;;
    when_ (svn_fs_fs__id_rev (dirent_id dirent) =? ri_revision info)
      (read_noderev query file_content
         (to_size (svn_fs_fs__id_item (dirent_id dirent))) revision_info)).

(** [read_noderev] (lines 624-702).  [fuel] bounds the depth of the
    recursion through [parse_dir]. *)
Fixpoint read_noderev (fuel : nat) (query : query_t)
    (file_content : svn_stringbuf_t) (offset : Z) (revision_info : info_ptr)
    : M unit :=
  match fuel with
  | O => stop_with OutOfFuel
  | S fuel' =>
      if Z.of_nat (length (sb_data file_content)) <? offset
      then stop_with Undefined else
      let noderev_len :=
        match strstr_end_marker
                (c_string (drop (Z.to_nat offset) (sb_data file_content))) with
        | Some noderev_end => to_size (Z.of_nat noderev_end + 2)
        | None => to_size (sb_len file_content - offset)
        end in
      noderev <- lift_result
                   (svn_fs_fs__read_noderev (q_fs query)
                      (drop (Z.to_nat offset)
                         (take (Z.to_nat (sb_len file_content))
                            (sb_data file_content)))) ;;
      text <- match nr_data_rep noderev with
              | Some data_rep =>
                  text <- parse_representation query data_rep revision_info ;;
                  (* if we are the first to use this rep, mark it as
                     "text rep" *)
                  update_rep text
                    (add_reference
                       (if decide (nr_kind noderev = svn_node_dir)
                        then dir_rep else file_rep)) ;;
                  ret (Some text)
              | None => ret None
              end ;;
      props <- match nr_prop_rep noderev with
               | Some prop_rep =>
                   props <- parse_representation query prop_rep revision_info ;;
                   (* if we are the first to use this rep, mark it as
                      "prop rep" *)
                   update_rep props
                     (add_reference
                        (if decide (nr_kind noderev = svn_node_dir)
                         then dir_property_rep else file_property_rep)) ;;
                   ret (Some props)
               | None => ret None
               end ;;
      (* record largest changes *)
      record_change text noderev ;;
      record_change props noderev ;;
      (* if this is a directory and has not been processed, yet, read and
         process it recursively *)
      first_use <- match text with
                   | Some p => r <- read_rep p ;; ret (rs_ref_count r =? 1)
                   | None => ret false
                   end ;;
      when_ (bool_decide (nr_kind noderev = svn_node_dir) && first_use
             && negb (svn_fs_fs__use_log_addressing (q_fs query)))
        (parse_dir (read_noderev fuel') query file_content noderev
           revision_info) ;;
      (* update stats *)
      if decide (nr_kind noderev = svn_node_dir) then
        update_info revision_info (fun i =>
          set_ri_dir_noderev (to_size (ri_dir_noderev_count i + 1))
            (to_size (ri_dir_noderev_size i + noderev_len)) i)
      else
        update_info revision_info (fun i =>
          set_ri_file_noderev (to_size (ri_file_noderev_count i + 1))
            (to_size (ri_file_noderev_size i + noderev_len)) i)
  end.

(** [if (query->cancel_func) SVN_ERR (query->cancel_func
    (query->cancel_baton))]. *)
Definition check_cancel (query : query_t) : M unit :=
  when_ (negb (q_cancel_func query =? 0))
    (s <- get_state ;;
     emit (CancelCall (q_cancel_func query) (q_cancel_baton query)) ;;
     match call_cancel_func (q_cancel_func query) (q_cancel_baton query)
             (st_trace s) with
     | None => ret tt
     | Some err => raise err
     end).

(** [query->progress_func (revision, query->progress_baton, pool)]. *)
Definition notify_progress (query : query_t) (revision : Z) : M unit :=
  emit (ProgressCall (q_progress_func query) revision
          (q_progress_baton query)).

(** [read_phys_pack_file] (lines 726-803). *)
Definition read_phys_pack_file (fuel : nat) (query : query_t) (base : Z)
    : M unit :=
  rev_file <- lift_result
                (svn_fs_fs__open_pack_or_rev_file (q_fs query) base) ;;
  file_size <- get_file_size (q_fs query) rev_file ;;
  (* process each revision in the pack file *)
  for_each (seqZ 0 (q_shard_size query)) (fun i =>
    (* cancellation support *)
    check_cancel query ;;
    (* create the revision info for the current rev *)
    info <- alloc_info
              (set_ri_revision (base + i)
                 (set_ri_rev_file (Some rev_file) zero_revision_info)) ;;
    offset <- lift_result
                (svn_fs_fs__get_packed_offset (q_fs query) (base + i)) ;;
    update_info info (set_ri_offset offset) ;;
    end_ <- (if i + 1 =? q_shard_size query then ret file_size
             else lift_result
                    (svn_fs_fs__get_packed_offset (q_fs query)
                       (base + i + 1))) ;;
    update_info info (set_ri_end end_) ;;
    rev_content <- get_content rev_file query (base + i) offset
                     (to_size (end_ - offset)) ;;
    header <- read_revision_header rev_content ;;
    let '(changes, changes_len, root_node_offset) := header in
    update_info info (fun i => set_ri_changes changes
                                 (set_ri_changes_len changes_len i)) ;;
    count <- defined
               (get_change_count
                  (drop (Z.to_nat changes) (sb_data rev_content))
                  changes_len) ;;
    update_info info (set_ri_change_count count) ;;
    read_noderev fuel query rev_content root_node_offset info ;;
    (* Done with this revision. *)
    lift_result (svn_fs_fs__close_revision_file (q_fs query) rev_file) ;;
    update_info info (set_ri_rev_file None) ;;
    (* put it into our container *)
    push_revision info) ;;
  (* one more pack file processed *)
  when_ (negb (q_progress_func query =? 0)) (notify_progress query base).

(** Lines 862-869 and 1029-1036: progress "every 1000 revs or so". *)
Definition notify_revision_progress (query : query_t) (revision : Z)
    : M unit :=
  when_ (negb (q_progress_func query =? 0))
    (when_ (negb (q_shard_size query =? 0)
            && (Z.rem revision (q_shard_size query) =? 0))
       (notify_progress query revision) ;;
     when_ ((q_shard_size query =? 0) && (Z.rem revision 1000 =? 0))
       (notify_progress query revision)).

(** [read_phys_revision_file] (lines 808-874). *)
Definition read_phys_revision_file (fuel : nat) (query : query_t)
    (revision : Z) : M unit :=
  info <- alloc_info zero_revision_info ;;
  (* cancellation support *)
  check_cancel query ;;
  (* read the whole pack file into memory *)
  rev_file <- lift_result
                (svn_fs_fs__open_pack_or_rev_file (q_fs query) revision) ;;
  file_size <- get_file_size (q_fs query) rev_file ;;
  (* create the revision info for the current rev *)
  update_info info (fun i =>
    set_ri_end file_size
      (set_ri_offset 0
         (set_ri_revision revision (set_ri_rev_file (Some rev_file) i)))) ;;
  rev_content <- get_content rev_file query revision 0 (to_size file_size) ;;
  header <- read_revision_header rev_content ;;
  let '(changes, changes_len, root_node_offset) := header in
  update_info info (fun i => set_ri_changes changes
                               (set_ri_changes_len changes_len i)) ;;
  count <- defined
             (get_change_count
                (drop (Z.to_nat changes) (sb_data rev_content))
                changes_len) ;;
  update_info info (set_ri_change_count count) ;;
  (* parse the revision content recursively. *)
  read_noderev fuel query rev_content root_node_offset info ;;
  (* Done with this revision. *)
  lift_result (svn_fs_fs__close_revision_file (q_fs query) rev_file) ;;
  update_info info (set_ri_rev_file None) ;;
  (* put it into our container *)
  push_revision info ;;
  (* show progress every 1000 revs or so *)
  notify_revision_progress query revision.

(** [read_item] (lines 879-897). *)
Definition read_item (fs : svn_fs_t) (rev_file : rev_file_t)
    (entry : svn_fs_fs__p2l_entry_t) : M svn_stringbuf_t :=
  data <- lift_result
            (svn_io_file_read_at fs rev_file (p2l_offset entry)
               (to_size (p2l_size entry))) ;;
  ret (mk_stringbuf data (to_size (p2l_size entry))).

(** The body of the loop over the entries of one index block (lines
    957-991), for the entry at index [i]; yields the new [offset]. *)
Definition process_entry (fuel : nat) (query : query_t)
    (rev_file : rev_file_t) (i : Z) (entry : svn_fs_fs__p2l_entry_t)
    (offset : Z) : M Z :=
  (* skip bits we previously processed *)
  if (i =? 0) && (p2l_offset entry <? offset) then ret offset
  (* skip zero-sized entries *)
  else if p2l_size entry =? 0 then ret offset
  else
    (* read and process interesting items *)
    (if p2l_type entry =? SVN_FS_FS__ITEM_TYPE_NODEREV then
       info <- revision_at (p2l_item_revision entry) ;;
       item <- read_item (q_fs query) rev_file entry ;;
       read_noderev fuel query item 0 info
     else if p2l_type entry =? SVN_FS_FS__ITEM_TYPE_CHANGES then
       info <- revision_at (p2l_item_revision entry) ;;
       item <- read_item (q_fs query) rev_file entry ;;
       count <- defined (get_change_count (sb_data item) (sb_len item)) ;;
       update_info info (fun r =>
         set_ri_changes_len (to_size (ri_changes_len r + p2l_size entry))
           (set_ri_change_count count r))
     else ret tt) ;;
    (* advance offset *)
    ret (to_off (offset + p2l_size entry)).

(** The loop over the entries of one index block (lines 955-992). *)
Fixpoint process_entries (fuel : nat) (query : query_t)
    (rev_file : rev_file_t) (entries : list svn_fs_fs__p2l_entry_t)
    (i : Z) (offset : Z) : M Z :=
  match entries with
  | [] => ret offset
  | entry :: rest =>
      offset <- process_entry fuel query rev_file i entry offset ;;
      process_entries fuel query rev_file rest (i + 1) offset
  end.

(** The loop over the index blocks (lines 939-993); [steps] bounds the
    number of blocks. *)
Fixpoint walk_blocks (steps fuel : nat) (query : query_t)
    (rev_file : rev_file_t) (base max_offset offset : Z) : M unit :=
  if offset <? max_offset then
    match steps with
    | O => stop_with OutOfFuel
    | S steps' =>
        (* cancellation support *)
        check_cancel query ;;
        (* get all entries for the current block *)
        entries <- lift_result
                     (svn_fs_fs__p2l_index_lookup (q_fs query) rev_file base
                        offset (p2l_page_size (q_fs query))) ;;
        (* process all entries (and later continue with the next block) *)
        offset <- process_entries fuel query rev_file entries 0 offset ;;
        walk_blocks steps' fuel query rev_file base max_offset offset
    end
  else ret tt.

(** [read_log_rev_or_packfile] (lines 902-1000). *)
Definition read_log_rev_or_packfile (fuel : nat) (query : query_t)
    (base count : Z) : M unit :=
  (* we will process every revision in the rev / pack file *)
  for_each (seqZ 0 count) (fun i =>
    (* create the revision info for the current rev *)
    info <- alloc_info (set_ri_revision (base + i) zero_revision_info) ;;
    push_revision info) ;;
  (* open the pack / rev file that is covered by the p2l index *)
  rev_file <- lift_result
                (svn_fs_fs__open_pack_or_rev_file (q_fs query) base) ;;
  max_offset <- lift_result
                  (svn_fs_fs__p2l_get_max_offset (q_fs query) rev_file base) ;;
  (* record the whole pack size in the first rev so the total sum will
     still be correct *)
  first <- revision_at base ;;
  update_info first (set_ri_end max_offset) ;;
  (* for all offsets in the file, get the P2L index entries and process
     the interesting items (change lists, noderevs) *)
  walk_blocks fuel fuel query rev_file base max_offset 0.

(** [read_log_pack_file] (lines 1005-1017). *)
Definition read_log_pack_file (fuel : nat) (query : query_t) (base : Z)
    : M unit :=
  read_log_rev_or_packfile fuel query base (q_shard_size query) ;;
  (* one more pack file processed *)
  when_ (negb (q_progress_func query =? 0)) (notify_progress query base).

(** [read_log_revision_file] (lines 1022-1039). *)
Definition read_log_revision_file (fuel : nat) (query : query_t)
    (revision : Z) : M unit :=
  read_log_rev_or_packfile fuel query revision 1 ;;
  (* show progress every 1000 revs or so *)
  notify_revision_progress query revision.

(** The first loop of [read_revisions] (lines 1051-1057): all packed
    revs; yields the value [revision] has when the loop is left.  [steps]
    bounds the number of pack files. *)
Fixpoint read_packed_revisions (steps fuel : nat) (query : query_t)
    (revision : Z) : M Z :=
  if revision <? q_min_unpacked_rev query then
    match steps with
    | O => stop_with OutOfFuel
    | S steps' =>
        (if svn_fs_fs__use_log_addressing (q_fs query)
         then read_log_pack_file fuel query revision
         else read_phys_pack_file fuel query revision) ;;
        read_packed_revisions steps' fuel query
          (revision + q_shard_size query)
    end
  else ret revision.

(** [read_revisions] (lines 1044-1067). *)
Definition read_revisions (fuel : nat) (query : query_t) : M unit :=
  (* read all packed revs *)
  revision <- read_packed_revisions fuel fuel query 0 ;;
  (* read non-packed revs *)
  for_each (seqZ revision (q_head query - revision + 1)) (fun revision =>
    if svn_fs_fs__use_log_addressing (q_fs query)
    then read_log_revision_file fuel query revision
    else read_phys_revision_file fuel query revision).

End Traversal.

(** ** Aggregation (stats.c, lines 1069-1156) *)

(** [add_rep_pack_stats] (lines 1071-1080). *)
Definition add_rep_pack_stats (stats : svn_fs_fs__rep_pack_stats_t)
    (rep : rep_stats_t) : svn_fs_fs__rep_pack_stats_t :=
  mk_rep_pack_stats
    (rps_count stats + 1)
    (rps_packed_size stats + rs_size rep)
    (rps_expanded_size stats + rs_expanded_size rep)
    (rps_overhead_size stats + (rs_header_size rep + 7)).

(** [add_rep_stats] (lines 1084-1096).  The product is formed in
    [apr_size_t]. *)
Definition add_rep_stats (stats : svn_fs_fs__representation_stats_t)
    (rep : rep_stats_t) : svn_fs_fs__representation_stats_t :=
  mk_representation_stats
    (add_rep_pack_stats (rst_total stats) rep)
    (if rs_ref_count rep =? 1
     then add_rep_pack_stats (rst_uniques stats) rep
     else rst_uniques stats)
    (if rs_ref_count rep =? 1
     then rst_shared stats
     else add_rep_pack_stats (rst_shared stats) rep)
    (rst_references stats + rs_ref_count rep)
    (rst_expanded_size stats
     + to_size (rs_ref_count rep * rs_expanded_size rep)).

Definition add_to_rep_stats (m : rep_stats_member) (rep : rep_stats_t)
    (stats : svn_fs_fs__stats_t) : svn_fs_fs__stats_t :=
  set_rep_stats m (add_rep_stats (rep_stats stats m) rep) stats.

(** Lines 1131-1153 of [aggregate_stats]: one representation. *)
Definition aggregate_rep (rep : rep_stats_t) (stats : svn_fs_fs__stats_t)
    : svn_fs_fs__stats_t :=
  (* accumulate in the right bucket *)
  let stats := match rs_kind rep with
               | file_rep => add_to_rep_stats file_rep_stats rep stats
               | dir_rep => add_to_rep_stats dir_rep_stats rep stats
               | file_property_rep =>
                   add_to_rep_stats file_prop_rep_stats rep stats
               | dir_property_rep =>
                   add_to_rep_stats dir_prop_rep_stats rep stats
               | unused_rep => stats
               end in
  add_to_rep_stats total_rep_stats rep stats.

(** Lines 1114-1126 of [aggregate_stats]: data gathered on a revision
    level. *)
Definition aggregate_revision (revision : revision_info_t)
    (stats : svn_fs_fs__stats_t) : svn_fs_fs__stats_t :=
  mk_stats
    (total_size stats + (ri_end revision - ri_offset revision))
    (revision_count stats)
    (change_count stats + ri_change_count revision)
    (change_len stats + ri_changes_len revision)
    (rep_stats stats)
    (mk_node_stats
       (ns_count (total_node_stats stats)
        + to_size (ri_dir_noderev_count revision
                   + ri_file_noderev_count revision))
       (ns_size (total_node_stats stats)
        + to_size (ri_dir_noderev_size revision
                   + ri_file_noderev_size revision)))
    (mk_node_stats
       (ns_count (file_node_stats stats) + ri_file_noderev_count revision)
       (ns_size (file_node_stats stats) + ri_file_noderev_size revision))
    (mk_node_stats
       (ns_count (dir_node_stats stats) + ri_dir_noderev_count revision)
       (ns_size (dir_node_stats stats) + ri_dir_noderev_size revision))
    (largest_changes stats) (histograms stats) (by_extension stats).

Definition set_revision_count (v : Z) (stats : svn_fs_fs__stats_t)
    : svn_fs_fs__stats_t :=
  mk_stats (total_size stats) v (change_count stats) (change_len stats)
    (rep_stats stats) (total_node_stats stats) (file_node_stats stats)
    (dir_node_stats stats) (largest_changes stats) (histograms stats)
    (by_extension stats).

Definition modify_stats (f : svn_fs_fs__stats_t -> svn_fs_fs__stats_t)
    : M unit :=
  stats <- read_stats ;; write_stats (f stats).

(** [aggregate_stats] (lines 1101-1156), on [query->revisions] and the
    statistics object of the store. *)
Definition aggregate_stats : M unit :=
  s <- get_state ;;
  modify_stats (set_revision_count (Z.of_nat (length (st_revisions s)))) ;;
  (* aggregate info from all revisions *)
  for_each (st_revisions s) (fun p =>
    revision <- read_info p ;;
    modify_stats (aggregate_revision revision) ;;
    (* process representations *)
    for_each (ri_representations revision) (fun k =>
      rep <- read_rep k ;;
      modify_stats (aggregate_rep rep))).

(** ** The entry point (stats.c, lines 1158-1237) *)

(** [create_stats] (lines 1160-1169). *)
Definition create_stats : svn_fs_fs__stats_t :=
  initialize_largest_changes
    (mk_stats 0 0 0 0 (fun _ => zero_representation_stats) zero_node_stats
       zero_node_stats zero_node_stats (mk_largest_changes [] 0 0)
       (fun _ => zero_histogram) [])
    64.

(** [create_query] (lines 1176-1215). *)
Definition create_query (fs : svn_fs_t) (progress_func progress_baton : ptr)
    (cancel_func cancel_baton : ptr) : M query_t :=
  (* Read repository dimensions. *)
  let shard_size := svn_fs_fs__shard_size fs in
  head <- lift_result (svn_fs_fs__youngest_rev fs) ;;
  min_unpacked_rev <- lift_result (svn_fs_fs__min_unpacked_rev fs) ;;
  (* create data containers and caches *)
  null_base <- alloc_rep (mk_rep_stats 0 0 0 0 0 0 unused_rep) ;;
  (* Store other parameters *)
  ret (mk_query fs head shard_size min_unpacked_rev null_base
         progress_func progress_baton cancel_func cancel_baton).

(** The store when [svn_fs_fs__get_stats] starts: nothing allocated, and
    [stats] for the fresh statistics object. *)
Definition initial_state (stats : svn_fs_fs__stats_t) : state :=
  mk_state [] [] [] stats [].

(** [svn_fs_fs__get_stats] (lines 1217-1237).  [*stats] is assigned before
    anything else is done and never again, so the object it designates when
    the function returns is [st_stats] of the final store. *)
Definition svn_fs_fs__get_stats
    (svn_cstring_strtoui64 : list Byte.byte -> Z -> Z -> Z -> result Z)
    (call_cancel_func : ptr -> ptr -> list event -> option svn_error_t)
    (fuel : nat) (fs : svn_fs_t) (progress_func progress_baton : ptr)
    (cancel_func cancel_baton : ptr) : result unit * state :=
  (query <- create_query fs progress_func progress_func
              cancel_func cancel_baton ;;
   read_revisions svn_cstring_strtoui64 call_cancel_func fuel query ;;
   aggregate_stats)
    (initial_state create_stats).

(** ** Notions the properties are stated with *)

(** The number of newline bytes of [b]. *)
Fixpoint newline_count (b : list Byte.byte) : Z :=
  match b with
  | [] => 0
  | c :: rest => (if Byte.eqb c newline then 1 else 0) + newline_count rest
  end.

(** A record of a changed-paths section: two lines, each ended by a
    newline. *)
Definition two_line_record (r : list Byte.byte) : bool :=
  (newline_count r =? 2)
  && match last r with
     | Some c => Byte.eqb c newline
     | None => false
     end.

(** A changes section of two records, the second with an empty second
    line. *)
Definition sample_records : list (list Byte.byte) :=
  [[Byte.x41; Byte.x0a; Byte.x42; Byte.x0a]; [Byte.x43; Byte.x0a; Byte.x0a]].
Definition sample_changes : list Byte.byte := concat sample_records.




(** The list of largest changes is in descending order of size. *)
Definition sorted_descending (changes : list svn_fs_fs__large_change_info_t)
    : Prop :=
  forall (i j : nat) a b,
    (i <= j)%nat -> changes !! i = Some a -> changes !! j = Some b ->
    lci_size b <= lci_size a.





(** The representations a rep-stats bucket gathers: all of them for
    [total_rep_stats], those of the matching kind for the others. *)
Definition in_bucket (m : rep_stats_member) (rep : rep_stats_t) : Prop :=
  match m with
  | total_rep_stats => True
  | file_rep_stats => rs_kind rep = file_rep
  | dir_rep_stats => rs_kind rep = dir_rep
  | file_prop_rep_stats => rs_kind rep = file_property_rep
  | dir_prop_rep_stats => rs_kind rep = dir_property_rep
  end.

Global Instance in_bucket_dec m rep : Decision (in_bucket m rep).
Proof. destruct m; simpl; apply _. Defined.

Definition sum_of (f : rep_stats_t -> Z) (reps : list rep_stats_t) : Z :=
  foldr (fun r acc => f r + acc) 0 reps.





Definition with_stats (stats : svn_fs_fs__stats_t) (s : state) : state :=
  mk_state (st_reps s) (st_infos s) (st_revisions s) stats (st_trace s).



(** A store with one revision that owns a file representation referenced
    twice and a property representation referenced once. *)
Definition sample_store : state :=
  mk_state
    [mk_rep_stats 3 10 40 0 2 6 file_rep;
     mk_rep_stats 17 5 5 0 1 6 file_property_rep]
    [mk_revision_info 0 0 0 0 0 30 0 2 0 20 [0%nat; 1%nat] None]
    [0%nat]
    create_stats
    [].

(** ** Reasoning about computations *)

(** [m] maintains the property [I] of the store, whether it yields a value
    or stops. *)
Definition inv {A} (I : state -> Prop) (m : M A) : Prop :=
  forall s, I s -> I (snd (m s)).

(** From a store satisfying [P], [m] yields a value [a] and a store that
    satisfy [Q a], or stops in a store that satisfies [E]. *)
Definition triple {A} (P : state -> Prop) (m : M A)
    (Q : A -> state -> Prop) (E : state -> Prop) : Prop :=
  forall s, P s ->
    match m s with
    | (Ok a, s') => Q a s'
    | (Stop _, s') => E s'
    end.

(** A representation that is not classified has not been referenced. *)
Definition unused_unreferenced (r : rep_stats_t) : Prop :=
  rs_kind r = unused_rep -> rs_ref_count r = 0.

(** The classification a node-revision gives to the representation it is
    the first to reference: by the kind of the node and by the role of the
    representation, data ([is_text]) or properties. *)
Definition classify (noderev_kind : svn_node_kind_t) (is_text : bool)
    : rep_kind_t :=
  match is_text, decide (noderev_kind = svn_node_dir) with
  | true, left _ => dir_rep
  | true, right _ => file_rep
  | false, left _ => dir_property_rep
  | false, right _ => file_property_rep
  end.

(** The representation [apr_pcalloc] and the first assignments of
    [parse_representation] make, before any reference is counted. *)
Definition fresh_rep (rep : representation_t) : rep_stats_t :=
  mk_rep_stats (to_off (rep_item_index rep)) (to_size (rep_size rep))
    (to_size (if rep_expanded_size rep =? 0 then rep_size rep
              else rep_expanded_size rep))
    (rep_revision rep) 0 0 unused_rep.

Definition all_unused_unreferenced (s : state) : Prop :=
  Forall unused_unreferenced (st_reps s).

(** Every call of the progress callback recorded in [trace] went to the
    function [func] and passed it [baton]. *)
Definition progress_calls_pass (func baton : ptr) (trace : list event) : Prop :=
  forall e, e ∈ trace ->
    match e with
    | ProgressCall f _ b => f = func /\ b = baton
    | CancelCall _ _ => True
    end.

(** The members of the statistics object that only [aggregate_stats]
    writes. *)
Definition aggregate_fields (stats : svn_fs_fs__stats_t) :=
  (total_size stats, revision_count stats, change_count stats,
   change_len stats, rep_stats stats, total_node_stats stats,
   file_node_stats stats, dir_node_stats stats).

(** The part of [svn_fs_fs__get_stats] before [aggregate_stats]. *)
Definition traversal
    (svn_cstring_strtoui64 : list Byte.byte -> Z -> Z -> Z -> result Z)
    (call_cancel_func : ptr -> ptr -> list event -> option svn_error_t)
    (fuel : nat) (fs : svn_fs_t) (progress_func progress_baton : ptr)
    (cancel_func cancel_baton : ptr) : M unit :=
  query <- create_query fs progress_func progress_func
             cancel_func cancel_baton ;;
  read_revisions svn_cstring_strtoui64 call_cancel_func fuel query.

(** *** Sample repositories *)

Definition no_strtoui64 : list Byte.byte -> Z -> Z -> Z -> result Z :=
  fun _ _ _ _ => Stop (Failed (SVN_ERR_IO 1)).

Definition never_cancel : ptr -> ptr -> list event -> option svn_error_t :=
  fun _ _ _ => None.

(** A cancellation callback that lets one call pass and cancels at the
    second. *)
Definition cancel_at_second_call
    : ptr -> ptr -> list event -> option svn_error_t :=
  fun _ _ trace =>
    if bool_decide (1 <= length trace)%nat then Some SVN_ERR_CANCELLED
    else None.

(** A file node whose data representation is item [item] of revision 0,
    10 bytes long. *)
Definition sample_file_node (item : Z) (path : string) : node_revision_t :=
  mk_node_revision svn_node_file None (Some (mk_representation 0 item 10 0))
    None path.

(** A repository in logical addressing with the unpacked revisions 0 and 1.
    The index of either revision lists two node-revisions of 10 bytes each,
    at the offsets [first] and [second]; all are file nodes with the data
    representation at item 3 of revision 0. *)
Definition sample_log_fs (first second : Z) : svn_fs_t :=
  mk_fs 0 (Ok 1) (Ok 0) true 64
    (fun rev => Ok rev)
    (fun f => Ok 20)
    (fun f off len =>
       Ok (replicate (Z.to_nat len)
             (if off =? first then Byte.x01 else Byte.x02)))
    (fun rev => Ok 0)
    (fun f => Ok tt)
    (fun f off => Ok 6)
    (fun bytes =>
       match bytes with
       | b :: _ =>
           if Byte.eqb b Byte.x01 then Ok (sample_file_node 3 "/a.txt")
           else Ok (sample_file_node 3 "/b.txt")
       | [] => Stop (Failed (SVN_ERR_FS_CORRUPT "empty"))
       end)
    (fun n => Ok [])
    (fun f base => Ok 20)
    (fun f base off page =>
       Ok [mk_p2l_entry first 10 SVN_FS_FS__ITEM_TYPE_NODEREV base 1;
           mk_p2l_entry second 10 SVN_FS_FS__ITEM_TYPE_NODEREV base 2]).

(** A run with the progress callback at address 77 and the progress baton
    88, without cancellation callback. *)
Definition sample_progress_run : result unit * state :=
  svn_fs_fs__get_stats no_strtoui64 never_cancel 5 (sample_log_fs 0 10)
    77 88 0 0.

(** A run that is cancelled when revision 1 is about to be read. *)
Definition sample_cancelled_run : result unit * state :=
  svn_fs_fs__get_stats no_strtoui64 cancel_at_second_call 5
    (sample_log_fs 0 10) 0 0 5 6.


Definition sample_query : query_t :=
  mk_query (sample_log_fs 0 5) 1 0 0 0%nat 0 0 0 0.

(** The store when the walk over revision 0 starts: the null base and the
    information of revision 0. *)
Definition sample_walk_store : state :=
  mk_state [mk_rep_stats 0 0 0 0 0 0 unused_rep]
    [set_ri_end 20 (set_ri_revision 0 zero_revision_info)] [0%nat]
    create_stats [].


(** The part of the store that decides which revision an element of
    [query->revisions] describes. *)
Definition rev_view (s : state) : list info_ptr * list Z :=
  (st_revisions s, ri_revision <$> st_infos s).

(** The element at index [i] of [query->revisions] is the information of
    revision [i]. *)
Definition view_indexed (v : list info_ptr * list Z) : Prop :=
  forall (i : nat) (p : info_ptr),
    v.1 !! i = Some p -> v.2 !! p = Some (Z.of_nat i).

Definition revisions_indexed (s : state) : Prop := view_indexed (rev_view s).

(** [n] revisions were appended so far, each at its own index. *)
Definition revisions_upto (n : nat) (s : state) : Prop :=
  revisions_indexed s /\ length (st_revisions s) = n.

(** [n] revisions were appended, and the information at [info], of
    revision [r], is not among them. *)
Definition view_pending (n : nat) (info : info_ptr) (r : Z)
    (v : list info_ptr * list Z) : Prop :=
  view_indexed v /\ length v.1 = n /\ (info ∉ v.1) /\ v.2 !! info = Some r.

Definition view_upto (n : nat) (v : list info_ptr * list Z) : Prop :=
  view_indexed v /\ length v.1 = n.

(** The invariant of the loop over the pack files: the array holds the
    revisions below [revision]; or the shard size is negative, the loop
    counts downwards and will not end. *)
Definition packed_upto (query : query_t) (revision : Z) (s : state) : Prop :=
  revisions_indexed s
  /\ (Z.of_nat (length (st_revisions s)) = revision
      \/ (q_shard_size query < 0 /\ revision < q_min_unpacked_rev query)).

(** *** The registry of representations *)

(** What identifies a representation: its offset and its revision. *)
Definition rep_key (r : rep_stats_t) : Z * Z := (rs_offset r, rs_revision r).

Definition offset_at (keys : list (Z * Z)) (p : rep_ptr) : option Z :=
  fst <$> keys !! p.

(** The representations of the array [ptrs] are in strictly ascending order
    of offset. *)
Definition array_sorted (keys : list (Z * Z)) (ptrs : list rep_ptr) : Prop :=
  forall (i j : nat) (p q : rep_ptr),
    (i < j)%nat -> ptrs !! i = Some p -> ptrs !! j = Some q ->
    exists x y, offset_at keys p = Some x /\ offset_at keys q = Some y /\ x < y.

(** The array [ptrs] holds pointers to representations of the store. *)
Definition array_valid (keys : list (Z * Z)) (ptrs : list rep_ptr) : Prop :=
  forall p, p ∈ ptrs -> (p < length keys)%nat.

(** The comparison [find_representation] hands to the binary search. *)
Definition compare_at (reps : list rep_stats_t) (elt : rep_ptr) (key : Z)
    : option Z :=
  r ← reps !! elt; Some (compare_representation_offsets r key).

(** The store as far as the registry goes: the keys of the representations,
    and of every [revision_info_t] its revision and its array. *)
Definition reg_view (s : state)
    : list (Z * Z) * list (Z * list rep_ptr) * list info_ptr :=
  (rep_key <$> st_reps s,
   (fun i => (ri_revision i, ri_representations i)) <$> st_infos s,
   st_revisions s).

(** Every array is sorted and holds representations of the store, and no
    representation is in two arrays. *)
Definition arrays_ok (keys : list (Z * Z)) (infos : list (Z * list rep_ptr))
    : Prop :=
  (forall t rev ptrs,
      infos !! t = Some (rev, ptrs) ->
      array_valid keys ptrs /\ array_sorted keys ptrs)
  /\ (forall t t' rev rev' ptrs ptrs' p,
         infos !! t = Some (rev, ptrs) -> infos !! t' = Some (rev', ptrs') ->
         p ∈ ptrs -> p ∈ ptrs' -> t = t').

(** The arrays are in order, and the array of revisions is indexed by
    revision. *)
Definition registry_ok
    (v : list (Z * Z) * list (Z * list rep_ptr) * list info_ptr) : Prop :=
  arrays_ok v.1.1 v.1.2
  /\ (forall (i : nat) t,
         v.2 !! i = Some t -> exists ptrs, v.1.2 !! t = Some (Z.of_nat i, ptrs)).

(** The [revision_info_t] in which [find_representation], called for the
    node-revisions of [info], looks for a representation of revision
    [rev]. *)
Definition resolve
    (v : list (Z * Z) * list (Z * list rep_ptr) * list info_ptr)
    (info : info_ptr) (rev : Z) : option info_ptr :=
  '(r, _) ← v.1.2 !! info;
  if r =? rev then Some info
  else if 0 <=? rev then v.2 !! Z.to_nat rev else None.

(** *** References to a representation *)

(** What [read_noderev] does with the data representation, and with the
    property representation, of a node-revision (lines 648-657 and
    659-669): look it up or create it, count the reference and classify
    the representation if the reference is the first. *)
Definition reference (query : query_t) (rep : option representation_t)
    (kind : rep_kind_t) (revision_info : info_ptr) : M (option rep_ptr) :=
  match rep with
  | Some rep =>
      text <- parse_representation query rep revision_info ;;
      update_rep text (add_reference kind) ;;
      ret (Some text)
  | None => ret None
  end.

(** The place of the offset [off] in the array of the [revision_info_t]
    at [t], of revision [rev]: the array holds the pointer [p] to the
    representation [r] at that offset, or it holds no representation at
    that offset. *)
Definition slot (s : state) (t : info_ptr) (rev off : Z)
    (o : option (rep_ptr * rep_stats_t)) : Prop :=
  exists ptrs,
    (reg_view s).1.2 !! t = Some (rev, ptrs)
    /\ match o with
       | Some (p, r) =>
           p ∈ ptrs /\ st_reps s !! p = Some r /\ rs_offset r = off
       | None =>
           forall q, q ∈ ptrs -> offset_at (reg_view s).1.1 q <> Some off
       end.


(** The representation [rep] is the one at offset [off] of revision
    [rev]. *)
Definition rep_at (rep : option representation_t) (rev off : Z) : bool :=
  match rep with
  | Some r => (rep_revision r =? rev) && (to_off (rep_item_index r) =? off)
  | None => false
  end.

(** What [parse_representation] does to the store [s] when it yields the
    pointer [p], to the representation [r], for [rep], whose revision
    has the array [ptrs] at [t]: the array holds [p] and the store is
    left alone; or the array holds no representation at that offset, and
    [r] is new, not referenced and not classified, and inserted into the
    array. *)
Definition interned (rep : representation_t) (s s' : state) (t : info_ptr)
    (ptrs : list rep_ptr) (p : rep_ptr) (r : rep_stats_t) : Prop :=
  registry_ok (reg_view s')
  /\ st_reps s' !! p = Some r
  /\ rs_offset r = to_off (rep_item_index rep)
  /\ ((s' = s /\ p ∈ ptrs)
      \/ ((forall q, q ∈ ptrs ->
             offset_at (reg_view s).1.1 q
             <> Some (to_off (rep_item_index rep)))
          /\ p = length (st_reps s)
          /\ st_reps s' = st_reps s ++ [r]
          /\ rs_ref_count r = 0 /\ rs_kind r = unused_rep
          /\ (exists hs, r = set_rs_header_size hs (fresh_rep rep))
          /\ (exists idx : nat,
                 (reg_view s').1.2
                 = <[t := (rep_revision rep,
                           take idx ptrs ++ p :: drop idx ptrs)]>
                     (reg_view s).1.2)
          /\ st_revisions s' = st_revisions s
          /\ st_stats s' = st_stats s
          /\ st_trace s' = st_trace s)).

(** The representations and the registry are those of [reps] and [v]. *)
Definition store_kept (reps : list rep_stats_t)
    (v : list (Z * Z) * list (Z * list rep_ptr) * list info_ptr)
    (s : state) : Prop :=
  st_reps s = reps /\ reg_view s = v.

(** The node-revision [read_noderev] parses at [offset] of
    [file_content]. *)
Definition noderev_at (query : query_t) (file_content : svn_stringbuf_t)
    (offset : Z) : result node_revision_t :=
  svn_fs_fs__read_noderev (q_fs query)
    (drop (Z.to_nat offset)
       (take (Z.to_nat (sb_len file_content)) (sb_data file_content))).

(** [read_noderev] does not descend from the node-revision [nr]: it
    descends from directories, in physical addressing. *)
Definition no_descent (query : query_t) (nr : node_revision_t) : Prop :=
  nr_kind nr <> svn_node_dir
  \/ svn_fs_fs__use_log_addressing (q_fs query) = true.


(** How a reference to [orep], made for a node-revision of the
    [revision_info_t] at [t] in the store [s], changes the place [o] of
    the offset [off] of the revision [rev] into [o']: not at all, if
    [orep] is another representation; else the representation the array
    holds is found by [parse_representation], which leaves the store
    alone, or a new one is created, and the reference is counted. *)
Definition referenced (query : query_t) (orep : option representation_t)
    (kind : rep_kind_t) (t : info_ptr) (rev off : Z) (s : state)
    (o o' : option (rep_ptr * rep_stats_t)) : Prop :=
  if rep_at orep rev off then
    exists rep p r0,
      orep = Some rep
      /\ o' = Some (p, add_reference kind r0)
      /\ match o with
         | Some (p0, r) =>
             p = p0 /\ r0 = r
             /\ parse_representation query rep t s = (Ok p0, s)
         | None =>
             p = length (st_reps s)
             /\ exists hs, r0 = set_rs_header_size hs (fresh_rep rep)
         end
  else o' = o.

(** The text of two node-revisions, told apart by their first byte: in the
    sample repository both are file nodes with the data representation at
    item 3 of revision 0. *)
Definition sample_content : svn_stringbuf_t :=
  mk_stringbuf [Byte.x01; Byte.x02] 2.

(** The store after [read_noderev] has parsed the first node-revision of
    [sample_content] for revision 0, and the store after it has parsed the
    second as well. *)
Definition sample_first_parsed : state :=
  snd (read_noderev 1 sample_query sample_content 0 0%nat sample_walk_store).


(** The arrays of representations of the store are in order. *)
Definition arrays_in_order (s : state) : Prop :=
  arrays_ok (reg_view s).1.1 (reg_view s).1.2.


(** ** Notions for the further properties *)

(** An index entry of a type that stats.c does not interpret. *)
Definition sample_rep_entry : svn_fs_fs__p2l_entry_t :=
  mk_p2l_entry 10 7 3 0 4.

(** A changed-paths item of revision 0, 7 bytes long. *)
Definition sample_changes_entry : svn_fs_fs__p2l_entry_t :=
  mk_p2l_entry 10 7 SVN_FS_FS__ITEM_TYPE_CHANGES 0 4.

(** The sample repository, with an index whose blocks list no entries. *)
Definition sample_empty_index_fs : svn_fs_t :=
  mk_fs 0 (Ok 1) (Ok 0) true 64
    (fun rev => Ok rev)
    (fun f => Ok 20)
    (fun f off len => Ok (replicate (Z.to_nat len) Byte.x0a))
    (fun rev => Ok 0)
    (fun f => Ok tt)
    (fun f off => Ok 6)
    (fun bytes => Ok (sample_file_node 3 "/a.txt"))
    (fun n => Ok [])
    (fun f base => Ok 20)
    (fun f base off page => Ok []).

Definition sample_empty_index_query : query_t :=
  mk_query sample_empty_index_fs 1 0 0 0%nat 0 0 0 0.

(** Every call recorded in [trace] went through a function pointer that is
    not null: the progress calls to [progress_func], the cancellation calls
    to [cancel_func], and these with [cancel_baton]. *)
Definition calls_wellformed (progress_func cancel_func cancel_baton : ptr)
    (trace : list event) : Prop :=
  forall e, e ∈ trace ->
    match e with
    | ProgressCall f _ _ => f = progress_func /\ f <> 0
    | CancelCall f b => f = cancel_func /\ b = cancel_baton /\ f <> 0
    end.

(** The number of sizes added to the histogram [m] of [stats], and their
    sum, as the histogram's [total] line has them. *)
Definition total_count (stats : svn_fs_fs__stats_t) (m : histogram_member) : Z :=
  hl_count (h_total (histograms stats m)).
Definition total_sum (stats : svn_fs_fs__stats_t) (m : histogram_member) : Z :=
  hl_sum (h_total (histograms stats m)).

(** The global histograms are the sums of the histograms by kind: the
    representation sizes of [rep_size_histogram] are those of the four
    [..._rep_histogram]s, the expanded sizes of [node_size_histogram] those
    of the four histograms of nodes and property lists. *)
Definition histograms_partition (stats : svn_fs_fs__stats_t) : Prop :=
  total_count stats rep_size_histogram
    = total_count stats file_rep_histogram
      + total_count stats dir_rep_histogram
      + total_count stats file_prop_rep_histogram
      + total_count stats dir_prop_rep_histogram
  /\ total_sum stats rep_size_histogram
    = total_sum stats file_rep_histogram
      + total_sum stats dir_rep_histogram
      + total_sum stats file_prop_rep_histogram
      + total_sum stats dir_prop_rep_histogram
  /\ total_count stats node_size_histogram
    = total_count stats file_histogram
      + total_count stats dir_histogram
      + total_count stats file_prop_histogram
      + total_count stats dir_prop_histogram
  /\ total_sum stats node_size_histogram
    = total_sum stats file_histogram
      + total_sum stats dir_histogram
      + total_sum stats file_prop_histogram
      + total_sum stats dir_prop_histogram.

(** The sum of [f] over the entries of the table [by_extension]. *)
Definition sum_by_extension (f : svn_fs_fs__extension_info_t -> Z)
    (h : list (string * svn_fs_fs__extension_info_t)) : Z :=
  foldr (fun e acc => f e.2 + acc) 0 h.

(** The histograms of the table [by_extension] add up to the two
    histograms of file contents. *)
Definition extensions_partition (stats : svn_fs_fs__stats_t) : Prop :=
  total_count stats file_rep_histogram
    = sum_by_extension (fun e => hl_count (h_total (ei_rep_histogram e)))
        (by_extension stats)
  /\ total_sum stats file_rep_histogram
    = sum_by_extension (fun e => hl_sum (h_total (ei_rep_histogram e)))
        (by_extension stats)
  /\ total_count stats file_histogram
    = sum_by_extension (fun e => hl_count (h_total (ei_node_histogram e)))
        (by_extension stats)
  /\ total_sum stats file_histogram
    = sum_by_extension (fun e => hl_sum (h_total (ei_node_histogram e)))
        (by_extension stats).

(** What holds of the histograms throughout a run. *)
Definition census (stats : svn_fs_fs__stats_t) : Prop :=
  histograms stats unused_rep_histogram = zero_histogram
  /\ histograms_partition stats
  /\ extensions_partition stats.

(** The sum of [f] over the revisions [infos]. *)
Definition info_sum (f : revision_info_t -> Z) (infos : list revision_info_t)
    : Z :=
  foldr (fun i acc => f i + acc) 0 infos.

(** [stats'] is [stats] with the counters of the revisions [infos] added
    to its counters of revisions, changes and node-revisions, and with the
    same largest changes, histograms and table by extension. *)
Definition revisions_added (infos : list revision_info_t)
    (stats stats' : svn_fs_fs__stats_t) : Prop :=
  total_size stats'
    = total_size stats + info_sum (fun i => ri_end i - ri_offset i) infos
  /\ change_count stats' = change_count stats + info_sum ri_change_count infos
  /\ change_len stats' = change_len stats + info_sum ri_changes_len infos
  /\ ns_count (dir_node_stats stats')
     = ns_count (dir_node_stats stats) + info_sum ri_dir_noderev_count infos
  /\ ns_size (dir_node_stats stats')
     = ns_size (dir_node_stats stats) + info_sum ri_dir_noderev_size infos
  /\ ns_count (file_node_stats stats')
     = ns_count (file_node_stats stats) + info_sum ri_file_noderev_count infos
  /\ ns_size (file_node_stats stats')
     = ns_size (file_node_stats stats) + info_sum ri_file_noderev_size infos
  /\ ns_count (total_node_stats stats')
     = ns_count (total_node_stats stats)
       + info_sum (fun i => to_size (ri_dir_noderev_count i
                                     + ri_file_noderev_count i)) infos
  /\ ns_size (total_node_stats stats')
     = ns_size (total_node_stats stats)
       + info_sum (fun i => to_size (ri_dir_noderev_size i
                                     + ri_file_noderev_size i)) infos
  /\ largest_changes stats' = largest_changes stats
  /\ histograms stats' = histograms stats
  /\ by_extension stats' = by_extension stats.

(** A stand-in for [svn_cstring_strtoui64] that reads decimal digits. *)
Definition decimal_strtoui64 (str : list Byte.byte) (minval maxval base : Z)
    : result Z :=
  Ok (fold_left (fun acc b => acc * 10 + (Z.of_N (Byte.to_N b) - 48)) str 0).

(** The two bytes "ab", and the trailer line "12 1" with the newlines
    around it. *)
Definition sample_body : list Byte.byte := [Byte.x61; Byte.x62].
Definition sample_trailer : list Byte.byte :=
  [Byte.x0a; Byte.x31; Byte.x32; Byte.x20; Byte.x31; Byte.x0a].

(** Lines 633-636 of [read_noderev]: the length of the node-revision at
    [offset] of [file_content], up to and including the empty line that
    ends it, or up to the end of the content. *)
Definition noderev_len (file_content : svn_stringbuf_t) (offset : Z) : Z :=
  match strstr_end_marker
          (c_string (drop (Z.to_nat offset) (sb_data file_content))) with
  | Some noderev_end => to_size (Z.of_nat noderev_end + 2)
  | None => to_size (sb_len file_content - offset)
  end.

(** The [revision_info_t] at [info] is [i] but for its array of
    representations. *)
Definition info_but_representations (info : info_ptr) (i : revision_info_t)
    (s : state) : Prop :=
  exists representations,
    st_infos s !! info = Some (set_ri_representations representations i).

(** No representation of the store has a header size recorded. *)
Definition no_header_sizes (s : state) : Prop :=
  Forall (fun r => rs_header_size r = 0) (st_reps s).

(** What the drivers record of a revision before they parse its
    node-revisions: the members of [revision_info_t] other than the array
    of representations and the node-revision counters. *)
Definition revision_header (i : revision_info_t)
    : Z * Z * Z * Z * Z * Z * option rev_file_t :=
  (ri_revision i, ri_offset i, ri_end i, ri_changes i, ri_changes_len i,
   ri_change_count i, ri_rev_file i).

(** The [revision_info_t] at [info] has the header [h], and
    [query->revisions] is [revs]. *)
Definition header_kept (info : info_ptr)
    (h : Z * Z * Z * Z * Z * Z * option rev_file_t) (revs : list info_ptr)
    (s : state) : Prop :=
  revision_header <$> st_infos s !! info = Some h /\ st_revisions s = revs.

(** A repository in physical addressing with the single revision 0, whose
    file holds the seven bytes "ab", newline, "0 1", newline; its root
    node-revision is a file node with the data representation at item 3. *)
Definition sample_phys_fs : svn_fs_t :=
  mk_fs 0 (Ok 0) (Ok 0) false 64
    (fun rev => Ok rev)
    (fun f => Ok 7)
    (fun f off len =>
       Ok [Byte.x61; Byte.x62; Byte.x0a; Byte.x30; Byte.x20; Byte.x31;
           Byte.x0a])
    (fun rev => Ok 0)
    (fun f => Ok tt)
    (fun f off => Ok 6)
    (fun bytes => Ok (sample_file_node 3 "/a.txt"))
    (fun n => Ok [])
    (fun f base => Ok 0)
    (fun f base off page => Ok []).

Definition sample_phys_query : query_t :=
  mk_query sample_phys_fs 0 0 0 0%nat 0 0 0 0.

(** The repository [sample_phys_fs] with directories of two entries, whose
    node-revisions are of the revisions 3 and 4. *)
Definition sample_dir_fs : svn_fs_t :=
  mk_fs 0 (Ok 0) (Ok 0) false 64
    (fun rev => Ok rev)
    (fun f => Ok 7)
    (fun f off len =>
       Ok [Byte.x61; Byte.x62; Byte.x0a; Byte.x30; Byte.x20; Byte.x31;
           Byte.x0a])
    (fun rev => Ok 0)
    (fun f => Ok tt)
    (fun f off => Ok 6)
    (fun bytes => Ok (sample_file_node 3 "/a.txt"))
    (fun n => Ok [mk_dirent "a.txt" (mk_id 3 0); mk_dirent "b.txt" (mk_id 4 2)])
    (fun f base => Ok 0)
    (fun f base off page => Ok []).

Definition sample_dir_query : query_t :=
  mk_query sample_dir_fs 0 0 0 0%nat 0 0 0 0.

(** A list of the three largest changes, of the sizes 9, 4 and 2. *)
Definition sample_largest : svn_fs_fs__largest_changes_t :=
  mk_largest_changes
    [mk_large_change "/a" 9 1; mk_large_change "/b" 4 2;
     mk_large_change "/c" 2 3]
    3 2.

(** * Properties *)

(** ** Counting changes *)

Lemma newline_count_bounds (b : list Byte.byte) :
  0 <= newline_count b <= Z.of_nat (length b).
Proof.
  induction b as [|c rest IH]; simpl; [lia|].
  destruct (Byte.eqb c newline); lia.
Qed.

Lemma newline_count_app (a b : list Byte.byte) :
  newline_count (a ++ b) = newline_count a + newline_count b.
Proof.
  induction a as [|c rest IH]; simpl; [reflexivity|]. rewrite IH. lia.
Qed.

Lemma count_lines_scan (b : list Byte.byte) :
  forall lines,
    0 <= lines ->
    lines + Z.of_nat (length b) < 2 ^ 64 ->
    count_lines b (length b) lines = Some (lines + newline_count b).
Proof.
  induction b as [|c rest IH]; intros lines Hlo Hhi; simpl.
  - f_equal. lia.
  - simpl length in Hhi.
    destruct (Byte.eqb c newline).
    + unfold to_size. rewrite Z.mod_small by lia.
      rewrite IH by lia. f_equal. lia.
    + rewrite IH by lia. f_equal.
Qed.

Lemma newline_count_records (records : list (list Byte.byte)) :
  Forall (fun r => two_line_record r = true) records ->
  newline_count (concat records) = 2 * Z.of_nat (length records).
Proof.
  induction 1 as [|r records Hr _ IH]; simpl concat; [reflexivity|].
  rewrite newline_count_app, IH.
  unfold two_line_record in Hr.
  apply andb_true_iff in Hr as [Hr _]. apply Z.eqb_eq in Hr.
  simpl length. lia.
Qed.

(** C9.  For a byte string [b] of length [len] (an [apr_size_t]),
    [get_change_count (b, len)] is the number of newline bytes of [b]
    divided by two; hence on a changes section made of [n] two-line records
    it is [n], and [n * 2] is the number of newlines. *)
Theorem get_change_count_halves_newlines (b : list Byte.byte) :
  Z.of_nat (length b) < 2 ^ 64 ->
  get_change_count b (Z.of_nat (length b)) = Some (newline_count b / 2)
  /\ forall records : list (list Byte.byte),
       Forall (fun r => two_line_record r = true) records ->
       b = concat records ->
       get_change_count b (Z.of_nat (length b))
         = Some (Z.of_nat (length records))
       /\ Z.of_nat (length records) * 2 = newline_count b.
Proof.
  intros Hlen.
  assert (Hcount : get_change_count b (Z.of_nat (length b))
                   = Some (newline_count b / 2)).
  { unfold get_change_count. rewrite Nat2Z.id.
    rewrite count_lines_scan by lia. reflexivity. }
  split; [exact Hcount|].
  intros records Hrecords ->.
  rewrite Hcount, (newline_count_records records Hrecords).
  split; [|lia].
  f_equal. rewrite Z.mul_comm. apply Z.div_mul. lia.
Qed.

Lemma get_change_count_halves_newlines_witness :
  get_change_count sample_changes 7 = Some 2
  /\ 2 * 2 = newline_count sample_changes.
Proof.
  assert (Hlen : Z.of_nat (length sample_changes) < 2 ^ 64)
    by (vm_compute; reflexivity).
  apply (proj2 (get_change_count_halves_newlines sample_changes Hlen)
           sample_records).
  - repeat constructor.
  - reflexivity.
Defined.

(** ** Histograms *)

Lemma shl_int64_one (shift : Z) :
  0 <= shift <= 62 -> shl_int64 1 shift = Some (2 ^ shift).
Proof.
  intros Hs. unfold shl_int64, int64_max.
  assert (2 ^ shift <= 2 ^ 62) by (apply Z.pow_le_mono_r; lia).
  assert (Hlt : 1 * 2 ^ shift <= 2 ^ 63 - 1) by lia.
  destruct (Z.leb_spec 0 shift); [|lia].
  destruct (Z.ltb_spec shift 64); [|lia].
  destruct (Z.leb_spec (1 * 2 ^ shift) (2 ^ 63 - 1)); [|lia].
  simpl. rewrite Z.shiftl_1_l. reflexivity.
Qed.

(** Below 2^62 the loop of [add_to_histogram] stops at the first power of
    two above [size]. *)
Lemma histogram_shift_in_range (fuel : nat) :
  forall shift size,
    0 <= shift ->
    64 <= shift + Z.of_nat fuel ->
    size < 2 ^ 62 ->
    (shift = 0 \/ 2 ^ (shift - 1) <= size) ->
    exists k,
      histogram_shift fuel shift size = Some k
      /\ shift <= k <= 62
      /\ size < 2 ^ k
      /\ (k = 0 \/ 2 ^ (k - 1) <= size).
Proof.
  induction fuel as [|fuel IH]; intros shift size Hlo Hfuel Hsize Hprev.
  - assert (shift <= 62); [|lia].
    destruct Hprev as [->|Hprev]; [lia|].
    destruct (Z.le_gt_cases shift 62) as [|Hgt]; [assumption|].
    assert (2 ^ 62 <= 2 ^ (shift - 1)) by (apply Z.pow_le_mono_r; lia). lia.
  - assert (Hle : shift <= 62).
    { destruct Hprev as [->|Hprev]; [lia|].
      destruct (Z.le_gt_cases shift 62) as [|Hgt]; [assumption|].
      assert (2 ^ 62 <= 2 ^ (shift - 1)) by (apply Z.pow_le_mono_r; lia).
      lia. }
    simpl. rewrite shl_int64_one by lia.
    destruct (Z.leb_spec (2 ^ shift) size) as [Hcmp|Hcmp].
    + destruct (IH (shift + 1) size) as (k & Hk & Hrange & Hup & Hdown);
        try lia.
      { right. replace (shift + 1 - 1) with shift by lia. exact Hcmp. }
      exists k. repeat split; try assumption; lia.
    + exists shift. repeat split; try assumption; lia.
Qed.







(** The bucket index law and the totals, for the sizes on which the loop of
    [add_to_histogram] is defined: for [0 <= size < 2^62], a histogram of
    64 lines gets the total and exactly the line [k] incremented, [k] the
    least exponent with [2^k > size]; and the totals keep mirroring the
    lines over any sequence of additions. *)
Lemma add_to_histogram_bucket (h : svn_fs_fs__histogram_t) (size : Z) :
  length (h_lines h) = 64%nat ->
  0 <= size < 2 ^ 62 ->
  exists k line,
    0 <= k <= 62
    /\ size < 2 ^ k
    /\ (forall j, 0 <= j -> size < 2 ^ j -> k <= j)
    /\ (size = 0 -> k = 0)
    /\ h_lines h !! Z.to_nat k = Some line
    /\ add_to_histogram h size
       = Some (mk_histogram
                 (mk_line (hl_count (h_total h) + 1) (hl_sum (h_total h) + size))
                 (<[Z.to_nat k := mk_line (hl_count line + 1)
                                          (hl_sum line + size)]> (h_lines h))).
Proof.
  intros Hlen [Hlo Hhi].
  destruct (histogram_shift_in_range 64 0 size) as (k & Hk & Hrange & Hup & Hdown);
    try lia.
  destruct (lookup_lt_is_Some_2 (h_lines h) (Z.to_nat k)) as [line Hline];
    [lia|].
  exists k, line. split_and!; try assumption; try lia.
  - intros j Hj Hsize.
    destruct Hdown as [->|Hdown]; [lia|].
    destruct (Z.le_gt_cases k j) as [|Hgt]; [assumption|].
    assert (2 ^ j <= 2 ^ (k - 1)) by (apply Z.pow_le_mono_r; lia). lia.
  - unfold add_to_histogram. rewrite Hk. simpl. rewrite Hline. reflexivity.
Qed.


(** C8.  At the size [2^62] the loop of [add_to_histogram] evaluates
    [(apr_int64_t) 1 << 63], which overflows: the function has no defined
    result, and line 63 is not incremented. *)
Theorem add_to_histogram_overflows_at_2_62 :
  histogram_shift 64 0 (2 ^ 62) = None
  /\ add_to_histogram zero_histogram (2 ^ 62) = None
  /\ shl_int64 1 63 = None.
Proof. repeat split; vm_compute; reflexivity. Qed.

(** ** Largest changes *)

Lemma shift_changes_spec (i : nat) :
  forall changes rep_size k changes',
    (i < length changes)%nat ->
    shift_changes i rep_size changes = (k, changes') ->
    (k <= i)%nat
    /\ length changes' = length changes
    /\ (k = 0%nat
        \/ exists c, changes !! (k - 1)%nat = Some c /\ rep_size <= lci_size c)
    /\ (forall n c, (k <= n < i)%nat -> changes !! n = Some c ->
                    lci_size c < rep_size)
    /\ (forall n, changes' !! n
                  = if decide (k < n <= i)%nat then changes !! (n - 1)%nat
                    else changes !! n).
Proof.
  induction i as [|j IH]; intros changes rep_size k changes' Hlen Hshift.
  - simpl in Hshift. inversion Hshift; subst. split_and!; auto.
    + intros n c Hn. lia.
    + intros n. destruct (decide (0 < n <= 0)%nat); [lia|reflexivity].
  - simpl in Hshift.
    destruct (lookup_lt_is_Some_2 changes j) as [prev Hprev]; [lia|].
    rewrite Hprev in Hshift.
    destruct (lci_size prev >=? rep_size) eqn:Hcmp.
    + inversion Hshift; subst. apply Z.geb_le in Hcmp. split_and!; auto.
      * right. exists prev. replace (S j - 1)%nat with j by lia. auto.
      * intros n c Hn. lia.
      * intros n. destruct (decide (S j < n <= S j)%nat); [lia|reflexivity].
    + rewrite Z.geb_leb in Hcmp. apply Z.leb_gt in Hcmp.
      apply IH in Hshift; [|rewrite length_insert; lia].
      destruct Hshift as (Hk & Hl & Hstop & Hskip & Hlook).
      rewrite length_insert in Hl.
      split_and!; [lia|exact Hl| | |].
      * destruct Hstop as [->|(c & Hc & Hsize)]; [left; reflexivity|].
        right. exists c. split; [|exact Hsize].
        rewrite list_lookup_insert_ne in Hc by lia. exact Hc.
      * intros n c Hn Hc.
        destruct (decide (n = j)) as [->|Hne].
        -- rewrite Hprev in Hc. inversion Hc; subst. exact Hcmp.
        -- apply (Hskip n c); [lia|].
           rewrite list_lookup_insert_ne by lia. exact Hc.
      * intros n. rewrite Hlook.
        destruct (decide (k < n <= j)%nat), (decide (k < n <= S j)%nat);
          try lia.
        -- rewrite list_lookup_insert_ne by lia. reflexivity.
        -- assert (n = S j) by lia. subst n.
           rewrite list_lookup_insert_eq by lia.
           replace (S j - 1)%nat with j by lia. symmetry. exact Hprev.
        -- rewrite list_lookup_insert_ne by lia. reflexivity.
Qed.






(** A property of the statistics object that the histogram updates and the
    update of the per-extension table maintain holds after [add_change] if it
    holds once the list of largest changes is updated. *)
Lemma add_change_maintains (P : svn_fs_fs__stats_t -> Prop) :
  (forall m size st st',
      add_to_stats_histogram m size st = Some st' -> P st -> P st') ->
  (forall ext st, P st -> P (set_by_extension ext st)) ->
  forall stats stats' rep_size expanded_size revision path kind plain_added,
    add_change stats rep_size expanded_size revision path kind plain_added
      = Some stats' ->
    exists lc,
      add_largest_change (largest_changes stats) rep_size revision path
        = Some lc
      /\ (P (set_largest_changes lc stats) -> P stats').
Proof.
  intros Hhist Hext stats stats' rep_size expanded_size revision path kind
    plain_added H.
  unfold add_change in H.
  apply bind_Some in H as (lc & Hlc & H).
  exists lc. split; [exact Hlc|]. intros HP.
  generalize dependent (set_largest_changes lc stats). clear stats Hlc.
  intros stats H HP.
  apply bind_Some in H as (st1 & H1 & H). apply Hhist in H1; [|exact HP].
  apply bind_Some in H as (st2 & H2 & H). apply Hhist in H2; [|exact H1].
  apply bind_Some in H as (st3 & H3 & H).
  assert (HP3 : P st3).
  { destruct plain_added.
    - apply bind_Some in H3 as (st & Ha & Hb).
      apply Hhist in Ha; [|exact H2]. apply Hhist in Hb; [|exact Ha].
      exact Hb.
    - inversion H3; subst. exact H2. }
  apply bind_Some in H as (st4 & H4 & H).
  assert (HP4 : P st4).
  { destruct kind;
      try (apply bind_Some in H4 as (st & Ha & Hb);
           apply Hhist in Ha; [|exact HP3]; apply Hhist in Hb; [|exact Ha];
           exact Hb).
    apply Hhist in H4; [exact H4|exact HP3]. }
  destruct kind; try (inversion H; subst; exact HP4).
  apply bind_Some in H as (node_h & _ & H).
  apply bind_Some in H as (rep_h & _ & H).
  inversion H; subst. apply Hext. exact HP4.
Qed.








(** ** Aggregation *)

Lemma fold_add_rep_pack_stats (reps : list rep_stats_t) :
  forall acc,
    fold_left add_rep_pack_stats reps acc
    = mk_rep_pack_stats
        (rps_count acc + Z.of_nat (length reps))
        (rps_packed_size acc + sum_of rs_size reps)
        (rps_expanded_size acc + sum_of rs_expanded_size reps)
        (rps_overhead_size acc + sum_of (fun r => rs_header_size r + 7) reps).
Proof.
  induction reps as [|r reps IH]; intros acc.
  - destruct acc. simpl. f_equal; lia.
  - simpl fold_left. rewrite IH. unfold add_rep_pack_stats, sum_of. simpl.
    f_equal; lia.
Qed.















(** ** Rules for [inv] and [triple] *)

Lemma inv_ret {A} (I : state -> Prop) (a : A) : inv I (ret a).
Proof. intros s Hs. exact Hs. Qed.

Lemma inv_bind {A B} (I : state -> Prop) (m : M A) (k : A -> M B) :
  inv I m -> (forall a, inv I (k a)) -> inv I (bind m k).
Proof.
  intros Hm Hk s Hs. unfold bind. specialize (Hm s Hs).
  destruct (m s) as [[a|why] s']; simpl in *.
  - apply Hk. exact Hm.
  - exact Hm.
Qed.

Lemma inv_stop_with {A} (I : state -> Prop) (why : stop) :
  inv I (@stop_with A why).
Proof. intros s Hs. exact Hs. Qed.

Lemma inv_raise {A} (I : state -> Prop) (err : svn_error_t) :
  inv I (@raise A err).
Proof. intros s Hs. exact Hs. Qed.

Lemma inv_lift_result {A} (I : state -> Prop) (r : result A) :
  inv I (lift_result r).
Proof. intros s Hs. exact Hs. Qed.

Lemma inv_defined {A} (I : state -> Prop) (o : option A) : inv I (defined o).
Proof. intros s Hs. destruct o; exact Hs. Qed.

Lemma inv_get_state (I : state -> Prop) : inv I get_state.
Proof. intros s Hs. exact Hs. Qed.

Lemma inv_read_rep (I : state -> Prop) (p : rep_ptr) : inv I (read_rep p).
Proof. intros s Hs. unfold read_rep. destruct (st_reps s !! p); exact Hs. Qed.

Lemma inv_read_info (I : state -> Prop) (p : info_ptr) : inv I (read_info p).
Proof. intros s Hs. unfold read_info. destruct (st_infos s !! p); exact Hs. Qed.

Lemma inv_revision_at (I : state -> Prop) (revision : Z) :
  inv I (revision_at revision).
Proof.
  intros s Hs. unfold revision_at.
  destruct (0 <=? revision); [|exact Hs].
  destruct (st_revisions s !! Z.to_nat revision); exact Hs.
Qed.

Lemma inv_read_stats (I : state -> Prop) : inv I read_stats.
Proof. intros s Hs. exact Hs. Qed.

Lemma inv_when (I : state -> Prop) (b : bool) (m : M unit) :
  inv I m -> inv I (when_ b m).
Proof. intros Hm. destruct b; [exact Hm|apply inv_ret]. Qed.

Lemma inv_for_each {A} (I : state -> Prop) (l : list A) (body : A -> M unit) :
  (forall x, inv I (body x)) -> inv I (for_each l body).
Proof.
  intros Hbody. induction l as [|x l IH]; simpl.
  - apply inv_ret.
  - apply inv_bind; [apply Hbody|intros _; exact IH].
Qed.

Lemma inv_conj {A} (I1 I2 : state -> Prop) (m : M A) :
  inv I1 m -> inv I2 m -> inv (fun s => I1 s /\ I2 s) m.
Proof. intros H1 H2 s [Hs1 Hs2]. split; [apply H1|apply H2]; assumption. Qed.

Create HintDb inv discriminated.

#[export] Hint Resolve inv_ret inv_stop_with inv_raise inv_lift_result
  inv_defined inv_get_state inv_read_rep inv_read_info inv_revision_at
  inv_read_stats : inv.

(** Decompose a computation along its binds, conditionals and loops, and
    close the leaves with the lemmas of the database [inv]. *)
Ltac inv_step :=
  lazymatch goal with
  | |- inv _ (bind _ _) => apply inv_bind; [|intros ?]
  | |- inv _ (when_ _ _) => apply inv_when
  | |- inv _ (for_each _ _) => apply inv_for_each; intros ?
  | |- inv _ (if ?b then _ else _) => destruct b
  | |- inv _ (match ?x with _ => _ end) => destruct x
  | |- inv _ _ => solve [eauto with inv]
  end.

Ltac inv_auto := repeat inv_step.

(** Unfold the functions of stats.c that are not recursive. *)
Create HintDb stats discriminated.

#[export] Hint Unfold get_file_size get_content read_revision_header
  find_representation parse_representation parse_dir
  check_cancel notify_progress notify_revision_progress
  read_phys_pack_file read_phys_revision_file read_item process_entry
  read_log_rev_or_packfile read_log_pack_file read_log_revision_file
  read_revisions modify_stats : stats.

Ltac unfold_stats := repeat (progress autounfold with stats).

(** The primitive accesses to the store, for an invariant that the access
    at hand does not concern. *)
Ltac inv_prim :=
  let s := fresh "s" in
  let Hs := fresh "Hs" in
  intros s Hs;
  unfold alloc_rep, update_rep, alloc_info, update_info, push_revision,
    write_stats, emit;
  repeat match goal with
         | |- context [match ?x with _ => _ end] => destruct x
         end;
  simpl; try exact Hs.

Lemma triple_ret {A} (P : state -> Prop) (a : A)
    (Q : A -> state -> Prop) (E : state -> Prop) :
  (forall s, P s -> Q a s) -> triple P (ret a) Q E.
Proof. intros H s Hs. apply H. exact Hs. Qed.

Lemma triple_bind {A B} (P : state -> Prop) (m : M A) (k : A -> M B)
    (R : A -> state -> Prop) (Q : B -> state -> Prop) (E : state -> Prop) :
  triple P m R E -> (forall a, triple (R a) (k a) Q E) ->
  triple P (bind m k) Q E.
Proof.
  intros Hm Hk s Hs. unfold bind. specialize (Hm s Hs).
  destruct (m s) as [[a|why] s'].
  - apply Hk. exact Hm.
  - exact Hm.
Qed.

Lemma triple_conseq {A} (P P' : state -> Prop) (m : M A)
    (Q Q' : A -> state -> Prop) (E E' : state -> Prop) :
  triple P m Q E ->
  (forall s, P' s -> P s) ->
  (forall a s, Q a s -> Q' a s) ->
  (forall s, E s -> E' s) ->
  triple P' m Q' E'.
Proof.
  intros Hm HP HQ HE s Hs. specialize (Hm s (HP s Hs)).
  destruct (m s) as [[a|why] s']; auto.
Qed.

Lemma triple_inv {A} (I : state -> Prop) (m : M A) :
  inv I m -> triple I m (fun _ => I) I.
Proof.
  intros Hm s Hs. specialize (Hm s Hs).
  destruct (m s) as [[a|why] s']; exact Hm.
Qed.

Lemma inv_triple {A} (I : state -> Prop) (m : M A) :
  triple I m (fun _ => I) I -> inv I m.
Proof.
  intros Hm s Hs. specialize (Hm s Hs).
  destruct (m s) as [[a|why] s']; exact Hm.
Qed.

(** ** Classification of representations *)




Lemma add_reference_fields (kind : rep_kind_t) (r : rep_stats_t) :
  rs_offset (add_reference kind r) = rs_offset r
  /\ rs_size (add_reference kind r) = rs_size r
  /\ rs_expanded_size (add_reference kind r) = rs_expanded_size r
  /\ rs_revision (add_reference kind r) = rs_revision r
  /\ rs_header_size (add_reference kind r) = rs_header_size r.
Proof.
  unfold add_reference. simpl.
  destruct (to_uint32 (rs_ref_count r + 1) =? 1); repeat split; reflexivity.
Qed.

Lemma add_reference_unused_unreferenced (kind : rep_kind_t) (r : rep_stats_t) :
  kind <> unused_rep ->
  unused_unreferenced r -> unused_unreferenced (add_reference kind r).
Proof.
  intros Hkind Hr. unfold unused_unreferenced, add_reference in *. simpl.
  destruct (Z.eqb_spec (to_uint32 (rs_ref_count r + 1)) 1) as [Heq|Hne];
    simpl; intros Hk.
  - contradiction.
  - exfalso. apply Hne. rewrite (Hr Hk). reflexivity.
Qed.

Lemma inv_kinds_alloc_rep (r : rep_stats_t) :
  unused_unreferenced r -> inv all_unused_unreferenced (alloc_rep r).
Proof.
  intros Hr s Hs. unfold all_unused_unreferenced in *. simpl.
  apply Forall_app. split; [exact Hs|]. constructor; [exact Hr|constructor].
Qed.

Lemma inv_kinds_update_rep (p : rep_ptr) (f : rep_stats_t -> rep_stats_t) :
  (forall r, unused_unreferenced r -> unused_unreferenced (f r)) ->
  inv all_unused_unreferenced (update_rep p f).
Proof.
  intros Hf s Hs. unfold update_rep, all_unused_unreferenced in *.
  destruct (st_reps s !! p) as [r|] eqn:Hp; simpl; [|exact Hs].
  apply Forall_insert; [exact Hs|]. apply Hf.
  rewrite Forall_forall in Hs. apply Hs.
  apply list_elem_of_lookup. exists p. exact Hp.
Qed.

Lemma inv_kinds_alloc_info i : inv all_unused_unreferenced (alloc_info i).
Proof. inv_prim. Qed.
Lemma inv_kinds_update_info p f : inv all_unused_unreferenced (update_info p f).
Proof. inv_prim. Qed.
Lemma inv_kinds_push_revision p : inv all_unused_unreferenced (push_revision p).
Proof. inv_prim. Qed.
Lemma inv_kinds_write_stats st : inv all_unused_unreferenced (write_stats st).
Proof. inv_prim. Qed.
Lemma inv_kinds_emit e : inv all_unused_unreferenced (emit e).
Proof. inv_prim. Qed.

Lemma classify_used (noderev_kind : svn_node_kind_t) (is_text : bool) :
  classify noderev_kind is_text <> unused_rep.
Proof.
  unfold classify.
  destruct is_text, (decide (noderev_kind = svn_node_dir)); discriminate.
Qed.

#[export] Hint Resolve inv_kinds_alloc_info inv_kinds_update_info
  inv_kinds_push_revision inv_kinds_write_stats inv_kinds_emit : inv.


Section KindInvariant.

Variable svn_cstring_strtoui64 : list Byte.byte -> Z -> Z -> Z -> result Z.
Variable call_cancel_func : ptr -> ptr -> list event -> option svn_error_t.









End KindInvariant.

(** ** The callbacks *)

Lemma progress_calls_pass_app (func baton : ptr) (trace : list event)
    (e : event) :
  progress_calls_pass func baton trace ->
  match e with
  | ProgressCall f _ b => f = func /\ b = baton
  | CancelCall _ _ => True
  end ->
  progress_calls_pass func baton (trace ++ [e]).
Proof.
  intros Htrace He e' Hin. apply elem_of_app in Hin as [Hin|Hin].
  - apply Htrace. exact Hin.
  - apply list_elem_of_singleton in Hin. subst e'. exact He.
Qed.

Lemma inv_trace_emit (func baton : ptr) (e : event) :
  match e with
  | ProgressCall f _ b => f = func /\ b = baton
  | CancelCall _ _ => True
  end ->
  inv (fun s => progress_calls_pass func baton (st_trace s)) (emit e).
Proof. intros He s Hs. simpl. apply progress_calls_pass_app; assumption. Qed.

Lemma inv_trace_alloc_rep func baton r :
  inv (fun s => progress_calls_pass func baton (st_trace s)) (alloc_rep r).
Proof. inv_prim. Qed.
Lemma inv_trace_update_rep func baton p f :
  inv (fun s => progress_calls_pass func baton (st_trace s)) (update_rep p f).
Proof. inv_prim. Qed.
Lemma inv_trace_alloc_info func baton i :
  inv (fun s => progress_calls_pass func baton (st_trace s)) (alloc_info i).
Proof. inv_prim. Qed.
Lemma inv_trace_update_info func baton p f :
  inv (fun s => progress_calls_pass func baton (st_trace s)) (update_info p f).
Proof. inv_prim. Qed.
Lemma inv_trace_push_revision func baton p :
  inv (fun s => progress_calls_pass func baton (st_trace s)) (push_revision p).
Proof. inv_prim. Qed.
Lemma inv_trace_write_stats func baton st :
  inv (fun s => progress_calls_pass func baton (st_trace s)) (write_stats st).
Proof. inv_prim. Qed.

#[export] Hint Resolve inv_trace_alloc_rep inv_trace_update_rep
  inv_trace_alloc_info inv_trace_update_info inv_trace_push_revision
  inv_trace_write_stats : inv.

Ltac trace_leaf :=
  first
    [ progress unfold record_change
    | apply inv_trace_emit; simpl; auto ].

Section ProgressBaton.

Variable svn_cstring_strtoui64 : list Byte.byte -> Z -> Z -> Z -> result Z.
Variable call_cancel_func : ptr -> ptr -> list event -> option svn_error_t.
Variable query : query_t.

Let calls_pass (s : state) : Prop :=
  progress_calls_pass (q_progress_func query) (q_progress_baton query)
    (st_trace s).

Lemma inv_trace_read_noderev fuel :
  forall file_content offset revision_info,
    inv calls_pass (read_noderev fuel query file_content offset revision_info).
Proof.
  unfold calls_pass.
  induction fuel as [|fuel IH]; intros; simpl; [apply inv_stop_with|].
  unfold_stats. repeat (inv_step || trace_leaf).
Qed.

Lemma inv_trace_process_entries fuel rev_file entries :
  forall i offset,
    inv calls_pass (process_entries fuel query rev_file entries i offset).
Proof.
  pose proof inv_trace_read_noderev as Hread. unfold calls_pass in *.
  induction entries as [|entry entries IH]; intros; simpl; [apply inv_ret|].
  unfold_stats. repeat (inv_step || trace_leaf).
Qed.

Lemma inv_trace_walk_blocks steps fuel rev_file base max_offset :
  forall offset,
    inv calls_pass
      (walk_blocks call_cancel_func steps fuel query rev_file base max_offset
         offset).
Proof.
  pose proof inv_trace_process_entries as Hentries. unfold calls_pass in *.
  induction steps as [|steps IH]; intros; simpl;
    unfold_stats; repeat (inv_step || trace_leaf).
Qed.

Lemma inv_trace_read_packed_revisions steps fuel :
  forall revision,
    inv calls_pass
      (read_packed_revisions svn_cstring_strtoui64 call_cancel_func steps
         fuel query revision).
Proof.
  pose proof inv_trace_read_noderev as Hread.
  pose proof inv_trace_walk_blocks as Hwalk. unfold calls_pass in *.
  induction steps as [|steps IH]; intros; simpl;
    unfold_stats; repeat (inv_step || trace_leaf).
Qed.

Lemma inv_trace_read_revisions fuel :
  inv calls_pass
    (read_revisions svn_cstring_strtoui64 call_cancel_func fuel query).
Proof.
  pose proof inv_trace_read_noderev as Hread.
  pose proof inv_trace_walk_blocks as Hwalk.
  pose proof inv_trace_read_packed_revisions as Hpacked.
  unfold calls_pass in *.
  unfold_stats. repeat (inv_step || trace_leaf).
Qed.

End ProgressBaton.

Lemma create_query_fields fs pf pb cf cb s query s' :
  create_query fs pf pb cf cb s = (Ok query, s') ->
  q_fs query = fs
  /\ q_progress_func query = pf /\ q_progress_baton query = pb
  /\ q_cancel_func query = cf /\ q_cancel_baton query = cb
  /\ q_shard_size query = svn_fs_fs__shard_size fs
  /\ svn_fs_fs__youngest_rev fs = Ok (q_head query)
  /\ svn_fs_fs__min_unpacked_rev fs = Ok (q_min_unpacked_rev query)
  /\ st_trace s' = st_trace s
  /\ st_stats s' = st_stats s
  /\ st_revisions s' = st_revisions s
  /\ st_infos s' = st_infos s.
Proof.
  unfold create_query, bind, lift_result, alloc_rep, ret. intros H.
  destruct (svn_fs_fs__youngest_rev fs) as [head|]; [|discriminate].
  destruct (svn_fs_fs__min_unpacked_rev fs) as [mu|]; [|discriminate].
  inversion H; subst; clear H. simpl. repeat split; reflexivity.
Qed.

Lemma create_query_stops fs pf pb cf cb s why s' :
  create_query fs pf pb cf cb s = (Stop why, s') -> s' = s.
Proof.
  unfold create_query, bind, lift_result, alloc_rep, ret. intros H.
  destruct (svn_fs_fs__youngest_rev fs) as [head|];
    [|inversion H; reflexivity].
  destruct (svn_fs_fs__min_unpacked_rev fs) as [mu|];
    [discriminate|inversion H; reflexivity].
Qed.

(** What the code does with the baton: every call of the progress callback
    that [svn_fs_fs__get_stats] makes passes [progress_func] itself as the
    baton, whatever [progress_baton] the caller supplied. *)
Lemma get_stats_passes_progress_func_as_baton
    svn_cstring_strtoui64 call_cancel_func fuel fs
    progress_func progress_baton cancel_func cancel_baton :
  progress_calls_pass progress_func progress_func
    (st_trace (snd (svn_fs_fs__get_stats svn_cstring_strtoui64
                      call_cancel_func fuel fs progress_func progress_baton
                      cancel_func cancel_baton))).
Proof.
  unfold svn_fs_fs__get_stats. unfold bind at 1.
  destruct (create_query fs progress_func progress_func cancel_func
              cancel_baton (initial_state create_stats))
    as [[query|why] s1] eqn:Hquery.
  - apply create_query_fields in Hquery
      as (_ & Hf & Hb & _ & _ & _ & _ & _ & Ht & _).
    assert (Hinv : inv (fun s => progress_calls_pass progress_func
                                   progress_func (st_trace s))
                     (read_revisions svn_cstring_strtoui64 call_cancel_func
                        fuel query ;; aggregate_stats)).
    { apply inv_bind.
      - pose proof (inv_trace_read_revisions svn_cstring_strtoui64
                      call_cancel_func query fuel) as H.
        rewrite Hf, Hb in H. exact H.
      - intros _. unfold aggregate_stats. unfold_stats.
        repeat (inv_step || trace_leaf). }
    apply Hinv. rewrite Ht. intros e He. inversion He.
  - apply create_query_stops in Hquery. subst s1. intros e He. inversion He.
Qed.

(** C1.  A caller passes the progress callback 77 and the progress baton
    88: the callback is invoked with the baton 77, the function pointer
    itself, and never sees 88. *)
Theorem get_stats_progress_baton_is_progress_func :
  fst sample_progress_run = Ok tt
  /\ st_trace (snd sample_progress_run) = [ProgressCall 77 0 77].
Proof. split; vm_compute; reflexivity. Qed.

(** ** Failure of the traversal *)

Lemma add_to_stats_histogram_aggregate_fields (m : histogram_member)
    (size : Z) (stats stats' : svn_fs_fs__stats_t) :
  add_to_stats_histogram m size stats = Some stats' ->
  aggregate_fields stats' = aggregate_fields stats.
Proof.
  unfold add_to_stats_histogram. intros H.
  destruct (add_to_histogram (histograms stats m) size); [|discriminate].
  simpl in H. inversion H; subst. reflexivity.
Qed.

Lemma add_change_aggregate_fields (stats stats' : svn_fs_fs__stats_t)
    (rep_size expanded_size revision : Z) (path : string) (kind : rep_kind_t)
    (plain_added : bool) :
  add_change stats rep_size expanded_size revision path kind plain_added
    = Some stats' ->
  aggregate_fields stats' = aggregate_fields stats.
Proof.
  intros H.
  destruct (add_change_maintains
              (fun st => aggregate_fields st = aggregate_fields stats)
              ltac:(intros m size st st' Hadd Hst; cbv beta in *;
                    rewrite (add_to_stats_histogram_aggregate_fields
                               _ _ _ _ Hadd);
                    exact Hst)
              ltac:(intros ext st Hst; cbv beta in *; exact Hst)
              _ _ _ _ _ _ _ _ H) as (lc & _ & Hpost).
  apply Hpost. reflexivity.
Qed.

Lemma inv_aggregate_fields_record_change v rep noderev :
  inv (fun s => aggregate_fields (st_stats s) = v) (record_change rep noderev).
Proof.
  intros s Hs. unfold record_change.
  destruct rep as [p|]; [|exact Hs].
  unfold bind, read_rep. destruct (st_reps s !! p) as [r|]; [|exact Hs].
  destruct (rs_ref_count r =? 1); [|exact Hs].
  unfold when_, bind, read_stats, defined.
  destruct (add_change _ _ _ _ _ _ _) as [stats'|] eqn:Hadd; [|exact Hs].
  simpl. rewrite (add_change_aggregate_fields _ _ _ _ _ _ _ _ Hadd).
  exact Hs.
Qed.

Lemma inv_aggregate_fields_alloc_rep v r :
  inv (fun s => aggregate_fields (st_stats s) = v) (alloc_rep r).
Proof. inv_prim. Qed.
Lemma inv_aggregate_fields_update_rep v p f :
  inv (fun s => aggregate_fields (st_stats s) = v) (update_rep p f).
Proof. inv_prim. Qed.
Lemma inv_aggregate_fields_alloc_info v i :
  inv (fun s => aggregate_fields (st_stats s) = v) (alloc_info i).
Proof. inv_prim. Qed.
Lemma inv_aggregate_fields_update_info v p f :
  inv (fun s => aggregate_fields (st_stats s) = v) (update_info p f).
Proof. inv_prim. Qed.
Lemma inv_aggregate_fields_push_revision v p :
  inv (fun s => aggregate_fields (st_stats s) = v) (push_revision p).
Proof. inv_prim. Qed.
Lemma inv_aggregate_fields_emit v e :
  inv (fun s => aggregate_fields (st_stats s) = v) (emit e).
Proof. inv_prim. Qed.

#[export] Hint Resolve inv_aggregate_fields_record_change
  inv_aggregate_fields_alloc_rep inv_aggregate_fields_update_rep
  inv_aggregate_fields_alloc_info inv_aggregate_fields_update_info
  inv_aggregate_fields_push_revision inv_aggregate_fields_emit : inv.

Section TraversalKeepsAggregates.

Variable svn_cstring_strtoui64 : list Byte.byte -> Z -> Z -> Z -> result Z.
Variable call_cancel_func : ptr -> ptr -> list event -> option svn_error_t.
Variable v : Z * Z * Z * Z
             * (rep_stats_member -> svn_fs_fs__representation_stats_t)
             * svn_fs_fs__node_stats_t * svn_fs_fs__node_stats_t
             * svn_fs_fs__node_stats_t.

Let keeps (s : state) : Prop := aggregate_fields (st_stats s) = v.

Lemma inv_aggregate_fields_read_noderev fuel :
  forall query file_content offset revision_info,
    inv keeps (read_noderev fuel query file_content offset revision_info).
Proof.
  unfold keeps.
  induction fuel as [|fuel IH]; intros; simpl; [apply inv_stop_with|].
  unfold_stats. inv_auto.
Qed.

Lemma inv_aggregate_fields_process_entries fuel query rev_file entries :
  forall i offset,
    inv keeps (process_entries fuel query rev_file entries i offset).
Proof.
  pose proof inv_aggregate_fields_read_noderev as Hread. unfold keeps in *.
  induction entries as [|entry entries IH]; intros; simpl; [apply inv_ret|].
  unfold_stats. inv_auto.
Qed.

Lemma inv_aggregate_fields_walk_blocks steps fuel query rev_file base
    max_offset :
  forall offset,
    inv keeps
      (walk_blocks call_cancel_func steps fuel query rev_file base max_offset
         offset).
Proof.
  pose proof inv_aggregate_fields_process_entries as Hentries.
  unfold keeps in *.
  induction steps as [|steps IH]; intros; simpl; unfold_stats; inv_auto.
Qed.

Lemma inv_aggregate_fields_read_packed_revisions steps fuel query :
  forall revision,
    inv keeps
      (read_packed_revisions svn_cstring_strtoui64 call_cancel_func steps
         fuel query revision).
Proof.
  pose proof inv_aggregate_fields_read_noderev as Hread.
  pose proof inv_aggregate_fields_walk_blocks as Hwalk. unfold keeps in *.
  induction steps as [|steps IH]; intros; simpl; unfold_stats; inv_auto.
Qed.

Lemma inv_aggregate_fields_traversal fuel fs pf pb cf cb :
  inv keeps
    (traversal svn_cstring_strtoui64 call_cancel_func fuel fs pf pb cf cb).
Proof.
  pose proof inv_aggregate_fields_read_noderev as Hread.
  pose proof inv_aggregate_fields_walk_blocks as Hwalk.
  pose proof inv_aggregate_fields_read_packed_revisions as Hpacked.
  unfold keeps in *. unfold traversal, create_query.
  unfold_stats. inv_auto.
Qed.

End TraversalKeepsAggregates.

(** C7, as amended.  If the traversal fails with any error, cancellation
    by the cancel callback included, [svn_fs_fs__get_stats] returns that
    error and [aggregate_stats] has not run: the members of the statistics
    object that the aggregation writes are as [create_stats] left them.  The
    object itself was handed out through [*stats] on entry and holds the
    histograms and largest changes gathered until the failure. *)
Theorem get_stats_returns_traversal_error
    svn_cstring_strtoui64 call_cancel_func fuel fs
    progress_func progress_baton cancel_func cancel_baton why s' :
  traversal svn_cstring_strtoui64 call_cancel_func fuel fs progress_func
    progress_baton cancel_func cancel_baton (initial_state create_stats)
  = (Stop why, s') ->
  svn_fs_fs__get_stats svn_cstring_strtoui64 call_cancel_func fuel fs
    progress_func progress_baton cancel_func cancel_baton
  = (Stop why, s')
  /\ aggregate_fields (st_stats s') = aggregate_fields create_stats.
Proof.
  intros Hrun. split.
  - unfold svn_fs_fs__get_stats. unfold traversal in Hrun.
    unfold bind in *.
    destruct (create_query fs progress_func progress_func cancel_func
                cancel_baton (initial_state create_stats))
      as [[query|why0] s1]; [|exact Hrun].
    destruct (read_revisions svn_cstring_strtoui64 call_cancel_func fuel
                query s1) as [[[]|why1] s2]; [discriminate|exact Hrun].
  - pose proof (inv_aggregate_fields_traversal svn_cstring_strtoui64
                  call_cancel_func (aggregate_fields create_stats) fuel fs
                  progress_func progress_baton cancel_func cancel_baton
                  (initial_state create_stats) eq_refl) as Hinv.
    rewrite Hrun in Hinv. exact Hinv.
Qed.

Lemma get_stats_returns_traversal_error_witness :
  fst sample_cancelled_run = Stop (Failed SVN_ERR_CANCELLED)
  /\ revision_count (st_stats (snd sample_cancelled_run)) = 0.
Proof.
  destruct (traversal no_strtoui64 cancel_at_second_call 5
              (sample_log_fs 0 10) 0 0 5 6 (initial_state create_stats))
    as [r s'] eqn:Hrun.
  assert (Hr : r = Stop (Failed SVN_ERR_CANCELLED))
    by (apply (f_equal fst) in Hrun; vm_compute in Hrun; congruence).
  subst r.
  destruct (get_stats_returns_traversal_error _ _ _ _ _ _ _ _ _ _ Hrun)
    as [Hstats Hfields].
  unfold sample_cancelled_run. rewrite Hstats. simpl. split; [reflexivity|].
  apply (f_equal (fun t => snd (fst (fst (fst (fst (fst (fst t))))))))
    in Hfields.
  exact Hfields.
Defined.

(** C7 as stated fails: the run is cancelled before revision 1 is read and
    returns the error, yet the statistics object it handed out holds what
    revision 0 contributed to the histograms and to the largest changes. *)
Lemma get_stats_cancelled_exposes_partial_stats :
  fst sample_cancelled_run = Stop (Failed SVN_ERR_CANCELLED)
  /\ h_total (histograms (st_stats (snd sample_cancelled_run))
                rep_size_histogram)
     = mk_line 1 10
  /\ h_total (histograms create_stats rep_size_histogram) = mk_line 0 0
  /\ lc_changes (largest_changes (st_stats (snd sample_cancelled_run))) !! 0%nat
     = Some (mk_large_change "/a.txt" 10 0).
Proof. repeat split; vm_compute; reflexivity. Qed.

(** ** The walk over the index *)




(** ** The array of revisions *)

Lemma inv_view_update_info v p f :
  (forall i, ri_revision (f i) = ri_revision i) ->
  inv (fun s => rev_view s = v) (update_info p f).
Proof.
  intros Hf s Hs. unfold update_info. cbv beta in *.
  destruct (st_infos s !! p) as [i|] eqn:Hp; [|exact Hs].
  simpl. rewrite <- Hs. unfold rev_view. simpl. f_equal.
  rewrite list_fmap_insert, Hf. apply list_insert_id.
  rewrite list_lookup_fmap, Hp. reflexivity.
Qed.

Lemma inv_view_alloc_rep v r : inv (fun s => rev_view s = v) (alloc_rep r).
Proof. inv_prim. Qed.
Lemma inv_view_update_rep v p f :
  inv (fun s => rev_view s = v) (update_rep p f).
Proof. inv_prim. Qed.
Lemma inv_view_write_stats v st :
  inv (fun s => rev_view s = v) (write_stats st).
Proof. inv_prim. Qed.
Lemma inv_view_emit v e : inv (fun s => rev_view s = v) (emit e).
Proof. inv_prim. Qed.

#[export] Hint Resolve inv_view_alloc_rep inv_view_update_rep
  inv_view_write_stats inv_view_emit : inv.

(** The updates of a [revision_info_t] that leave its revision number. *)
Ltac view_leaf :=
  first
    [ progress unfold record_change
    | apply inv_view_update_info; intros ?; reflexivity ].

Section RevisionsView.

Variable svn_cstring_strtoui64 : list Byte.byte -> Z -> Z -> Z -> result Z.
Variable call_cancel_func : ptr -> ptr -> list event -> option svn_error_t.
Variable v : list info_ptr * list Z.

Let keeps (s : state) : Prop := rev_view s = v.

Lemma inv_view_read_noderev fuel :
  forall query file_content offset revision_info,
    inv keeps (read_noderev fuel query file_content offset revision_info).
Proof.
  unfold keeps.
  induction fuel as [|fuel IH]; intros; simpl; [apply inv_stop_with|].
  unfold_stats. repeat (inv_step || view_leaf).
Qed.

Lemma inv_view_process_entries fuel query rev_file entries :
  forall i offset,
    inv keeps (process_entries fuel query rev_file entries i offset).
Proof.
  pose proof inv_view_read_noderev as Hread. unfold keeps in *.
  induction entries as [|entry entries IH]; intros; simpl; [apply inv_ret|].
  unfold_stats. repeat (inv_step || view_leaf).
Qed.

Lemma inv_view_walk_blocks steps fuel query rev_file base max_offset :
  forall offset,
    inv keeps
      (walk_blocks call_cancel_func steps fuel query rev_file base max_offset
         offset).
Proof.
  pose proof inv_view_process_entries as Hentries. unfold keeps in *.
  induction steps as [|steps IH]; intros; simpl;
    unfold_stats; repeat (inv_step || view_leaf).
Qed.

Lemma inv_view_aggregate_stats : inv keeps aggregate_stats.
Proof.
  unfold keeps, aggregate_stats. unfold_stats. repeat (inv_step || view_leaf).
Qed.

End RevisionsView.

Lemma triple_keeps_view {A} (P : list info_ptr * list Z -> Prop) (m : M A) :
  (forall v, inv (fun s => rev_view s = v) m) ->
  triple (fun s => P (rev_view s)) m (fun _ s => P (rev_view s))
    (fun s => P (rev_view s)).
Proof.
  intros Hm s Hs. specialize (Hm (rev_view s) s eq_refl).
  destruct (m s) as [[a|why] s']; simpl in Hm; rewrite Hm; exact Hs.
Qed.

Lemma view_indexed_alloc (revs : list info_ptr) (infos : list Z) (r : Z) :
  view_indexed (revs, infos) -> view_indexed (revs, infos ++ [r]).
Proof.
  intros H i p Hi. simpl in *. apply lookup_app_l_Some. apply (H i p Hi).
Qed.

Lemma view_indexed_fresh (revs : list info_ptr) (infos : list Z) :
  view_indexed (revs, infos) -> length infos ∉ revs.
Proof.
  intros H Hin. apply list_elem_of_lookup in Hin as [i Hi].
  apply H in Hi. simpl in Hi. apply lookup_lt_Some in Hi. lia.
Qed.

Lemma view_indexed_set (revs : list info_ptr) (infos : list Z)
    (p : info_ptr) (r : Z) :
  p ∉ revs -> view_indexed (revs, infos) ->
  view_indexed (revs, <[p := r]> infos).
Proof.
  intros Hp H i q Hi. simpl in *.
  rewrite list_lookup_insert_ne; [apply (H i q Hi)|].
  intros ->. apply Hp. apply list_elem_of_lookup. exists i. exact Hi.
Qed.

Lemma view_indexed_push (revs : list info_ptr) (infos : list Z)
    (p : info_ptr) :
  infos !! p = Some (Z.of_nat (length revs)) ->
  view_indexed (revs, infos) -> view_indexed (revs ++ [p], infos).
Proof.
  intros Hp H i q Hi. simpl in *.
  apply lookup_app_Some in Hi as [Hi|[Hlen Hi]].
  - apply (H i q Hi).
  - apply list_lookup_singleton_Some in Hi as [Hi ->].
    replace i with (length revs) by lia. exact Hp.
Qed.


Lemma triple_keep_bind {A B} (P : list info_ptr * list Z -> Prop)
    (m : M A) (k : A -> M B) (Q : B -> state -> Prop) (E : state -> Prop) :
  (forall v, inv (fun s => rev_view s = v) m) ->
  (forall s, P (rev_view s) -> E s) ->
  (forall a, triple (fun s => P (rev_view s)) (k a) Q E) ->
  triple (fun s => P (rev_view s)) (bind m k) Q E.
Proof.
  intros Hm HE Hk. eapply triple_bind; [|exact Hk].
  eapply triple_conseq; [apply (triple_keeps_view P); exact Hm|..]; auto.
Qed.

Lemma triple_keep {A} (P : list info_ptr * list Z -> Prop)
    (m : M A) (E : state -> Prop) :
  (forall v, inv (fun s => rev_view s = v) m) ->
  (forall s, P (rev_view s) -> E s) ->
  triple (fun s => P (rev_view s)) m (fun _ s => P (rev_view s)) E.
Proof.
  intros Hm HE.
  eapply triple_conseq; [apply (triple_keeps_view P); exact Hm|..]; auto.
Qed.

Lemma triple_alloc_info (n : nat) (i : revision_info_t) (E : state -> Prop) :
  triple (fun s => view_upto n (rev_view s)) (alloc_info i)
    (fun info s => view_pending n info (ri_revision i) (rev_view s)) E.
Proof.
  intros s [Hidx Hlen]. unfold alloc_info, rev_view in *. simpl in *.
  unfold view_pending. simpl. rewrite fmap_app. simpl.
  split_and!.
  - apply view_indexed_alloc. exact Hidx.
  - exact Hlen.
  - rewrite <- (length_fmap ri_revision).
    apply (view_indexed_fresh _ _ Hidx).
  - rewrite <- (length_fmap ri_revision). apply list_lookup_middle.
    reflexivity.
Qed.

Lemma triple_update_pending (n : nat) (info : info_ptr) (r r' : Z)
    (f : revision_info_t -> revision_info_t) (E : state -> Prop) :
  (forall i, ri_revision (f i) = r') ->
  (forall s, view_pending n info r (rev_view s) -> E s) ->
  triple (fun s => view_pending n info r (rev_view s)) (update_info info f)
    (fun _ s => view_pending n info r' (rev_view s)) E.
Proof.
  intros Hf HE s Hs. unfold update_info.
  destruct (st_infos s !! info) as [i|] eqn:Hi; [|apply HE; exact Hs].
  destruct Hs as (Hidx & Hlen & Hfresh & Hr).
  unfold view_pending, rev_view in *. simpl in *.
  rewrite list_fmap_insert, Hf.
  split_and!; try assumption.
  - apply view_indexed_set; assumption.
  - apply list_lookup_insert_eq. apply lookup_lt_Some in Hr. exact Hr.
Qed.

Lemma triple_push_pending (n : nat) (info : info_ptr) (E : state -> Prop) :
  triple (fun s => view_pending n info (Z.of_nat n) (rev_view s))
    (push_revision info)
    (fun _ s => view_upto (S n) (rev_view s)) E.
Proof.
  intros s (Hidx & Hlen & Hfresh & Hr).
  unfold push_revision, view_upto, rev_view in *. simpl in *. split.
  - apply view_indexed_push; [rewrite Hlen; exact Hr|exact Hidx].
  - rewrite length_app. simpl. lia.
Qed.

Lemma seqZ_of_nat (start len : Z) :
  seqZ start len = seqZ start (Z.of_nat (Z.to_nat len)).
Proof. unfold seqZ. rewrite Nat2Z.id. reflexivity. Qed.

Lemma triple_for_each_seqZ (P : nat -> state -> Prop) (E : state -> Prop)
    (body : Z -> M unit) (len : nat) :
  forall (start : Z) (n : nat),
    (forall k, (k < len)%nat ->
               triple (P (n + k)%nat) (body (start + Z.of_nat k))
                 (fun _ => P (S (n + k))) E) ->
    triple (P n) (for_each (seqZ start (Z.of_nat len)) body)
      (fun _ => P (n + len)%nat) E.
Proof.
  induction len as [|len IH]; intros start n Hbody.
  - simpl. apply triple_ret. intros s Hs.
    replace (n + 0)%nat with n by lia. exact Hs.
  - rewrite seqZ_cons by lia. simpl for_each.
    eapply triple_bind.
    + pose proof (Hbody 0%nat ltac:(lia)) as H0.
      rewrite Nat.add_0_r in H0. simpl in H0. rewrite Z.add_0_r in H0.
      exact H0.
    + intros ?. cbv beta.
      replace (Z.pred (Z.of_nat (S len))) with (Z.of_nat len) by lia.
      replace (n + S len)%nat with (S n + len)%nat by lia.
      apply IH. intros k Hk.
      pose proof (Hbody (S k) ltac:(lia)) as Hk'.
      rewrite Nat.add_succ_r in Hk'.
      replace (Z.succ start + Z.of_nat k) with (start + Z.of_nat (S k))
        by lia.
      exact Hk'.
Qed.

(** Steps of a computation that leave the view, up to the first step that
    does not. *)
Ltac keep_steps tac :=
  repeat
    (lazymatch goal with
     | |- triple _ (let '(_, _) := ?x in _) _ _ => destruct x
     | |- triple _ (match ?x with _ => _ end) _ _ => destruct x
     | |- triple _ (bind _ _) _ _ =>
         apply triple_keep_bind;
         [intros ?; solve [tac]
         |let H := fresh in
          intros ? H;
          first [exact (proj1 H) | exact H]
         |intros ?]
     end).

Section RevisionsIndexed.

Variable svn_cstring_strtoui64 : list Byte.byte -> Z -> Z -> Z -> result Z.
Variable call_cancel_func : ptr -> ptr -> list event -> option svn_error_t.

Ltac keeps_view :=
  pose proof inv_view_read_noderev;
  pose proof (inv_view_walk_blocks call_cancel_func);
  unfold_stats; repeat (inv_step || view_leaf).

Lemma view_pending_indexed n info r s :
  view_pending n info r (rev_view s) -> revisions_indexed s.
Proof. intros H. apply H. Qed.

Lemma view_upto_indexed n s :
  view_upto n (rev_view s) -> revisions_indexed s.
Proof. intros H. apply H. Qed.

Hint Resolve view_pending_indexed view_upto_indexed : core.

Lemma triple_read_phys_revision_file fuel query (n : nat) :
  triple (fun s => view_upto n (rev_view s))
    (read_phys_revision_file svn_cstring_strtoui64 call_cancel_func fuel
       query (Z.of_nat n))
    (fun _ s => view_upto (S n) (rev_view s))
    revisions_indexed.
Proof.
  unfold read_phys_revision_file.
  eapply triple_bind; [apply triple_alloc_info|]. intros info.
  keep_steps keeps_view.
  eapply triple_bind.
  { apply (triple_update_pending _ _ _ (Z.of_nat n)); [reflexivity|eauto]. }
  intros ?. cbv beta.
  keep_steps keeps_view.
  eapply triple_bind; [apply triple_push_pending|]. intros ?. cbv beta.
  apply triple_keep; [intros ?; keeps_view|eauto].
Qed.

Lemma triple_read_phys_pack_file fuel query (n : nat) :
  triple (fun s => view_upto n (rev_view s))
    (read_phys_pack_file svn_cstring_strtoui64 call_cancel_func fuel query
       (Z.of_nat n))
    (fun _ s => view_upto (n + Z.to_nat (q_shard_size query)) (rev_view s))
    revisions_indexed.
Proof.
  unfold read_phys_pack_file.
  keep_steps keeps_view.
  eapply triple_bind; [|intros ?; apply triple_keep; [intros ?; keeps_view|eauto]].
  rewrite seqZ_of_nat.
  apply (triple_for_each_seqZ (fun k s => view_upto k (rev_view s))).
  intros k Hk. rewrite Z.add_0_l.
  keep_steps keeps_view.
  eapply triple_bind; [apply triple_alloc_info|]. intros info. cbv beta.
  change (ri_revision
            (set_ri_revision (Z.of_nat n + Z.of_nat k)
               (set_ri_rev_file (Some a) zero_revision_info)))
    with (Z.of_nat n + Z.of_nat k).
  rewrite <- Nat2Z.inj_add.
  keep_steps keeps_view.
  apply triple_push_pending.
Qed.

Lemma triple_push_revisions (base : Z) (count : nat) (n : nat) :
  Z.of_nat n = base ->
  triple (fun s => view_upto n (rev_view s))
    (for_each (seqZ 0 (Z.of_nat count)) (fun i =>
       info <- alloc_info (set_ri_revision (base + i) zero_revision_info) ;;
       push_revision info))
    (fun _ s => view_upto (n + count) (rev_view s))
    revisions_indexed.
Proof.
  intros Hbase.
  apply (triple_for_each_seqZ (fun k s => view_upto k (rev_view s))).
  intros k Hk. rewrite Z.add_0_l.
  eapply triple_bind; [apply triple_alloc_info|]. intros info. cbv beta.
  change (ri_revision (set_ri_revision (base + Z.of_nat k)
                         zero_revision_info))
    with (base + Z.of_nat k).
  rewrite <- Hbase, <- Nat2Z.inj_add.
  apply triple_push_pending.
Qed.

Lemma triple_read_log_rev_or_packfile fuel query (n : nat) (count : Z) :
  triple (fun s => view_upto n (rev_view s))
    (read_log_rev_or_packfile call_cancel_func fuel query (Z.of_nat n) count)
    (fun _ s => view_upto (n + Z.to_nat count) (rev_view s))
    revisions_indexed.
Proof.
  unfold read_log_rev_or_packfile.
  eapply triple_bind.
  { rewrite seqZ_of_nat. apply triple_push_revisions. reflexivity. }
  intros ?. cbv beta.
  apply triple_keep; [intros ?; keeps_view|eauto].
Qed.

Lemma triple_read_log_pack_file fuel query (n : nat) :
  triple (fun s => view_upto n (rev_view s))
    (read_log_pack_file call_cancel_func fuel query (Z.of_nat n))
    (fun _ s => view_upto (n + Z.to_nat (q_shard_size query)) (rev_view s))
    revisions_indexed.
Proof.
  unfold read_log_pack_file.
  eapply triple_bind; [apply triple_read_log_rev_or_packfile|].
  intros ?. cbv beta. apply triple_keep; [intros ?; keeps_view|eauto].
Qed.

Lemma triple_read_log_revision_file fuel query (n : nat) :
  triple (fun s => view_upto n (rev_view s))
    (read_log_revision_file call_cancel_func fuel query (Z.of_nat n))
    (fun _ s => view_upto (S n) (rev_view s))
    revisions_indexed.
Proof.
  unfold read_log_revision_file.
  eapply triple_bind; [apply triple_read_log_rev_or_packfile|].
  intros ?. cbv beta. replace (n + Z.to_nat 1)%nat with (S n) by lia.
  apply triple_keep; [intros ?; keeps_view|eauto].
Qed.

(** With a shard size that is not positive, reading a pack file appends
    nothing. *)
Lemma inv_view_pack_file_nonpositive fuel query base v :
  q_shard_size query <= 0 ->
  inv (fun s => rev_view s = v)
    (if svn_fs_fs__use_log_addressing (q_fs query)
     then read_log_pack_file call_cancel_func fuel query base
     else read_phys_pack_file svn_cstring_strtoui64 call_cancel_func fuel
            query base).
Proof.
  intros Hshard.
  unfold read_log_pack_file, read_log_rev_or_packfile, read_phys_pack_file.
  rewrite seqZ_nil by lia. simpl for_each.
  destruct (svn_fs_fs__use_log_addressing (q_fs query)); keeps_view.
Qed.

Lemma triple_pack_file fuel query revision :
  triple (fun s => packed_upto query revision s
                   /\ revision < q_min_unpacked_rev query)
    (if svn_fs_fs__use_log_addressing (q_fs query)
     then read_log_pack_file call_cancel_func fuel query revision
     else read_phys_pack_file svn_cstring_strtoui64 call_cancel_func fuel
            query revision)
    (fun _ => packed_upto query (revision + q_shard_size query))
    revisions_indexed.
Proof.
  intros s [[Hs Hcase] Hlt].
  destruct (Z.le_gt_cases (q_shard_size query) 0) as [Hneg|Hpos].
  - pose proof (inv_view_pack_file_nonpositive fuel query revision
                  (rev_view s) Hneg s eq_refl) as Hkeep.
    cbv beta in Hkeep.
    set (pack := if svn_fs_fs__use_log_addressing (q_fs query)
                 then read_log_pack_file call_cancel_func fuel query revision
                 else read_phys_pack_file svn_cstring_strtoui64
                        call_cancel_func fuel query revision) in *.
    destruct (pack s) as [[a|why] s'];
      simpl in Hkeep; unfold packed_upto, revisions_indexed;
      rewrite Hkeep; [|exact Hs].
    split; [exact Hs|].
    apply (f_equal fst) in Hkeep. simpl in Hkeep. rewrite Hkeep.
    destruct Hcase as [Hlen|[Hshard _]]; [|right; lia].
    destruct (Z.eq_dec (q_shard_size query) 0) as [Hz|Hnz];
      [left; lia|right; lia].
  - destruct Hcase as [Hlen|[Hshard _]]; [|lia].
    subst revision.
    assert (Hpack :
              triple (fun s' => view_upto (length (st_revisions s))
                                  (rev_view s'))
                (if svn_fs_fs__use_log_addressing (q_fs query)
                 then read_log_pack_file call_cancel_func fuel query
                        (Z.of_nat (length (st_revisions s)))
                 else read_phys_pack_file svn_cstring_strtoui64
                        call_cancel_func fuel query
                        (Z.of_nat (length (st_revisions s))))
                (fun _ s' => view_upto
                               (length (st_revisions s)
                                + Z.to_nat (q_shard_size query))
                               (rev_view s'))
                revisions_indexed).
    { destruct (svn_fs_fs__use_log_addressing (q_fs query));
        [apply triple_read_log_pack_file|apply triple_read_phys_pack_file]. }
    specialize (Hpack s (conj Hs eq_refl)).
    set (pack := if svn_fs_fs__use_log_addressing (q_fs query)
                 then read_log_pack_file call_cancel_func fuel query
                        (Z.of_nat (length (st_revisions s)))
                 else read_phys_pack_file svn_cstring_strtoui64
                        call_cancel_func fuel query
                        (Z.of_nat (length (st_revisions s)))) in *.
    destruct (pack s) as [[a|why] s']; [|exact Hpack].
    destruct Hpack as [Hs' Hlen']. split; [exact Hs'|].
    left. simpl in Hlen'. rewrite Hlen'. lia.
Qed.

Lemma triple_read_packed_revisions steps fuel query :
  forall revision,
    triple (packed_upto query revision)
      (read_packed_revisions svn_cstring_strtoui64 call_cancel_func steps
         fuel query revision)
      (fun r s => view_upto (Z.to_nat r) (rev_view s)
                  /\ Z.of_nat (Z.to_nat r) = r)
      revisions_indexed.
Proof.
  assert (Hleave : forall revision,
             q_min_unpacked_rev query <= revision ->
             triple (packed_upto query revision) (ret revision)
               (fun r s => view_upto (Z.to_nat r) (rev_view s)
                           /\ Z.of_nat (Z.to_nat r) = r)
               revisions_indexed).
  { intros revision Hge. apply triple_ret.
    intros s [Hs [Hlen|[_ Hlt]]]; [|lia].
    rewrite <- Hlen, Nat2Z.id. split; [split; [exact Hs|reflexivity]|].
    reflexivity. }
  induction steps as [|steps IH]; intros revision; simpl;
    destruct (Z.ltb_spec revision (q_min_unpacked_rev query)) as [Hlt|Hge];
    try (apply Hleave; exact Hge).
  - intros s [Hs _]. exact Hs.
  - eapply triple_bind; [|intros ?; apply IH].
    eapply triple_conseq; [apply triple_pack_file|..]; cbv beta; auto.
Qed.


End RevisionsIndexed.



(** ** The registry of representations *)

Lemma compare_at_below (reps : list rep_stats_t) (p : rep_ptr) (key x : Z) :
  offset_at (rep_key <$> reps) p = Some x ->
  exists c, compare_at reps p key = Some c /\ (c < 0 <-> x < key).
Proof.
  unfold offset_at, compare_at. rewrite list_lookup_fmap. intros Hx.
  destruct (reps !! p) as [r|]; [|discriminate].
  simpl in *. inversion Hx; subst x. eexists. split; [reflexivity|].
  unfold compare_representation_offsets.
  destruct (Z.ltb_spec (rs_offset r) key); [lia|].
  destruct (rs_offset r >? key); lia.
Qed.

Lemma array_sorted_defined (keys : list (Z * Z)) (ptrs : list rep_ptr)
    (i : nat) (p : rep_ptr) :
  array_valid keys ptrs -> ptrs !! i = Some p ->
  exists x, offset_at keys p = Some x.
Proof.
  intros Hvalid Hp.
  destruct (lookup_lt_is_Some_2 keys p) as [k Hk].
  { apply Hvalid. apply list_elem_of_lookup. exists i. exact Hp. }
  exists k.1. unfold offset_at. rewrite Hk. reflexivity.
Qed.

Section BinarySearch.

Variable reps : list rep_stats_t.
Variable ptrs : list rep_ptr.
Variable key : Z.
Hypothesis Hvalid : array_valid (rep_key <$> reps) ptrs.
Hypothesis Hsorted : array_sorted (rep_key <$> reps) ptrs.

(** The element at index [i] lies below the key. *)
Let below (i : nat) : Prop :=
  exists p x, ptrs !! i = Some p
              /\ offset_at (rep_key <$> reps) p = Some x /\ x < key.

Lemma below_down (i j : nat) : (i <= j)%nat -> below j -> below i.
Proof.
  intros Hij (q & y & Hq & Hy & Hlt).
  destruct (decide (i = j)) as [->|Hne]; [exists q, y; auto|].
  destruct (lookup_lt_is_Some_2 ptrs i) as [p Hp].
  { apply lookup_lt_Some in Hq. lia. }
  destruct (Hsorted i j p q ltac:(lia) Hp Hq) as (x & y' & Hx & Hy' & Hxy).
  rewrite Hy in Hy'. inversion Hy'; subst y'.
  exists p, x. split_and!; [assumption..|lia].
Qed.

Lemma bsearch_loop_spec (fuel : nat) :
  forall lower upper,
    0 <= lower <= upper + 1 ->
    upper < Z.of_nat (length ptrs) ->
    upper - lower + 1 <= Z.of_nat fuel ->
    (forall i : nat, Z.of_nat i < lower -> below i) ->
    (forall i : nat, upper < Z.of_nat i -> (i < length ptrs)%nat ->
                     ~ below i) ->
    exists idx : nat,
      bsearch_loop fuel ptrs key (compare_at reps) lower upper
      = Some (Z.of_nat idx)
      /\ (idx <= length ptrs)%nat
      /\ (forall i, (i < idx)%nat -> below i)
      /\ (forall i, (idx <= i < length ptrs)%nat -> ~ below i).
Proof.
  assert (Hdone : forall lower upper,
             0 <= lower <= upper + 1 ->
             upper < Z.of_nat (length ptrs) ->
             upper < lower ->
             (forall i : nat, Z.of_nat i < lower -> below i) ->
             (forall i : nat, upper < Z.of_nat i -> (i < length ptrs)%nat ->
                              ~ below i) ->
             exists idx : nat,
               Some lower = Some (Z.of_nat idx)
               /\ (idx <= length ptrs)%nat
               /\ (forall i, (i < idx)%nat -> below i)
               /\ (forall i, (idx <= i < length ptrs)%nat -> ~ below i)).
  { intros lower upper Hrange Hup Hlt Hlow Hhigh.
    exists (Z.to_nat lower). split_and!.
    - f_equal. lia.
    - lia.
    - intros i Hi. apply Hlow. lia.
    - intros i Hi. apply Hhigh; lia. }
  induction fuel as [|fuel IH]; intros lower upper Hrange Hup Hfuel Hlow Hhigh;
    simpl; destruct (Z.leb_spec lower upper) as [Hle|Hgt];
    try (apply (Hdone lower upper); assumption || lia).
  - lia.
  - set (try := lower + (upper - lower) / 2).
    assert (Htry : lower <= try <= upper).
    { subst try. pose proof (Z.div_mod (upper - lower) 2 ltac:(lia)).
      pose proof (Z.mod_pos_bound (upper - lower) 2 ltac:(lia)). lia. }
    destruct (lookup_lt_is_Some_2 ptrs (Z.to_nat try)) as [elt Helt]; [lia|].
    rewrite Helt. simpl.
    destruct (array_sorted_defined _ ptrs _ _ Hvalid Helt) as [x Hx].
    destruct (compare_at_below reps elt key x Hx) as (c & Hc & Hbelow).
    rewrite Hc. simpl.
    destruct (Z.ltb_spec c 0) as [Hneg|Hpos].
    + apply IH; try lia; [|exact Hhigh].
      intros i Hi. apply (below_down i (Z.to_nat try)); [lia|].
      exists elt, x. split_and!; [assumption..|]. apply Hbelow. exact Hneg.
    + apply IH; try lia; [intros i Hi; apply Hlow; lia|].
      intros i Hi Hlen Hi'.
      destruct (Z.le_gt_cases (Z.of_nat i) upper) as [Hin|Hout];
        [|apply (Hhigh i); assumption || lia].
      assert (Hbt : below (Z.to_nat try))
        by (apply (below_down _ i); [lia|exact Hi']).
      destruct Hbt as (p' & x' & Hp' & Hx' & Hlt').
      rewrite Helt in Hp'. inversion Hp'; subst p'.
      rewrite Hx in Hx'. inversion Hx'; subst x'.
      apply Hbelow in Hlt'. lia.
Qed.

(** The binary search finds the index of the first element that is not
    below the key. *)
Lemma bsearch_lower_bound_spec :
  exists idx : nat,
    svn_sort__bsearch_lower_bound ptrs key (compare_at reps)
    = Some (Z.of_nat idx)
    /\ (idx <= length ptrs)%nat
    /\ (forall i p x, (i < idx)%nat -> ptrs !! i = Some p ->
                      offset_at (rep_key <$> reps) p = Some x -> x < key)
    /\ (forall i p x, (idx <= i)%nat -> ptrs !! i = Some p ->
                      offset_at (rep_key <$> reps) p = Some x -> key <= x).
Proof.
  unfold svn_sort__bsearch_lower_bound.
  destruct (bsearch_loop_spec (length ptrs) 0 (Z.of_nat (length ptrs) - 1))
    as (idx & Hrun & Hlen & Hlow & Hhigh); try (intros; lia).
  exists idx. split_and!; [exact Hrun|exact Hlen| |].
  - intros i p x Hi Hp Hx.
    destruct (Hlow i Hi) as (p' & x' & Hp' & Hx' & Hlt).
    rewrite Hp in Hp'. inversion Hp'; subst p'.
    rewrite Hx in Hx'. inversion Hx'; subst x'. exact Hlt.
  - intros i p x Hi Hp Hx.
    destruct (Z.le_gt_cases key x) as [|Hlt]; [assumption|].
    exfalso. apply (Hhigh i).
    + split; [exact Hi|]. apply lookup_lt_Some in Hp. exact Hp.
    + exists p, x. auto.
Qed.

End BinarySearch.

Lemma reg_view_info (s : state) (t : info_ptr) (rev : Z)
    (ptrs : list rep_ptr) :
  (reg_view s).1.2 !! t = Some (rev, ptrs) <->
  exists i, st_infos s !! t = Some i
            /\ ri_revision i = rev /\ ri_representations i = ptrs.
Proof.
  unfold reg_view. cbn [fst snd]. rewrite list_lookup_fmap. split.
  - destruct (st_infos s !! t) as [i|]; [|discriminate].
    simpl. intros H. inversion H. exists i. auto.
  - intros (i & -> & <- & <-). reflexivity.
Qed.

Lemma resolve_revision (s : state) (info : info_ptr) (rev : Z) (t : info_ptr) :
  registry_ok (reg_view s) ->
  resolve (reg_view s) info rev = Some t ->
  exists ptrs, (reg_view s).1.2 !! t = Some (rev, ptrs).
Proof.
  intros [_ Hidx] Hres. unfold resolve in Hres.
  destruct ((reg_view s).1.2 !! info) as [[r ptrs]|] eqn:Hinfo;
    [|discriminate].
  simpl in Hres.
  destruct (Z.eqb_spec r rev) as [->|Hne].
  - inversion Hres; subst t. exists ptrs. exact Hinfo.
  - destruct (Z.leb_spec 0 rev); [|discriminate].
    apply Hidx in Hres as [ptrs' Hres]. exists ptrs'.
    rewrite Hres. f_equal. f_equal. lia.
Qed.

(** [find_representation] looks into the array of the resolved revision and
    finds the representation at [offset] exactly when the array holds
    one; it leaves the store alone. *)
Lemma find_representation_run (query : query_t) (s : state)
    (info : info_ptr) (rev rev' offset : Z) (t : info_ptr)
    (ptrs : list rep_ptr) :
  arrays_ok (reg_view s).1.1 (reg_view s).1.2 ->
  resolve (reg_view s) info rev = Some t ->
  (reg_view s).1.2 !! t = Some (rev', ptrs) ->
  exists (idx : nat) (found : option rep_ptr),
    find_representation query (Some (Some info)) rev offset s
    = (Ok (found, Z.of_nat idx, Some (Some t)), s)
    /\ (idx <= length ptrs)%nat
    /\ (forall i p x, (i < idx)%nat -> ptrs !! i = Some p ->
                      offset_at (reg_view s).1.1 p = Some x -> x < offset)
    /\ (forall i p x, (idx <= i)%nat -> ptrs !! i = Some p ->
                      offset_at (reg_view s).1.1 p = Some x -> offset <= x)
    /\ match found with
       | Some p => ptrs !! idx = Some p
                   /\ offset_at (reg_view s).1.1 p = Some offset
       | None => forall p, p ∈ ptrs ->
                           offset_at (reg_view s).1.1 p <> Some offset
       end.
Proof.
  intros Hok Hres Ht.
  pose proof Hok as [Harrays _].
  destruct (Harrays t rev' ptrs Ht) as [Hvalid Hsorted]. simpl in *.
  destruct (bsearch_lower_bound_spec (st_reps s) ptrs offset Hvalid Hsorted)
    as (idx & Hsearch & Hlen & Hlow & Hhigh).
  apply reg_view_info in Ht as (it & Hit & Hrev & Hptrs).
  assert (Hlook :
            forall s0 : state, s0 = s ->
              (i <- read_info t ;;
               s1 <- get_state ;;
               idx <- defined
                        (svn_sort__bsearch_lower_bound (ri_representations i)
                           offset
                           (fun elt key =>
                              r ← st_reps s1 !! elt;
                              Some (compare_representation_offsets r key))) ;;
               if idx <? Z.of_nat (length (ri_representations i)) then
                 result <- defined (ri_representations i !! Z.to_nat idx) ;;
                 r <- read_rep result ;;
                 if rs_offset r =? offset
                 then ret (Some result, idx, Some (Some t))
                 else ret (None, idx, Some (Some t))
               else ret (None, idx, Some (Some t))) s0
              = (Ok (match ptrs !! idx with
                     | Some p =>
                         if bool_decide
                              (offset_at (reg_view s).1.1 p = Some offset)
                         then Some p else None
                     | None => None
                     end, Z.of_nat idx, Some (Some t)), s)).
  { intros s0 ->.
    unfold bind, read_info, get_state, defined. rewrite Hit, Hptrs.
    change (fun elt key => r ← st_reps s !! elt;
                           Some (compare_representation_offsets r key))
      with (compare_at (st_reps s)).
    rewrite Hsearch. unfold ret. cbv beta iota.
    destruct (Z.ltb_spec (Z.of_nat idx) (Z.of_nat (length ptrs))) as [Hin|Hout].
    - rewrite Nat2Z.id.
      destruct (lookup_lt_is_Some_2 ptrs idx) as [p Hp]; [lia|].
      rewrite Hp. cbv beta iota.
      destruct (lookup_lt_is_Some_2 (st_reps s) p) as [r Hr].
      { rewrite <- (length_fmap rep_key). apply Hvalid.
        apply list_elem_of_lookup. exists idx. exact Hp. }
      unfold read_rep. rewrite Hr. unfold offset_at. simpl.
      rewrite list_lookup_fmap, Hr. simpl.
      destruct (Z.eqb_spec (rs_offset r) offset) as [Heq|Hne].
      + rewrite bool_decide_eq_true_2 by congruence. reflexivity.
      + rewrite bool_decide_eq_false_2 by congruence. reflexivity.
    - rewrite lookup_ge_None_2 by lia. reflexivity. }
  exists idx.
  eexists. split.
  - unfold resolve in Hres.
    destruct ((reg_view s).1.2 !! info) as [[r ptrs0]|] eqn:Hinfo;
      [|discriminate].
    apply reg_view_info in Hinfo as (i0 & Hi0 & Hr0 & _).
    simpl in Hres.
    unfold find_representation.
    unfold bind at 1. unfold bind at 1. unfold read_info at 1.
    rewrite Hi0. unfold ret at 1. rewrite Hr0.
    destruct (Z.eqb_spec r rev) as [Heq|Hne]; simpl negb; cbv iota.
    + inversion Hres; subst t.
      unfold bind at 1. unfold ret at 1.
      apply Hlook. reflexivity.
    + destruct (Z.leb_spec 0 rev); [|discriminate].
      unfold bind at 1. unfold bind at 1. unfold revision_at.
      destruct (Z.leb_spec 0 rev); [|lia].
      simpl in Hres. rewrite Hres. unfold ret at 1.
      apply Hlook. reflexivity.
  - split_and!; try assumption.
    destruct (ptrs !! idx) as [p|] eqn:Hp.
    + destruct (bool_decide_reflect
                  (offset_at (reg_view s).1.1 p = Some offset))
        as [Heq|Hne]; [auto|].
      intros q Hq Hoff.
      apply list_elem_of_lookup in Hq as [j Hj].
      destruct (Nat.lt_trichotomy j idx) as [Hlt|[->|Hgt]].
      * pose proof (Hlow j q offset Hlt Hj Hoff). lia.
      * rewrite Hp in Hj. inversion Hj; subst q. contradiction.
      * destruct (Hsorted idx j p q Hgt Hp Hj) as (x & y & Hx & Hy & Hxy).
        pose proof (Hhigh idx p x ltac:(lia) Hp Hx).
        rewrite Hoff in Hy. inversion Hy; subst y. lia.
    + intros q Hq Hoff.
      apply list_elem_of_lookup in Hq as [j Hj].
      assert (j < idx)%nat.
      { apply lookup_lt_Some in Hj. apply lookup_ge_None in Hp. lia. }
      pose proof (Hlow j q offset H Hj Hoff). lia.
Qed.

(** ** Interning of representations *)

Lemma lookup_inserted {A} (l : list A) (x : A) (idx k : nat) :
  (idx <= length l)%nat ->
  (take idx l ++ x :: drop idx l) !! k
  = if decide (k < idx)%nat then l !! k
    else if decide (k = idx) then Some x else l !! (k - 1)%nat.
Proof.
  intros Hidx.
  assert (Hlen : length (take idx l) = idx) by (rewrite length_take; lia).
  destruct (decide (k < idx)%nat) as [Hlt|Hge].
  - rewrite lookup_app_l by lia. apply lookup_take_lt. exact Hlt.
  - rewrite lookup_app_r by lia. rewrite Hlen.
    destruct (decide (k = idx)) as [->|Hne].
    + rewrite Nat.sub_diag. reflexivity.
    + replace (k - idx)%nat with (S (k - 1 - idx)) by lia. simpl.
      rewrite lookup_drop. f_equal. lia.
Qed.

Lemma elem_of_inserted {A} (l : list A) (x q : A) (idx : nat) :
  q ∈ take idx l ++ x :: drop idx l <-> q = x \/ q ∈ l.
Proof.
  rewrite <- (take_drop idx l) at 3.
  rewrite !elem_of_app, elem_of_cons. tauto.
Qed.

Lemma offset_at_app (keys : list (Z * Z)) (k : Z * Z) (p : rep_ptr) :
  (p < length keys)%nat -> offset_at (keys ++ [k]) p = offset_at keys p.
Proof. intros Hp. unfold offset_at. rewrite lookup_app_l by exact Hp. reflexivity. Qed.

(** A new representation inserted where the binary search says keeps the
    registry in order. *)
Lemma arrays_ok_insert (keys : list (Z * Z))
    (infos : list (Z * list rep_ptr))
    (t : info_ptr) (rev : Z) (ptrs : list rep_ptr) (idx : nat) (k : Z * Z) :
  arrays_ok keys infos ->
  infos !! t = Some (rev, ptrs) ->
  (idx <= length ptrs)%nat ->
  (forall i p x, (i < idx)%nat -> ptrs !! i = Some p ->
                 offset_at keys p = Some x -> x < k.1) ->
  (forall i p x, (idx <= i)%nat -> ptrs !! i = Some p ->
                 offset_at keys p = Some x -> k.1 < x) ->
  arrays_ok (keys ++ [k])
    (<[t := (rev, take idx ptrs ++ length keys :: drop idx ptrs)]> infos).
Proof.
  intros [Harrays Hdisjoint] Ht Hlen Hlow Hhigh.
  assert (Hnew : offset_at (keys ++ [k]) (length keys) = Some k.1).
  { unfold offset_at. rewrite lookup_app_r by lia.
    rewrite Nat.sub_diag. reflexivity. }
  assert (Hold : forall ptrs' p,
             array_valid keys ptrs' -> p ∈ ptrs' ->
             offset_at (keys ++ [k]) p = offset_at keys p).
  { intros ptrs' p Hvalid Hp. apply offset_at_app. apply Hvalid. exact Hp. }
  assert (Hkeep : forall ptrs',
             array_valid keys ptrs' -> array_sorted keys ptrs' ->
             array_valid (keys ++ [k]) ptrs'
             /\ array_sorted (keys ++ [k]) ptrs').
  { intros ptrs' Hvalid Hsorted. split.
    - intros p Hp. rewrite length_app. pose proof (Hvalid p Hp). lia.
    - intros i j p q Hij Hp Hq.
      destruct (Hsorted i j p q Hij Hp Hq) as (x & y & Hx & Hy & Hxy).
      exists x, y. split_and!; [| |exact Hxy].
      + rewrite (Hold ptrs'); [exact Hx|exact Hvalid|].
        apply list_elem_of_lookup. eauto.
      + rewrite (Hold ptrs'); [exact Hy|exact Hvalid|].
        apply list_elem_of_lookup. eauto. }
  destruct (Harrays t rev ptrs Ht) as [Hvalid Hsorted].
  assert (Hlookup : forall t' rev' ptrs',
             <[t := (rev, take idx ptrs ++ length keys :: drop idx ptrs)]>
               infos !! t' = Some (rev', ptrs') ->
             (t' = t /\ rev' = rev
              /\ ptrs' = take idx ptrs ++ length keys :: drop idx ptrs)
             \/ (t' <> t /\ infos !! t' = Some (rev', ptrs'))).
  { intros t' rev' ptrs' Ht'. destruct (decide (t' = t)) as [->|Hne].
    - rewrite list_lookup_insert_eq in Ht' by (eapply lookup_lt_Some; eauto).
      injection Ht' as <- <-. left. auto.
    - rewrite list_lookup_insert_ne in Ht' by congruence. right. auto. }
  split.
  - intros t' rev' ptrs' Ht'.
    destruct (Hlookup _ _ _ Ht') as [(-> & -> & ->)|[Hne Hold']].
    + split.
      * intros p Hp. rewrite length_app. simpl.
        apply elem_of_inserted in Hp as [->|Hp]; [lia|].
        pose proof (Hvalid p Hp). lia.
      * intros i j p q Hij Hp Hq.
        rewrite lookup_inserted in Hp, Hq by exact Hlen.
        assert (Hoff : forall n e,
                   ptrs !! n = Some e ->
                   exists x, offset_at keys e = Some x
                             /\ offset_at (keys ++ [k]) e = Some x).
        { intros n e He.
          destruct (array_sorted_defined keys ptrs n e Hvalid He) as [x Hx].
          exists x. split; [exact Hx|].
          rewrite (Hold ptrs); [exact Hx|exact Hvalid|].
          apply list_elem_of_lookup. eauto. }
        destruct (decide (i < idx)%nat) as [Hi|Hi];
          [|destruct (decide (i = idx)) as [Hi'|Hi']];
          (destruct (decide (j < idx)%nat) as [Hj|Hj];
           [|destruct (decide (j = idx)) as [Hj'|Hj']]);
          try lia.
        -- destruct (Hsorted i j p q Hij Hp Hq) as (x & y & Hx & Hy & Hxy).
           destruct (Hoff _ _ Hp) as (x' & Hx1 & Hx2).
           destruct (Hoff _ _ Hq) as (y' & Hy1 & Hy2).
           exists x', y'. split_and!; [assumption..|]. congruence.
        -- inversion Hq; subst q.
           destruct (Hoff _ _ Hp) as (x & Hx1 & Hx2).
           exists x, k.1. split_and!; [assumption..|]. eapply Hlow; eauto.
        -- destruct (Hsorted i (j - 1)%nat p q ltac:(lia) Hp Hq)
             as (x & y & Hx & Hy & Hxy).
           destruct (Hoff _ _ Hp) as (x' & Hx1 & Hx2).
           destruct (Hoff _ _ Hq) as (y' & Hy1 & Hy2).
           exists x', y'. split_and!; [assumption..|]. congruence.
        -- inversion Hp; subst p.
           destruct (Hoff _ _ Hq) as (y & Hy1 & Hy2).
           exists k.1, y. split_and!; [assumption..|].
           eapply (Hhigh (j - 1)%nat); eauto. lia.
        -- destruct (Hsorted (i - 1)%nat (j - 1)%nat p q ltac:(lia) Hp Hq)
             as (x & y & Hx & Hy & Hxy).
           destruct (Hoff _ _ Hp) as (x' & Hx1 & Hx2).
           destruct (Hoff _ _ Hq) as (y' & Hy1 & Hy2).
           exists x', y'. split_and!; [assumption..|]. congruence.
    + destruct (Harrays t' rev' ptrs' Hold') as [Hvalid' Hsorted'].
      apply Hkeep; assumption.
  - intros t1 t2 rev1 rev2 ptrs1 ptrs2 p Ht1 Ht2 Hp1 Hp2.
    destruct (Hlookup _ _ _ Ht1) as [(-> & -> & ->)|[Hne1 Hold1]];
      destruct (Hlookup _ _ _ Ht2) as [(-> & -> & ->)|[Hne2 Hold2]].
    + reflexivity.
    + destruct (Harrays t2 rev2 ptrs2 Hold2) as [Hvalid2 _].
      apply elem_of_inserted in Hp1 as [->|Hp1].
      * pose proof (Hvalid2 _ Hp2). lia.
      * symmetry. eapply Hdisjoint; eauto.
    + destruct (Harrays t1 rev1 ptrs1 Hold1) as [Hvalid1 _].
      apply elem_of_inserted in Hp2 as [->|Hp2].
      * pose proof (Hvalid1 _ Hp1). lia.
      * eapply Hdisjoint; eauto.
    + eapply Hdisjoint; eauto.
Qed.

Lemma registry_ok_insert (keys : list (Z * Z))
    (infos : list (Z * list rep_ptr)) (revs : list info_ptr)
    (t : info_ptr) (rev : Z) (ptrs : list rep_ptr) (idx : nat) (k : Z * Z) :
  registry_ok (keys, infos, revs) ->
  infos !! t = Some (rev, ptrs) ->
  (idx <= length ptrs)%nat ->
  (forall i p x, (i < idx)%nat -> ptrs !! i = Some p ->
                 offset_at keys p = Some x -> x < k.1) ->
  (forall i p x, (idx <= i)%nat -> ptrs !! i = Some p ->
                 offset_at keys p = Some x -> k.1 < x) ->
  registry_ok
    (keys ++ [k],
     <[t := (rev, take idx ptrs ++ length keys :: drop idx ptrs)]> infos,
     revs).
Proof.
  intros [Harrays Hidx] Ht Hlen Hlow Hhigh. split; cbn [fst snd] in *.
  - apply arrays_ok_insert; assumption.
  - intros i t' Hi.
    destruct (Hidx i t' Hi) as [ptrs' Hptrs'].
    destruct (decide (t' = t)) as [->|Hne].
    + rewrite list_lookup_insert_eq by (eapply lookup_lt_Some; eauto).
      rewrite Ht in Hptrs'. inversion Hptrs'; subst. eauto.
    + rewrite list_lookup_insert_ne by congruence. eauto.
Qed.

(** More representations in the store leave the arrays in order. *)
Lemma arrays_ok_app (keys more : list (Z * Z))
    (infos : list (Z * list rep_ptr)) :
  arrays_ok keys infos -> arrays_ok (keys ++ more) infos.
Proof.
  intros [Harrays Hdisjoint]. split; [|exact Hdisjoint].
  intros t rev ptrs Ht. destruct (Harrays t rev ptrs Ht) as [Hvalid Hsorted].
  split.
  - intros p Hp. rewrite length_app. pose proof (Hvalid p Hp). lia.
  - intros i j p q Hij Hp Hq.
    destruct (Hsorted i j p q Hij Hp Hq) as (x & y & Hx & Hy & Hxy).
    exists x, y. unfold offset_at in *.
    rewrite !lookup_app_l; [auto| |].
    + apply Hvalid. apply list_elem_of_lookup. eauto.
    + apply Hvalid. apply list_elem_of_lookup. eauto.
Qed.

(** Without a [revision_info_t] to look into, [find_representation]
    reads outside of [query->revisions]. *)
Lemma find_representation_stops (query : query_t) (s : state)
    (info : info_ptr) (rev offset : Z) :
  resolve (reg_view s) info rev = None ->
  exists why,
    find_representation query (Some (Some info)) rev offset s
    = (Stop why, s).
Proof.
  unfold resolve, find_representation. cbn [fst snd reg_view].
  rewrite list_lookup_fmap. intros Hres.
  unfold bind at 1. unfold bind at 1. unfold read_info at 1.
  destruct (st_infos s !! info) as [i|]; [|eexists; reflexivity].
  simpl in Hres. unfold ret at 1.
  destruct (Z.eqb_spec (ri_revision i) rev) as [Heq|Hne]; [discriminate|].
  simpl negb. cbv iota.
  unfold bind at 1. unfold bind at 1. unfold revision_at.
  destruct (0 <=? rev); [|eexists; reflexivity].
  rewrite Hres. eexists; reflexivity.
Qed.

Lemma reg_view_update_rep (s : state) (p : rep_ptr) (r r' : rep_stats_t) :
  st_reps s !! p = Some r -> rep_key r' = rep_key r ->
  reg_view (mk_state (<[p := r']> (st_reps s)) (st_infos s)
              (st_revisions s) (st_stats s) (st_trace s))
  = reg_view s.
Proof.
  intros Hp Hkey. unfold reg_view. cbn [st_reps st_infos st_revisions].
  rewrite list_fmap_insert, Hkey.
  rewrite list_insert_id; [reflexivity|].
  rewrite list_lookup_fmap, Hp. reflexivity.
Qed.

Lemma reg_view_update_info (s : state) (t : info_ptr)
    (i i' : revision_info_t) :
  st_infos s !! t = Some i ->
  ri_revision i' = ri_revision i ->
  ri_representations i' = ri_representations i ->
  reg_view (mk_state (st_reps s) (<[t := i']> (st_infos s))
              (st_revisions s) (st_stats s) (st_trace s))
  = reg_view s.
Proof.
  intros Ht Hrev Hreps. unfold reg_view. cbn [st_reps st_infos st_revisions].
  rewrite list_fmap_insert, Hrev, Hreps.
  rewrite list_insert_id; [reflexivity|].
  rewrite list_lookup_fmap, Ht. reflexivity.
Qed.

(** What [parse_representation] yields: the representation the array of
    the resolved revision holds at the offset, the store left alone; or, if
    the array holds none, a new representation, not referenced and not
    classified, inserted into the array. *)
Lemma parse_representation_run (query : query_t) (rep : representation_t)
    (info : info_ptr) (s s' : state) (p : rep_ptr) :
  registry_ok (reg_view s) ->
  parse_representation query rep info s = (Ok p, s') ->
  exists (t : info_ptr) (ptrs : list rep_ptr) (r : rep_stats_t),
    resolve (reg_view s) info (rep_revision rep) = Some t
    /\ (reg_view s).1.2 !! t = Some (rep_revision rep, ptrs)
    /\ interned rep s s' t ptrs p r.
Proof.
  intros Hok Hrun.
  destruct (resolve (reg_view s) info (rep_revision rep)) as [t|] eqn:Hres.
  2:{ destruct (find_representation_stops query s info (rep_revision rep)
                  (to_off (rep_item_index rep)) Hres) as [why Hstop].
      unfold parse_representation, bind in Hrun. rewrite Hstop in Hrun.
      discriminate. }
  destruct (resolve_revision s info _ t Hok Hres) as [ptrs Ht].
  destruct (find_representation_run query s info (rep_revision rep)
              (rep_revision rep) (to_off (rep_item_index rep)) t ptrs
              (proj1 Hok) Hres Ht)
    as (idx & found & Hfind & Hlen & Hlow & Hhigh & Hfound).
  exists t, ptrs.
  unfold parse_representation in Hrun. unfold bind at 1 in Hrun.
  rewrite Hfind in Hrun.
  destruct found as [q|].
  - (* the array holds it *)
    unfold ret in Hrun. injection Hrun as Hp Hs. subst q s'.
    destruct Hfound as [Hq Hoff].
    assert (Hin : p ∈ ptrs) by (apply list_elem_of_lookup; eauto).
    unfold offset_at, reg_view in Hoff. cbn [fst snd] in Hoff.
    rewrite list_lookup_fmap in Hoff.
    destruct (st_reps s !! p) as [r|] eqn:Hr; [|discriminate].
    exists r. unfold interned. split_and!; auto.
    simpl in Hoff. congruence.
  - (* a new representation *)
    apply reg_view_info in Ht as Hinfo.
    destruct Hinfo as (it & Hit & Hrev & Hptrs).
    set (fresh := mk_rep_stats (to_off (rep_item_index rep))
                    (to_size (rep_size rep))
                    (to_size (if rep_expanded_size rep =? 0
                              then rep_size rep
                              else rep_expanded_size rep))
                    (rep_revision rep) 0 0 unused_rep) in *.
    assert (Hinsert :
              forall hs : Z,
                let r := set_rs_header_size hs fresh in
                let s1 := mk_state (st_reps s ++ [r]) (st_infos s)
                            (st_revisions s) (st_stats s) (st_trace s) in
                (info <- read_info t ;;
                 representations <- defined
                                      (svn_sort__array_insert
                                         (ri_representations info)
                                         (length (st_reps s))
                                         (Z.of_nat idx)) ;;
                 update_info t (set_ri_representations representations) ;;
                 ret (length (st_reps s))) s1 = (Ok p, s') ->
                interned rep s s' t ptrs p r).
    { intros hs r s1 Hins.
      subst s1. unfold bind at 1 in Hins. unfold read_info at 1 in Hins.
      cbn [st_infos] in Hins. rewrite Hit in Hins.
      unfold bind at 1 in Hins. unfold svn_sort__array_insert in Hins.
      rewrite Hptrs in Hins.
      replace ((0 <=? Z.of_nat idx)
               && (Z.of_nat idx <=? Z.of_nat (length ptrs))) with true in Hins
        by (symmetry; apply andb_true_iff; split; apply Z.leb_le; lia).
      rewrite Nat2Z.id in Hins. unfold defined at 1 in Hins.
      unfold ret at 1 in Hins. cbv beta iota in Hins.
      unfold bind at 1 in Hins. unfold update_info at 1 in Hins.
      cbn [st_infos st_reps st_revisions st_stats st_trace] in Hins.
      rewrite Hit in Hins. unfold ret in Hins.
      injection Hins as Hp Hs. subst p s'.
      assert (Hview :
                reg_view
                  (mk_state (st_reps s ++ [r])
                     (<[t := set_ri_representations
                               (take idx ptrs ++ length (st_reps s)
                                  :: drop idx ptrs) it]> (st_infos s))
                     (st_revisions s) (st_stats s) (st_trace s))
                = ((reg_view s).1.1
                     ++ [rep_key r],
                   <[t := (rep_revision rep,
                           take idx ptrs ++ length (reg_view s).1.1
                             :: drop idx ptrs)]> (reg_view s).1.2,
                   (reg_view s).2)).
      { unfold reg_view. cbn [fst snd st_reps st_infos st_revisions].
        rewrite fmap_app, list_fmap_insert, length_fmap. simpl.
        rewrite Hrev. reflexivity. }
      unfold interned. split_and!.
      - rewrite Hview.
        change (rep_key r).1 with (to_off (rep_item_index rep)).
        apply registry_ok_insert; try assumption.
        change (rep_key r).1 with (to_off (rep_item_index rep)).
        intros i q x Hi Hq Hx.
        pose proof (Hhigh i q x Hi Hq Hx) as Hle.
        assert (x <> to_off (rep_item_index rep)); [|lia].
        intros ->. eapply Hfound; [|exact Hx].
        apply list_elem_of_lookup. eauto.
      - cbn [st_reps]. rewrite lookup_app_r by lia.
        rewrite Nat.sub_diag. reflexivity.
      - reflexivity.
      - right. split_and!; try reflexivity; try assumption.
        + exists hs. reflexivity.
        + exists idx. rewrite Hview. cbn [fst snd].
          unfold reg_view at 1. cbn [fst snd]. rewrite length_fmap.
          reflexivity. }
    unfold bind at 1 in Hrun. unfold alloc_rep at 1 in Hrun.
    unfold defined at 1 in Hrun. cbn [mjoin option_join] in Hrun.
    unfold bind at 1 in Hrun. unfold ret at 1 in Hrun.
    unfold bind at 1 in Hrun.
    destruct (svn_fs_fs__use_log_addressing (q_fs query)) eqn:Hlog;
      cbn [negb when_] in Hrun.
    + (* logical addressing *)
      unfold ret at 1 in Hrun.
      eexists. split_and!; [reflexivity|exact Ht|].
      apply (Hinsert 0). exact Hrun.
    + (* physical addressing: the header is read *)
      unfold bind at 1 in Hrun. unfold read_info at 1 in Hrun.
      cbn [st_infos] in Hrun. rewrite Hit in Hrun.
      unfold bind at 1 in Hrun. unfold read_rep at 1 in Hrun.
      cbn [st_reps] in Hrun.
      rewrite lookup_app_r in Hrun by lia.
      rewrite Nat.sub_diag in Hrun. cbn [lookup list_lookup] in Hrun.
      unfold bind at 1 in Hrun.
      destruct (ri_rev_file it) as [rev_file|];
        [|unfold raise in Hrun; discriminate].
      unfold ret at 1 in Hrun.
      unfold bind at 1 in Hrun. unfold lift_result at 1 in Hrun.
      destruct (svn_fs_fs__read_rep_header (q_fs query) rev_file _)
        as [header_size|why]; [|discriminate].
      unfold update_rep at 1 in Hrun. cbn [st_reps] in Hrun.
      rewrite lookup_app_r in Hrun by lia.
      rewrite Nat.sub_diag in Hrun. cbn [lookup list_lookup] in Hrun.
      cbn [st_infos st_revisions st_stats st_trace] in Hrun.
      replace (<[length (st_reps s) :=
                   set_rs_header_size (to_uint16 header_size) fresh]>
                 (st_reps s ++ [fresh]))
        with (st_reps s ++ [set_rs_header_size (to_uint16 header_size) fresh])
        in Hrun.
      2:{ rewrite <- (Nat.add_0_r (length (st_reps s))) at 1.
          rewrite insert_app_r. reflexivity. }
      eexists. split_and!; [reflexivity|exact Ht|].
      apply (Hinsert (to_uint16 header_size)). exact Hrun.
Qed.

(** An array holds at most one representation at an offset. *)
Lemma registry_ok_unique
    (v : list (Z * Z) * list (Z * list rep_ptr) * list info_ptr)
    (t : info_ptr) (rev : Z) (ptrs : list rep_ptr) (i j : nat)
    (p q : rep_ptr) (x : Z) :
  registry_ok v -> v.1.2 !! t = Some (rev, ptrs) ->
  ptrs !! i = Some p -> ptrs !! j = Some q ->
  offset_at v.1.1 p = Some x -> offset_at v.1.1 q = Some x ->
  i = j /\ p = q.
Proof.
  intros [[Harrays _] _] Ht Hp Hq Hx Hy.
  destruct (Harrays t rev ptrs Ht) as [_ Hsorted].
  destruct (Nat.lt_trichotomy i j) as [Hlt|[->|Hgt]].
  - destruct (Hsorted i j p q Hlt Hp Hq) as (a & b & Ha & Hb & Hab).
    rewrite Hx in Ha. rewrite Hy in Hb. inversion Ha. inversion Hb. lia.
  - split; [reflexivity|congruence].
  - destruct (Hsorted j i q p Hgt Hq Hp) as (a & b & Ha & Hb & Hab).
    rewrite Hy in Ha. rewrite Hx in Hb. inversion Ha. inversion Hb. lia.
Qed.

Lemma update_rep_run (p : rep_ptr) (f : rep_stats_t -> rep_stats_t)
    (s s' : state) (x : unit) :
  update_rep p f s = (Ok x, s') ->
  exists r, st_reps s !! p = Some r
            /\ s' = mk_state (<[p := f r]> (st_reps s)) (st_infos s)
                      (st_revisions s) (st_stats s) (st_trace s).
Proof.
  unfold update_rep. destruct (st_reps s !! p) as [r|]; [|discriminate].
  intros H. injection H as _ <-. exists r. split; reflexivity.
Qed.

Lemma rep_key_add_reference (kind : rep_kind_t) (r : rep_stats_t) :
  rep_key (add_reference kind r) = rep_key r.
Proof.
  unfold rep_key.
  destruct (add_reference_fields kind r) as (-> & _ & _ & -> & _).
  reflexivity.
Qed.

Lemma offset_at_key (s : state) (p : rep_ptr) (r : rep_stats_t) :
  st_reps s !! p = Some r ->
  (reg_view s).1.1 !! p = Some (rep_key r)
  /\ offset_at (reg_view s).1.1 p = Some (rs_offset r).
Proof.
  intros Hp. unfold offset_at, reg_view. cbn [fst snd].
  rewrite list_lookup_fmap, Hp. split; reflexivity.
Qed.

Lemma resolve_same (s : state) (t : info_ptr) (rev : Z) (ptrs : list rep_ptr) :
  (reg_view s).1.2 !! t = Some (rev, ptrs) ->
  resolve (reg_view s) t rev = Some t.
Proof.
  intros Ht. unfold resolve. rewrite Ht. simpl.
  rewrite Z.eqb_refl. reflexivity.
Qed.

(** ** References *)

(** A reference to the representation at the offset [off] of the revision
    at hand: the array then holds one representation at that offset, the
    one it held before or a new one, with the reference counted. *)
Lemma reference_same (query : query_t) (rep : representation_t)
    (kind : rep_kind_t) (t : info_ptr) (rev off : Z)
    (o : option (rep_ptr * rep_stats_t)) (s s' : state)
    (x : option rep_ptr) :
  registry_ok (reg_view s) ->
  slot s t rev off o ->
  rep_revision rep = rev -> to_off (rep_item_index rep) = off ->
  reference query (Some rep) kind t s = (Ok x, s') ->
  registry_ok (reg_view s')
  /\ exists p r0,
       x = Some p
       /\ slot s' t rev off (Some (p, add_reference kind r0))
       /\ match o with
          | Some (p0, r) =>
              p = p0 /\ r0 = r
              /\ parse_representation query rep t s = (Ok p0, s)
          | None =>
              rs_ref_count r0 = 0 /\ rs_kind r0 = unused_rep
              /\ exists hs, r0 = set_rs_header_size hs (fresh_rep rep)
          end.
Proof.
  intros Hok (ptrs & Ht & Ho) Hrev Hoff Hrun. subst rev off.
  unfold reference in Hrun. unfold bind at 1 in Hrun.
  destruct (parse_representation query rep t s) as [[p|why] s1] eqn:Hparse;
    [|discriminate].
  destruct (parse_representation_run _ _ _ _ _ _ Hok Hparse)
    as (t' & ptrs' & r & Hres & Ht' & Hok1 & Hr & Hkey & Hcases).
  rewrite (resolve_same s t _ ptrs Ht) in Hres. injection Hres as <-.
  rewrite Ht in Ht'. injection Ht' as <-.
  unfold bind at 1 in Hrun.
  destruct (update_rep p (add_reference kind) s1) as [[u|why] s2] eqn:Hupd;
    [|discriminate].
  unfold ret in Hrun. injection Hrun as <- <-.
  apply update_rep_run in Hupd as (r' & Hr' & ->).
  rewrite Hr in Hr'. injection Hr' as <-.
  pose proof (reg_view_update_rep s1 p r (add_reference kind r) Hr
                (rep_key_add_reference kind r)) as Hview.
  split; [rewrite Hview; exact Hok1|].
  exists p, r. split; [reflexivity|].
  assert (Hnew : forall ptrs1,
             (reg_view s1).1.2 !! t = Some (rep_revision rep, ptrs1) ->
             p ∈ ptrs1 ->
             slot (mk_state (<[p := add_reference kind r]> (st_reps s1))
                     (st_infos s1) (st_revisions s1) (st_stats s1)
                     (st_trace s1))
               t (rep_revision rep) (to_off (rep_item_index rep))
               (Some (p, add_reference kind r))).
  { intros ptrs1 Ht1 Hin. exists ptrs1. rewrite Hview.
    split; [exact Ht1|]. split_and!.
    - exact Hin.
    - cbn [st_reps]. apply list_lookup_insert_eq.
      eapply lookup_lt_Some. exact Hr.
    - destruct (add_reference_fields kind r) as [-> _]. exact Hkey. }
  pose proof Hkey as Hoffp.
  destruct Hcases
    as [[-> Hin]
       | (Hnone & Hp & Hreps & Hrc & Hkind & Hhs & [idx Hinfos] & _)].
  - split; [apply (Hnew ptrs); assumption|].
    destruct o as [[p0 r0]|].
    + destruct Ho as (Hin0 & Hr0 & Hoff0).
      apply list_elem_of_lookup in Hin as [i Hi].
      apply list_elem_of_lookup in Hin0 as [j Hj].
      destruct (registry_ok_unique (reg_view s) t _ ptrs i j p p0
                  (to_off (rep_item_index rep)) Hok Ht Hi Hj) as [_ ->].
      * destruct (offset_at_key s p r Hr) as [_ ->]. congruence.
      * destruct (offset_at_key s p0 r0 Hr0) as [_ ->]. congruence.
      * rewrite Hr in Hr0. injection Hr0 as ->.
        split_and!; reflexivity.
    + exfalso. apply (Ho p Hin).
      destruct (offset_at_key s p r Hr) as [_ ->]. congruence.
  - split.
    + apply (Hnew (take idx ptrs ++ p :: drop idx ptrs)).
      * rewrite Hinfos. apply list_lookup_insert_eq.
        eapply lookup_lt_Some. exact Ht.
      * apply elem_of_inserted. left. reflexivity.
    + destruct o as [[p0 r0]|].
      * exfalso. destruct Ho as (Hin0 & Hr0 & Hoff0).
        apply (Hnone p0 Hin0).
        destruct (offset_at_key s p0 r0 Hr0) as [_ ->]. congruence.
      * auto.
Qed.

(** A reference to another representation leaves the array as it is at
    the offset [off]. *)
Lemma reference_other (query : query_t) (rep : representation_t)
    (kind : rep_kind_t) (info t : info_ptr) (rev off : Z)
    (o : option (rep_ptr * rep_stats_t)) (s s' : state)
    (x : option rep_ptr) :
  registry_ok (reg_view s) ->
  slot s t rev off o ->
  rep_revision rep <> rev \/ to_off (rep_item_index rep) <> off ->
  reference query (Some rep) kind info s = (Ok x, s') ->
  registry_ok (reg_view s') /\ slot s' t rev off o.
Proof.
  intros Hok Hslot Hne Hrun.
  pose proof Hslot as (ptrs & Ht & Ho).
  unfold reference in Hrun. unfold bind at 1 in Hrun.
  destruct (parse_representation query rep info s) as [[p|why] s1] eqn:Hparse;
    [|discriminate].
  destruct (parse_representation_run _ _ _ _ _ _ Hok Hparse)
    as (t' & ptrs' & r & Hres & Ht' & Hok1 & Hr & Hkey & Hcases).
  unfold bind at 1 in Hrun.
  destruct (update_rep p (add_reference kind) s1) as [[u|why] s2] eqn:Hupd;
    [|discriminate].
  unfold ret in Hrun. injection Hrun as <- <-.
  apply update_rep_run in Hupd as (r' & Hr' & ->).
  rewrite Hr in Hr'. injection Hr' as <-.
  pose proof (reg_view_update_rep s1 p r (add_reference kind r) Hr
                (rep_key_add_reference kind r)) as Hview.
  split; [rewrite Hview; exact Hok1|].
  destruct (resolve_revision s info _ t' Hok Hres) as [ptrs'' Ht''].
  rewrite Ht' in Ht''. injection Ht'' as <-.
  destruct Hcases
    as [[-> Hin]
       | (Hnone & Hp & Hreps & Hrc & Hkind & Hhs & [idx Hinfos] & _)].
  - exists ptrs. rewrite Hview. split; [exact Ht|].
    destruct o as [[p0 r0]|]; [|exact Ho].
    destruct Ho as (Hin0 & Hr0 & Hoff0). split_and!; try assumption.
    cbn [st_reps]. rewrite list_lookup_insert_ne; [exact Hr0|].
    intros ->. rewrite Hr in Hr0. injection Hr0 as ->.
    destruct Hok as [[_ Hdisjoint] _].
    pose proof (Hdisjoint _ _ _ _ _ _ _ Ht Ht' Hin0 Hin) as <-.
    rewrite Ht in Ht'. injection Ht' as Hrev _.
    destruct Hne; congruence.
  - assert (Hvalid : forall q, q ∈ ptrs -> (q < length (st_reps s))%nat).
    { intros q Hq. destruct Hok as [[Harrays _] _].
      destruct (Harrays t rev ptrs Ht) as [Hvalid _].
      pose proof (Hvalid q Hq) as Hlt.
      unfold reg_view in Hlt. cbn [fst snd] in Hlt.
      rewrite length_fmap in Hlt. exact Hlt. }
    set (ptrs1 := if decide (t = t')
                  then take idx ptrs' ++ p :: drop idx ptrs' else ptrs).
    assert (Ht1 : (reg_view s1).1.2 !! t = Some (rev, ptrs1)).
    { rewrite Hinfos. subst ptrs1. destruct (decide (t = t')) as [<-|Hn].
      - rewrite Ht in Ht'. injection Ht' as <- <-.
        apply list_lookup_insert_eq. eapply lookup_lt_Some. exact Ht.
      - rewrite list_lookup_insert_ne by congruence. exact Ht. }
    assert (Hin1 : forall q, q ∈ ptrs1 -> q ∈ ptrs \/ (q = p /\ t = t')).
    { intros q Hq. subst ptrs1. destruct (decide (t = t')) as [<-|Hn].
      - rewrite Ht in Ht'. injection Ht' as _ <-.
        apply elem_of_inserted in Hq as [->|Hq]; auto.
      - auto. }
    assert (Hin2 : forall q, q ∈ ptrs -> q ∈ ptrs1).
    { intros q Hq. subst ptrs1. destruct (decide (t = t')) as [<-|Hn].
      - rewrite Ht in Ht'. injection Ht' as _ <-.
        apply elem_of_inserted. auto.
      - exact Hq. }
    exists ptrs1. rewrite Hview. split; [exact Ht1|].
    destruct o as [[p0 r0]|].
    + destruct Ho as (Hin0 & Hr0 & Hoff0).
      split_and!; [apply Hin2; exact Hin0| |exact Hoff0].
      cbn [st_reps]. rewrite Hreps. pose proof (Hvalid p0 Hin0).
      rewrite list_lookup_insert_ne by lia.
      rewrite lookup_app_l by lia. exact Hr0.
    + intros q Hq. destruct (Hin1 q Hq) as [Hq0 | [-> <-]].
      * pose proof (Hvalid q Hq0).
        unfold reg_view. cbn [fst snd]. rewrite Hreps, fmap_app.
        cbn [fmap list_fmap].
        rewrite offset_at_app by (rewrite length_fmap; lia).
        apply Ho. exact Hq0.
      * destruct (offset_at_key s1 p r Hr) as [_ ->].
        rewrite Ht in Ht'. injection Ht' as Hrev _.
        intros Heq. injection Heq as Heq.
        destruct Hne; congruence.
Qed.

(** ** The references of a node-revision *)

Lemma bind_Ok {A B} (m : M A) (k : A -> M B) (s s' : state) (b : B) :
  bind m k s = (Ok b, s') ->
  exists a s1, m s = (Ok a, s1) /\ k a s1 = (Ok b, s').
Proof.
  unfold bind. destruct (m s) as [[a|why] s1]; [|discriminate].
  intros H. exists a, s1. split; [reflexivity|exact H].
Qed.

Lemma inv_kept_write_stats reps v stats :
  inv (store_kept reps v) (write_stats stats).
Proof. intros s Hs. exact Hs. Qed.

Lemma inv_kept_update_info reps v (p : info_ptr)
    (f : revision_info_t -> revision_info_t) :
  (forall i, ri_revision (f i) = ri_revision i
             /\ ri_representations (f i) = ri_representations i) ->
  inv (store_kept reps v) (update_info p f).
Proof.
  intros Hf s [Hreps Hview]. unfold update_info.
  destruct (st_infos s !! p) as [i|] eqn:Hp; [|split; assumption].
  destruct (Hf i) as [Hrev Hptrs]. split; [exact Hreps|].
  cbn [snd]. rewrite (reg_view_update_info s p i (f i) Hp Hrev Hptrs).
  exact Hview.
Qed.

Lemma inv_kept_record_change reps v (rep : option rep_ptr)
    (noderev : node_revision_t) :
  inv (store_kept reps v) (record_change rep noderev).
Proof.
  pose proof (inv_kept_write_stats reps v).
  unfold record_change. inv_auto.
Qed.

(** [read_noderev] on a node-revision it does not descend from: the
    reference to the data representation, the reference to the property
    representation, and nothing else that concerns the
    representations. *)
Lemma read_noderev_run (fuel : nat) (query : query_t)
    (file_content : svn_stringbuf_t) (offset : Z) (info : info_ptr)
    (s s' : state) :
  read_noderev (S fuel) query file_content offset info s = (Ok tt, s') ->
  exists nr text props s1 s2,
    noderev_at query file_content offset = Ok nr
    /\ reference query (nr_data_rep nr) (classify (nr_kind nr) true) info s
       = (Ok text, s1)
    /\ reference query (nr_prop_rep nr) (classify (nr_kind nr) false) info s1
       = (Ok props, s2)
    /\ (no_descent query nr ->
        st_reps s' = st_reps s2 /\ reg_view s' = reg_view s2).
Proof.
  intros Hrun. cbn [read_noderev] in Hrun.
  destruct (Z.of_nat (length (sb_data file_content)) <? offset);
    [discriminate|].
  apply bind_Ok in Hrun as (nr & s0 & Hnr & Hrun).
  unfold lift_result in Hnr. injection Hnr as Hnr <-.
  apply bind_Ok in Hrun as (text & s1 & Htext & Hrun).
  apply bind_Ok in Hrun as (props & s2 & Hprops & Hrun).
  exists nr, text, props, s1, s2. split_and!.
  - exact Hnr.
  - exact Htext.
  - exact Hprops.
  - intros Hflat.
    apply bind_Ok in Hrun as (u1 & s3 & Hrc1 & Hrun).
    apply bind_Ok in Hrun as (u2 & s4 & Hrc2 & Hrun).
    apply bind_Ok in Hrun as (first_use & s5 & Hfirst & Hrun).
    apply bind_Ok in Hrun as (u3 & s6 & Hdir & Hrun).
    assert (H2 : store_kept (st_reps s2) (reg_view s2) s2)
      by (split; reflexivity).
    apply (inv_kept_record_change _ _ text nr) in H2. rewrite Hrc1 in H2.
    cbn [snd] in H2.
    apply (inv_kept_record_change _ _ props nr) in H2. rewrite Hrc2 in H2.
    cbn [snd] in H2.
    assert (H5 : store_kept (st_reps s2) (reg_view s2) s5).
    { destruct text as [p|].
      - apply bind_Ok in Hfirst as (r & s7 & Hr & Hret).
        unfold read_rep in Hr. destruct (st_reps s4 !! p); [|discriminate].
        injection Hr as _ <-. injection Hret as _ <-. exact H2.
      - injection Hfirst as _ <-. exact H2. }
    assert (H6 : store_kept (st_reps s2) (reg_view s2) s6).
    { replace (bool_decide (nr_kind nr = svn_node_dir) && first_use
               && negb (svn_fs_fs__use_log_addressing (q_fs query)))
        with false in Hdir.
      - injection Hdir as _ <-. exact H5.
      - destruct Hflat as [Hkind|Hlog].
        + rewrite bool_decide_eq_false_2 by exact Hkind. reflexivity.
        + rewrite Hlog. rewrite andb_false_r. reflexivity. }
    assert (H7 : store_kept (st_reps s2) (reg_view s2) s').
    { destruct (decide (nr_kind nr = svn_node_dir)).
      - eapply inv_kept_update_info in H6; [rewrite Hrun in H6; exact H6|].
        intros i. split; reflexivity.
      - eapply inv_kept_update_info in H6; [rewrite Hrun in H6; exact H6|].
        intros i. split; reflexivity. }
    exact H7.
Qed.

Lemma rep_at_spec (orep : option representation_t) (rev off : Z) :
  match orep with
  | Some rep =>
      if rep_at orep rev off
      then rep_revision rep = rev /\ to_off (rep_item_index rep) = off
      else rep_revision rep <> rev \/ to_off (rep_item_index rep) <> off
  | None => rep_at orep rev off = false
  end.
Proof.
  destruct orep as [rep|]; [|reflexivity]. unfold rep_at.
  destruct (Z.eqb_spec (rep_revision rep) rev);
    destruct (Z.eqb_spec (to_off (rep_item_index rep)) off); simpl; auto.
Qed.

(** The effect of a reference on the place of an offset in the array of
    the revision at hand. *)
Lemma reference_slot (query : query_t) (orep : option representation_t)
    (kind : rep_kind_t) (t : info_ptr) (rev off : Z)
    (o : option (rep_ptr * rep_stats_t)) (s s' : state)
    (x : option rep_ptr) :
  registry_ok (reg_view s) ->
  slot s t rev off o ->
  reference query orep kind t s = (Ok x, s') ->
  registry_ok (reg_view s')
  /\ exists o', slot s' t rev off o'
                /\ referenced query orep kind t rev off s o o'.
Proof.
  intros Hok Hslot Hrun. unfold referenced.
  pose proof (rep_at_spec orep rev off) as Hat.
  destruct orep as [rep|].
  - destruct (rep_at (Some rep) rev off).
    + destruct Hat as [Hrev Hoff].
      destruct (reference_same query rep kind t rev off o s s' x
                  Hok Hslot Hrev Hoff Hrun)
        as (Hok' & p & r0 & Hx & Hslot' & Ho).
      split; [exact Hok'|].
      exists (Some (p, add_reference kind r0)). split; [exact Hslot'|].
      exists rep, p, r0. split_and!; [reflexivity..|].
      destruct o as [[p0 r]|]; [exact Ho|].
      destruct Ho as (_ & _ & Hhs). split; [|exact Hhs].
      (* the new representation is at the end of the store *)
      unfold reference in Hrun.
      apply bind_Ok in Hrun as (p' & s1 & Hparse & Hrun).
      apply bind_Ok in Hrun as (u & s2 & Hupd & Hrun).
      injection Hrun as Hp' _. subst x. injection Hx as ->.
      destruct (parse_representation_run _ _ _ _ _ _ Hok Hparse)
        as (t' & ptrs' & r & Hres & Ht' & _ & Hr & Hkey & Hcases).
      destruct Hslot as (ptrs & Ht & Hnone).
      rewrite (resolve_same s t _ ptrs) in Hres by (rewrite Hrev; exact Ht).
      injection Hres as <-. rewrite Ht in Ht'. injection Ht' as _ <-.
      destruct Hcases as [[-> Hin]|(_ & Hp & _)]; [|exact Hp].
      exfalso. apply (Hnone p Hin).
      destruct (offset_at_key s p r Hr) as [_ ->]. congruence.
    + destruct (reference_other query rep kind t t rev off o s s' x
                  Hok Hslot Hat Hrun) as [Hok' Hslot'].
      split; [exact Hok'|]. exists o. split; [exact Hslot'|reflexivity].
  - rewrite Hat. unfold reference, ret in Hrun. injection Hrun as _ <-.
    split; [exact Hok|]. exists o. split; [exact Hslot|reflexivity].
Qed.

Lemma slot_kept (s s' : state) (t : info_ptr) (rev off : Z)
    (o : option (rep_ptr * rep_stats_t)) :
  st_reps s' = st_reps s -> reg_view s' = reg_view s ->
  slot s t rev off o -> slot s' t rev off o.
Proof.
  intros Hreps Hview (ptrs & Ht & Ho). exists ptrs.
  rewrite Hview, Hreps. split; assumption.
Qed.

(** The node-revision [read_noderev] parses, and what its two references
    do to the place of an offset. *)
Lemma read_noderev_slot (fuel : nat) (query : query_t)
    (file_content : svn_stringbuf_t) (offset : Z) (t : info_ptr)
    (rev off : Z) (o : option (rep_ptr * rep_stats_t))
    (nr : node_revision_t) (s s' : state) :
  registry_ok (reg_view s) ->
  slot s t rev off o ->
  noderev_at query file_content offset = Ok nr ->
  no_descent query nr ->
  read_noderev (S fuel) query file_content offset t s = (Ok tt, s') ->
  registry_ok (reg_view s')
  /\ exists o1 o2 text s1,
       slot s' t rev off o2
       /\ reference query (nr_data_rep nr) (classify (nr_kind nr) true) t s
          = (Ok text, s1)
       /\ referenced query (nr_data_rep nr) (classify (nr_kind nr) true)
            t rev off s o o1
       /\ referenced query (nr_prop_rep nr) (classify (nr_kind nr) false)
            t rev off s1 o1 o2.
Proof.
  intros Hok Hslot Hnr Hflat Hrun.
  apply read_noderev_run in Hrun
    as (nr' & text & props & s1 & s2 & Hnr' & Htext & Hprops & Hrest).
  rewrite Hnr in Hnr'. injection Hnr' as <-.
  destruct (Hrest Hflat) as [Hreps Hview].
  destruct (reference_slot _ _ _ _ _ _ _ _ _ _ Hok Hslot Htext)
    as (Hok1 & o1 & Hslot1 & Href1).
  destruct (reference_slot _ _ _ _ _ _ _ _ _ _ Hok1 Hslot1 Hprops)
    as (Hok2 & o2 & Hslot2 & Href2).
  split; [rewrite Hview; exact Hok2|].
  exists o1, o2, text, s1. split_and!; try assumption.
  eapply slot_kept; eassumption.
Qed.





(** [read_noderev] on a node-revision that refers to other representations
    only leaves the place of the offset as it is. *)
Lemma read_noderev_keeps_slot (fuel : nat) (query : query_t)
    (file_content : svn_stringbuf_t) (offset : Z) (t : info_ptr)
    (rev off : Z) (o : option (rep_ptr * rep_stats_t))
    (nr : node_revision_t) (s s' : state) :
  registry_ok (reg_view s) ->
  slot s t rev off o ->
  noderev_at query file_content offset = Ok nr ->
  no_descent query nr ->
  rep_at (nr_data_rep nr) rev off = false ->
  rep_at (nr_prop_rep nr) rev off = false ->
  read_noderev (S fuel) query file_content offset t s = (Ok tt, s') ->
  registry_ok (reg_view s') /\ slot s' t rev off o.
Proof.
  intros Hok Hslot Hnr Hflat Hdata Hprop Hrun.
  destruct (read_noderev_slot _ _ _ _ _ _ _ _ _ _ _ Hok Hslot Hnr Hflat Hrun)
    as (Hok' & o1 & o2 & text & s1 & Hslot' & _ & Hrd & Hrp).
  unfold referenced in Hrd, Hrp. rewrite Hdata in Hrd. rewrite Hprop in Hrp.
  subst o1 o2. split; assumption.
Qed.


(** ** The classification by the first reference *)











(** ** The registry throughout the traversal *)

Lemma inv_arrays_alloc_rep (r : rep_stats_t) :
  inv arrays_in_order (alloc_rep r).
Proof.
  intros s Hs. unfold arrays_in_order, reg_view in *.
  cbn [snd fst alloc_rep st_reps st_infos] in *.
  rewrite fmap_app. apply arrays_ok_app. exact Hs.
Qed.

Lemma inv_reg_view_update_rep
    (v : list (Z * Z) * list (Z * list rep_ptr) * list info_ptr)
    (p : rep_ptr) (f : rep_stats_t -> rep_stats_t) :
  (forall r, rep_key (f r) = rep_key r) ->
  inv (fun s => reg_view s = v) (update_rep p f).
Proof.
  intros Hf s Hs. unfold update_rep.
  destruct (st_reps s !! p) as [r|] eqn:Hp; [|exact Hs].
  cbn [snd]. rewrite (reg_view_update_rep s p r (f r) Hp (Hf r)). exact Hs.
Qed.

Lemma inv_arrays_update_rep (p : rep_ptr) (f : rep_stats_t -> rep_stats_t) :
  (forall r, rep_key (f r) = rep_key r) ->
  inv arrays_in_order (update_rep p f).
Proof.
  intros Hf s Hs. unfold arrays_in_order.
  rewrite (inv_reg_view_update_rep (reg_view s) p f Hf s eq_refl). exact Hs.
Qed.

Lemma inv_arrays_alloc_info (i : revision_info_t) :
  ri_representations i = [] -> inv arrays_in_order (alloc_info i).
Proof.
  intros Hi s [Harrays Hdisjoint]. unfold arrays_in_order, reg_view in *.
  cbn [snd fst alloc_info st_reps st_infos] in *.
  rewrite fmap_app. cbn [fmap list_fmap]. rewrite Hi.
  assert (Hlookup : forall t rev ptrs,
             (((fun i0 => (ri_revision i0, ri_representations i0))
                 <$> st_infos s) ++ [(ri_revision i, [])]) !! t
             = Some (rev, ptrs) ->
             ((fun i0 => (ri_revision i0, ri_representations i0))
                <$> st_infos s) !! t = Some (rev, ptrs)
             \/ ptrs = []).
  { intros t rev ptrs Ht. apply lookup_app_Some in Ht as [Ht|[_ Ht]].
    - left. exact Ht.
    - right. apply list_lookup_singleton_Some in Ht as [_ Ht].
      congruence. }
  split.
  - intros t rev ptrs Ht. destruct (Hlookup t rev ptrs Ht) as [Hold| ->].
    + eapply Harrays. exact Hold.
    + split.
      * intros p Hp. apply elem_of_nil in Hp. contradiction.
      * intros a b p q _ Hp. discriminate.
  - intros t t' rev rev' ptrs ptrs' p Ht Ht' Hp Hp'.
    destruct (Hlookup t rev ptrs Ht) as [Hold| ->];
      [|apply elem_of_nil in Hp; contradiction].
    destruct (Hlookup t' rev' ptrs' Ht') as [Hold'| ->];
      [|apply elem_of_nil in Hp'; contradiction].
    eapply Hdisjoint; eauto.
Qed.

Lemma inv_arrays_update_info (p : info_ptr)
    (f : revision_info_t -> revision_info_t) :
  (forall i, ri_representations (f i) = ri_representations i) ->
  inv arrays_in_order (update_info p f).
Proof.
  intros Hf s [Harrays Hdisjoint]. unfold update_info.
  destruct (st_infos s !! p) as [i|] eqn:Hp; [|split; assumption].
  unfold arrays_in_order, reg_view in *.
  cbn [snd fst st_reps st_infos] in *.
  rewrite list_fmap_insert, Hf.
  assert (Hlookup : forall t rev ptrs,
             <[p := (ri_revision (f i), ri_representations i)]>
               ((fun i0 => (ri_revision i0, ri_representations i0))
                  <$> st_infos s) !! t = Some (rev, ptrs) ->
             exists rev0,
               ((fun i0 => (ri_revision i0, ri_representations i0))
                  <$> st_infos s) !! t = Some (rev0, ptrs)).
  { intros t rev ptrs Ht. destruct (decide (t = p)) as [->|Hne].
    - rewrite list_lookup_insert_eq in Ht
        by (rewrite length_fmap; eapply lookup_lt_Some; eauto).
      injection Ht as _ <-. exists (ri_revision i).
      rewrite list_lookup_fmap, Hp. reflexivity.
    - rewrite list_lookup_insert_ne in Ht by congruence. eauto. }
  split.
  - intros t rev ptrs Ht. destruct (Hlookup t rev ptrs Ht) as [rev0 Hold].
    eapply Harrays. exact Hold.
  - intros t t' rev rev' ptrs ptrs' q Ht Ht' Hq Hq'.
    destruct (Hlookup t rev ptrs Ht) as [rev0 Hold].
    destruct (Hlookup t' rev' ptrs' Ht') as [rev0' Hold'].
    eapply Hdisjoint; eauto.
Qed.

Lemma inv_arrays_push_revision p : inv arrays_in_order (push_revision p).
Proof. intros s Hs. exact Hs. Qed.
Lemma inv_arrays_write_stats st : inv arrays_in_order (write_stats st).
Proof. intros s Hs. exact Hs. Qed.
Lemma inv_arrays_emit e : inv arrays_in_order (emit e).
Proof. intros s Hs. exact Hs. Qed.

(** [find_representation] reads the [revision_info_t] it resolved. *)
Lemma find_representation_invalid (query : query_t) (s : state)
    (info : info_ptr) (rev offset : Z) (t : info_ptr) :
  resolve (reg_view s) info rev = Some t ->
  (reg_view s).1.2 !! t = None ->
  exists why,
    find_representation query (Some (Some info)) rev offset s
    = (Stop why, s).
Proof.
  unfold resolve, find_representation. cbn [fst snd reg_view].
  rewrite !list_lookup_fmap. intros Hres Ht.
  unfold bind at 1. unfold bind at 1. unfold read_info at 1.
  destruct (st_infos s !! info) as [i|] eqn:Hinfo; [|discriminate].
  simpl in Hres. unfold ret at 1.
  destruct (Z.eqb_spec (ri_revision i) rev) as [Heq|Hne].
  - injection Hres as <-. rewrite Hinfo in Ht. discriminate.
  - simpl negb. cbv iota.
    unfold bind at 1. unfold bind at 1. unfold revision_at.
    destruct (0 <=? rev); [|discriminate].
    rewrite Hres. unfold ret at 1. cbv beta iota.
    unfold bind at 1. unfold read_info at 1.
    destruct (st_infos s !! t); [discriminate|].
    eexists. reflexivity.
Qed.

(** [parse_representation] keeps the arrays in order, whether it yields a
    representation or stops on the way. *)
Lemma inv_arrays_parse_representation (query : query_t)
    (rep : representation_t) (info : info_ptr) :
  inv arrays_in_order (parse_representation query rep info).
Proof.
  intros s Hs.
  destruct (resolve (reg_view s) info (rep_revision rep)) as [t|] eqn:Hres.
  2:{ destruct (find_representation_stops query s info (rep_revision rep)
                  (to_off (rep_item_index rep)) Hres) as [why Hstop].
      unfold parse_representation, bind. rewrite Hstop. exact Hs. }
  destruct ((reg_view s).1.2 !! t) as [[rev' ptrs]|] eqn:Ht.
  2:{ destruct (find_representation_invalid query s info (rep_revision rep)
                  (to_off (rep_item_index rep)) t Hres Ht) as [why Hstop].
      unfold parse_representation, bind. rewrite Hstop. exact Hs. }
  destruct (find_representation_run query s info (rep_revision rep) rev'
              (to_off (rep_item_index rep)) t ptrs Hs Hres Ht)
    as (idx & found & Hfind & Hlen & Hlow & Hhigh & Hfound).
  unfold parse_representation. unfold bind at 1. rewrite Hfind.
  destruct found as [q|]; [exact Hs|].
  set (fresh := mk_rep_stats (to_off (rep_item_index rep))
                  (to_size (rep_size rep))
                  (to_size (if rep_expanded_size rep =? 0
                            then rep_size rep
                            else rep_expanded_size rep))
                  (rep_revision rep) 0 0 unused_rep).
  unfold bind at 1. unfold alloc_rep at 1.
  unfold defined at 1. cbn [mjoin option_join].
  unfold bind at 1. unfold ret at 1. unfold bind at 1.
  set (s1 := mk_state (st_reps s ++ [fresh]) (st_infos s) (st_revisions s)
               (st_stats s) (st_trace s)).
  assert (Hview1 : reg_view s1
                   = ((reg_view s).1.1 ++ [rep_key fresh], (reg_view s).1.2,
                      (reg_view s).2)).
  { unfold reg_view, s1. cbn [fst snd st_reps st_infos st_revisions].
    rewrite fmap_app. reflexivity. }
  assert (Hs1 : arrays_ok (reg_view s1).1.1 (reg_view s1).1.2).
  { rewrite Hview1. cbn [fst snd]. apply arrays_ok_app. exact Hs. }
  match goal with
  | |- context [when_ ?b ?m s1] =>
      assert (Hmid : inv (fun s' => reg_view s' = reg_view s1) (when_ b m))
  end.
  { repeat (inv_step
            || (apply inv_reg_view_update_rep; intros ?; reflexivity)). }
  specialize (Hmid s1 eq_refl).
  match goal with
  | |- context [when_ ?b ?m s1] => destruct (when_ b m s1) as [[u|why] s2]
  end; cbn [snd] in Hmid.
  2:{ cbn [snd]. unfold arrays_in_order. rewrite Hmid. exact Hs1. }
  assert (Ht2 : (reg_view s2).1.2 !! t = Some (rev', ptrs)).
  { rewrite Hmid, Hview1. exact Ht. }
  apply reg_view_info in Ht2 as (it & Hit & Hrev & Hptrs).
  unfold bind at 1. unfold read_info at 1. rewrite Hit.
  unfold bind at 1. unfold svn_sort__array_insert. rewrite Hptrs.
  replace ((0 <=? Z.of_nat idx) && (Z.of_nat idx <=? Z.of_nat (length ptrs)))
    with true
    by (symmetry; apply andb_true_iff; split; apply Z.leb_le; lia).
  rewrite Nat2Z.id. unfold defined at 1. unfold ret at 1. cbv beta iota.
  unfold bind at 1. unfold update_info at 1. rewrite Hit.
  unfold ret. cbn [snd].
  unfold arrays_in_order.
  assert (Hview :
            reg_view
              (mk_state (st_reps s2)
                 (<[t := set_ri_representations
                           (take idx ptrs ++ length (st_reps s)
                              :: drop idx ptrs) it]> (st_infos s2))
                 (st_revisions s2) (st_stats s2) (st_trace s2))
            = ((reg_view s).1.1 ++ [rep_key fresh],
               <[t := (rev', take idx ptrs ++ length (reg_view s).1.1
                               :: drop idx ptrs)]> (reg_view s).1.2,
               (reg_view s).2)).
  { rewrite Hview1 in Hmid.
    pose proof (f_equal (fun v => v.1.1) Hmid) as Hkeys.
    pose proof (f_equal (fun v => v.1.2) Hmid) as Hinfos.
    pose proof (f_equal snd Hmid) as Hrevs.
    cbn [fst snd] in Hkeys, Hinfos, Hrevs.
    rewrite <- Hkeys, <- Hinfos, <- Hrevs. unfold reg_view.
    cbn [fst snd st_reps st_infos st_revisions].
    rewrite list_fmap_insert. cbn [set_ri_representations ri_revision
                                   ri_representations].
    rewrite Hrev. f_equal. f_equal. f_equal. f_equal. f_equal.
    apply (f_equal length) in Hkeys. unfold reg_view in Hkeys.
    cbn [fst snd] in Hkeys. rewrite length_app, !length_fmap in Hkeys.
    rewrite length_fmap. reflexivity. }
  rewrite Hview. cbn [fst snd].
  apply arrays_ok_insert; try assumption.
  intros i q x Hi Hq Hx.
  pose proof (Hhigh i q x Hi Hq Hx) as Hle.
  assert (x <> to_off (rep_item_index rep)); [|simpl; lia].
  intros ->. eapply Hfound; [|exact Hx].
  apply list_elem_of_lookup. eauto.
Qed.

(** The functions of the traversal, [parse_representation] left as it
    is. *)
Create HintDb drivers discriminated.

#[export] Hint Unfold get_file_size get_content read_revision_header
  parse_dir check_cancel notify_progress notify_revision_progress
  read_phys_pack_file read_phys_revision_file read_item process_entry
  read_log_rev_or_packfile read_log_pack_file read_log_revision_file
  read_revisions modify_stats : drivers.

Ltac unfold_drivers := repeat (progress autounfold with drivers).

#[export] Hint Resolve inv_arrays_push_revision inv_arrays_write_stats
  inv_arrays_emit inv_arrays_parse_representation inv_arrays_alloc_rep : inv.

(** The accesses that concern the arrays: a [revision_info_t] is
    allocated with an empty array and changed in its other members, and a
    representation keeps its offset. *)
Ltac arrays_leaf :=
  first
    [ progress unfold record_change
    | apply inv_arrays_alloc_info; reflexivity
    | apply inv_arrays_update_info; intros ?; reflexivity
    | apply inv_arrays_update_rep; intros ?;
      first [reflexivity | apply rep_key_add_reference] ].

Section ArraysInvariant.

Variable svn_cstring_strtoui64 : list Byte.byte -> Z -> Z -> Z -> result Z.
Variable call_cancel_func : ptr -> ptr -> list event -> option svn_error_t.

Lemma inv_arrays_read_noderev fuel :
  forall query file_content offset revision_info,
    inv arrays_in_order
      (read_noderev fuel query file_content offset revision_info).
Proof.
  induction fuel as [|fuel IH]; intros; simpl; [apply inv_stop_with|].
  unfold_drivers. repeat (inv_step || arrays_leaf).
Qed.

Lemma inv_arrays_process_entries fuel query rev_file entries :
  forall i offset,
    inv arrays_in_order
      (process_entries fuel query rev_file entries i offset).
Proof.
  pose proof inv_arrays_read_noderev as Hread.
  induction entries as [|entry entries IH]; intros; simpl; [apply inv_ret|].
  unfold_drivers. repeat (inv_step || arrays_leaf).
Qed.

Lemma inv_arrays_walk_blocks steps fuel query rev_file base max_offset :
  forall offset,
    inv arrays_in_order
      (walk_blocks call_cancel_func steps fuel query rev_file base max_offset
         offset).
Proof.
  pose proof inv_arrays_process_entries as Hentries.
  induction steps as [|steps IH]; intros; simpl;
    unfold_drivers; repeat (inv_step || arrays_leaf).
Qed.

Lemma inv_arrays_read_packed_revisions steps fuel query :
  forall revision,
    inv arrays_in_order
      (read_packed_revisions svn_cstring_strtoui64 call_cancel_func steps
         fuel query revision).
Proof.
  pose proof inv_arrays_read_noderev as Hread.
  pose proof inv_arrays_walk_blocks as Hwalk.
  induction steps as [|steps IH]; intros; simpl;
    unfold_drivers; repeat (inv_step || arrays_leaf).
Qed.

Lemma inv_arrays_read_revisions fuel query :
  inv arrays_in_order
    (read_revisions svn_cstring_strtoui64 call_cancel_func fuel query).
Proof.
  pose proof inv_arrays_read_noderev as Hread.
  pose proof inv_arrays_walk_blocks as Hwalk.
  pose proof inv_arrays_read_packed_revisions as Hpacked.
  unfold_drivers. repeat (inv_step || arrays_leaf).
Qed.

Lemma inv_arrays_aggregate_stats : inv arrays_in_order aggregate_stats.
Proof.
  unfold aggregate_stats. unfold_drivers. repeat (inv_step || arrays_leaf).
Qed.

Lemma inv_arrays_create_query fs pf pb cf cb :
  inv arrays_in_order (create_query fs pf pb cf cb).
Proof. unfold create_query. repeat (inv_step || arrays_leaf). Qed.

(** Whatever the outcome of [svn_fs_fs__get_stats], the arrays of
    representations are sorted by offset and share no representation. *)
Lemma get_stats_arrays_in_order fuel fs pf pb cf cb :
  arrays_in_order
    (snd (svn_fs_fs__get_stats svn_cstring_strtoui64 call_cancel_func fuel fs
            pf pb cf cb)).
Proof.
  pose proof inv_arrays_read_revisions as Hread.
  pose proof inv_arrays_aggregate_stats as Haggregate.
  pose proof inv_arrays_create_query as Hquery.
  unfold svn_fs_fs__get_stats.
  assert (Hinv : inv arrays_in_order
                   (query <- create_query fs pf pf cf cb ;;
                    read_revisions svn_cstring_strtoui64 call_cancel_func fuel
                      query ;;
                    aggregate_stats))
    by inv_auto.
  apply Hinv. split.
  - intros t rev ptrs Ht. discriminate.
  - intros t t' rev rev' ptrs ptrs' p Ht. discriminate.
Qed.

End ArraysInvariant.


(** [read_noderev], whatever it parses and however far it descends,
    leaves the registry in order. *)
Lemma read_noderev_registry_ok (fuel : nat) (query : query_t)
    (file_content : svn_stringbuf_t) (offset : Z) (info : info_ptr)
    (s : state) :
  registry_ok (reg_view s) ->
  registry_ok
    (reg_view (snd (read_noderev fuel query file_content offset info s))).
Proof.
  intros [Harrays Hidx]. split.
  - apply (inv_arrays_read_noderev fuel query file_content offset info s).
    exact Harrays.
  - pose proof (inv_view_read_noderev (rev_view s) fuel query file_content
                  offset info s eq_refl) as Hview.
    cbv beta in Hview. unfold rev_view in Hview.
    injection Hview as Hrevs Hinfos.
    intros i t Hi. unfold reg_view in *. cbn [fst snd] in *.
    rewrite Hrevs in Hi. destruct (Hidx i t Hi) as [ptrs Ht].
    rewrite list_lookup_fmap in Ht.
    apply (f_equal (fun l => l !! t)) in Hinfos.
    rewrite !list_lookup_fmap in Hinfos. rewrite list_lookup_fmap.
    destruct (st_infos s !! t) as [i0|]; [|discriminate].
    destruct (st_infos _ !! t) as [i1|]; [|discriminate].
    simpl in *. injection Ht as Hrev _. injection Hinfos as Hrev'.
    eexists. f_equal. f_equal. congruence.
Qed.

(** ** Representations are not duplicated *)





(** * Further properties of stats.c *)

(** ** Histograms *)






(** ** The walk over the index *)

(** X3.  An index entry that is neither a node-revision nor a changed-paths
    list, with a size other than 0 and not skipped as the first entry of
    its block: [process_entry] leaves the store as it is, raises no error,
    and moves the walk position on by the size of the entry. *)
Theorem process_entry_other_item (fuel : nat) (query : query_t)
    (rev_file : rev_file_t) (i : Z) (entry : svn_fs_fs__p2l_entry_t)
    (offset : Z) (s : state) :
  ~ (i = 0 /\ p2l_offset entry < offset) ->
  p2l_size entry <> 0 ->
  p2l_type entry <> SVN_FS_FS__ITEM_TYPE_NODEREV ->
  p2l_type entry <> SVN_FS_FS__ITEM_TYPE_CHANGES ->
  process_entry fuel query rev_file i entry offset s
  = (Ok (to_off (offset + p2l_size entry)), s).
Proof.
  intros Hfirst Hsize Hnode Hchanges. unfold process_entry.
  replace ((i =? 0) && (p2l_offset entry <? offset)) with false.
  2:{ symmetry. apply andb_false_iff.
      destruct (Z.eqb_spec i 0); [|auto].
      destruct (Z.ltb_spec (p2l_offset entry) offset); [|auto].
      exfalso. auto. }
  destruct (Z.eqb_spec (p2l_size entry) 0); [contradiction|].
  destruct (Z.eqb_spec (p2l_type entry) SVN_FS_FS__ITEM_TYPE_NODEREV);
    [contradiction|].
  destruct (Z.eqb_spec (p2l_type entry) SVN_FS_FS__ITEM_TYPE_CHANGES);
    [contradiction|].
  reflexivity.
Qed.

Lemma process_entry_other_item_witness :
  process_entry 5 sample_query 0 1 sample_rep_entry 10 sample_walk_store
  = (Ok 17, sample_walk_store).
Proof.
  apply (process_entry_other_item 5 sample_query 0 1 sample_rep_entry 10
           sample_walk_store).
  - intros [H _]. discriminate.
  - discriminate.
  - discriminate.
  - discriminate.
Defined.

(** X4.  A changed-paths item of a revision that [query->revisions] holds,
    read in full: [process_entry] sets the [change_count] of the revision
    to half the number of newlines of the item, adds the size of the item
    to its [changes_len], and moves the walk position on by that size.
    Nothing else of the store changes. *)
Theorem process_entry_changes_item (fuel : nat) (query : query_t)
    (rev_file : rev_file_t) (i : Z) (entry : svn_fs_fs__p2l_entry_t)
    (offset : Z) (s : state) (info : info_ptr) (r : revision_info_t)
    (data : list Byte.byte) :
  ~ (i = 0 /\ p2l_offset entry < offset) ->
  p2l_size entry <> 0 ->
  p2l_type entry = SVN_FS_FS__ITEM_TYPE_CHANGES ->
  0 <= p2l_item_revision entry ->
  st_revisions s !! Z.to_nat (p2l_item_revision entry) = Some info ->
  st_infos s !! info = Some r ->
  svn_io_file_read_at (q_fs query) rev_file (p2l_offset entry)
    (to_size (p2l_size entry)) = Ok data ->
  Z.of_nat (length data) = to_size (p2l_size entry) ->
  process_entry fuel query rev_file i entry offset s
  = (Ok (to_off (offset + p2l_size entry)),
     mk_state (st_reps s)
       (<[info := set_ri_changes_len
                    (to_size (ri_changes_len r + p2l_size entry))
                    (set_ri_change_count (newline_count data / 2) r)]>
          (st_infos s))
       (st_revisions s) (st_stats s) (st_trace s)).
Proof.
  intros Hfirst Hsize Htype Hrev Hinfo Hr Hread Hlen. unfold process_entry.
  replace ((i =? 0) && (p2l_offset entry <? offset)) with false.
  2:{ symmetry. apply andb_false_iff.
      destruct (Z.eqb_spec i 0); [|auto].
      destruct (Z.ltb_spec (p2l_offset entry) offset); [|auto].
      exfalso. auto. }
  destruct (Z.eqb_spec (p2l_size entry) 0); [contradiction|].
  rewrite Htype. cbn [Z.eqb SVN_FS_FS__ITEM_TYPE_CHANGES
                      SVN_FS_FS__ITEM_TYPE_NODEREV Pos.eqb].
  unfold bind at 1. unfold bind at 1. unfold revision_at.
  destruct (Z.leb_spec 0 (p2l_item_revision entry)); [|lia].
  rewrite Hinfo. unfold bind at 1. unfold read_item.
  unfold bind at 1. unfold lift_result. rewrite Hread.
  unfold ret at 1. cbv beta iota. unfold bind at 1.
  cbn [sb_data sb_len]. unfold get_change_count.
  rewrite <- Hlen, Nat2Z.id.
  assert (Hbound : Z.of_nat (length data) < 2 ^ 64).
  { rewrite Hlen. unfold to_size. apply Z.mod_pos_bound. lia. }
  rewrite count_lines_scan by lia. simpl.
  unfold update_info. rewrite Hr. unfold ret. reflexivity.
Qed.

Lemma process_entry_changes_item_witness :
  process_entry 5 sample_empty_index_query 0 1 sample_changes_entry 10
    sample_walk_store
  = (Ok 17,
     mk_state (st_reps sample_walk_store)
       [set_ri_changes_len 7
          (set_ri_change_count 3
             (set_ri_end 20 (set_ri_revision 0 zero_revision_info)))]
       (st_revisions sample_walk_store) (st_stats sample_walk_store)
       (st_trace sample_walk_store)).
Proof.
  apply (process_entry_changes_item 5 sample_empty_index_query 0 1
           sample_changes_entry 10 sample_walk_store 0%nat
           (set_ri_end 20 (set_ri_revision 0 zero_revision_info))
           (replicate 7 Byte.x0a)).
  - intros [H _]. discriminate.
  - discriminate.
  - reflexivity.
  - simpl. lia.
  - reflexivity.
  - reflexivity.
  - reflexivity.
  - reflexivity.
Defined.

Lemma process_entries_empty_items (fuel : nat) (query : query_t)
    (rev_file : rev_file_t) (entries : list svn_fs_fs__p2l_entry_t) :
  Forall (fun e => p2l_size e = 0) entries ->
  forall i offset s,
    process_entries fuel query rev_file entries i offset s = (Ok offset, s).
Proof.
  induction 1 as [|entry entries Hentry _ IH]; intros i offset s;
    [reflexivity|].
  cbn [process_entries]. unfold bind, process_entry. rewrite Hentry.
  destruct ((i =? 0) && (p2l_offset entry <? offset)); apply IH.
Qed.

(** X5.  The walk over the index only moves on by the sizes of the entries
    it processes.  Where the index gives a block with no entry, or with
    entries of size 0 only, for an offset below the end of the file, and
    there is no cancellation callback, the loop of
    [read_log_rev_or_packfile] looks up the same block again and again:
    however many rounds it is given, it does not come to an end, and the
    store stays as it is. *)
Theorem walk_blocks_repeats_empty_block
    (call_cancel_func : ptr -> ptr -> list event -> option svn_error_t)
    (steps fuel : nat) (query : query_t) (rev_file : rev_file_t)
    (base max_offset offset : Z) (entries : list svn_fs_fs__p2l_entry_t)
    (s : state) :
  q_cancel_func query = 0 ->
  offset < max_offset ->
  svn_fs_fs__p2l_index_lookup (q_fs query) rev_file base offset
    (p2l_page_size (q_fs query)) = Ok entries ->
  Forall (fun e => p2l_size e = 0) entries ->
  walk_blocks call_cancel_func steps fuel query rev_file base max_offset
    offset s
  = (Stop OutOfFuel, s).
Proof.
  intros Hcancel Hlt Hlookup Hempty.
  induction steps as [|steps IH]; cbn [walk_blocks];
    destruct (Z.ltb_spec offset max_offset); try lia; [reflexivity|].
  unfold bind at 1. unfold check_cancel. rewrite Hcancel.
  cbn [Z.eqb negb when_]. unfold ret at 1.
  unfold bind at 1. unfold lift_result. rewrite Hlookup.
  unfold bind at 1.
  rewrite (process_entries_empty_items fuel query rev_file entries Hempty).
  exact IH.
Qed.

Lemma walk_blocks_repeats_empty_block_witness :
  walk_blocks never_cancel 1000 5 sample_empty_index_query 0 0 20 0
    sample_walk_store
  = (Stop OutOfFuel, sample_walk_store).
Proof.
  apply (walk_blocks_repeats_empty_block never_cancel 1000 5
           sample_empty_index_query 0 0 20 0 [] sample_walk_store).
  - reflexivity.
  - lia.
  - reflexivity.
  - constructor.
Defined.

(** ** The callbacks, continued *)

Section TraceInvariant.

Variable P : list event -> Prop.

Lemma inv_events_alloc_rep r : inv (fun s => P (st_trace s)) (alloc_rep r).
Proof. intros s Hs. exact Hs. Qed.
Lemma inv_events_update_rep p f :
  inv (fun s => P (st_trace s)) (update_rep p f).
Proof. intros s Hs. unfold update_rep. destruct (st_reps s !! p); exact Hs. Qed.
Lemma inv_events_alloc_info i : inv (fun s => P (st_trace s)) (alloc_info i).
Proof. intros s Hs. exact Hs. Qed.
Lemma inv_events_update_info p f :
  inv (fun s => P (st_trace s)) (update_info p f).
Proof. intros s Hs. unfold update_info. destruct (st_infos s !! p); exact Hs. Qed.
Lemma inv_events_push_revision p :
  inv (fun s => P (st_trace s)) (push_revision p).
Proof. intros s Hs. exact Hs. Qed.
Lemma inv_events_write_stats st :
  inv (fun s => P (st_trace s)) (write_stats st).
Proof. intros s Hs. exact Hs. Qed.

End TraceInvariant.

Lemma inv_calls_emit (pf cf cb : ptr) (e : event) :
  match e with
  | ProgressCall f _ _ => f = pf /\ f <> 0
  | CancelCall f b => f = cf /\ b = cb /\ f <> 0
  end ->
  inv (fun s => calls_wellformed pf cf cb (st_trace s)) (emit e).
Proof.
  intros He s Hs e' Hin. cbn [snd emit st_trace] in Hin.
  apply elem_of_app in Hin as [Hin|Hin].
  - apply Hs. exact Hin.
  - apply list_elem_of_singleton in Hin. subst e'. exact He.
Qed.

(** A call under [if (func)]: the pointer is not null where the call is
    made. *)
Ltac calls_step :=
  lazymatch goal with
  | |- inv _ (when_ (negb (?x =? 0)) _) =>
      destruct (Z.eqb_spec x 0); cbn [negb when_]; [apply inv_ret|]
  | |- _ => inv_step
  end.

Ltac calls_leaf :=
  first
    [ progress unfold record_change
    | apply inv_events_alloc_rep | apply inv_events_update_rep
    | apply inv_events_alloc_info | apply inv_events_update_info
    | apply inv_events_push_revision | apply inv_events_write_stats
    | apply inv_calls_emit; simpl; auto ].

Section CallsWellformed.

Variable svn_cstring_strtoui64 : list Byte.byte -> Z -> Z -> Z -> result Z.
Variable call_cancel_func : ptr -> ptr -> list event -> option svn_error_t.
Variable query : query_t.

Let wellformed (s : state) : Prop :=
  calls_wellformed (q_progress_func query) (q_cancel_func query)
    (q_cancel_baton query) (st_trace s).

Lemma inv_calls_read_noderev fuel :
  forall file_content offset revision_info,
    inv wellformed (read_noderev fuel query file_content offset revision_info).
Proof.
  unfold wellformed.
  induction fuel as [|fuel IH]; intros; simpl; [apply inv_stop_with|].
  unfold_stats. repeat (calls_step || calls_leaf).
Qed.

Lemma inv_calls_process_entries fuel rev_file entries :
  forall i offset,
    inv wellformed (process_entries fuel query rev_file entries i offset).
Proof.
  pose proof inv_calls_read_noderev as Hread. unfold wellformed in *.
  induction entries as [|entry entries IH]; intros; simpl; [apply inv_ret|].
  unfold_stats. repeat (calls_step || calls_leaf).
Qed.

Lemma inv_calls_walk_blocks steps fuel rev_file base max_offset :
  forall offset,
    inv wellformed
      (walk_blocks call_cancel_func steps fuel query rev_file base max_offset
         offset).
Proof.
  pose proof inv_calls_process_entries as Hentries. unfold wellformed in *.
  induction steps as [|steps IH]; intros; simpl;
    unfold_stats; repeat (calls_step || calls_leaf).
Qed.

Lemma inv_calls_read_packed_revisions steps fuel :
  forall revision,
    inv wellformed
      (read_packed_revisions svn_cstring_strtoui64 call_cancel_func steps
         fuel query revision).
Proof.
  pose proof inv_calls_read_noderev as Hread.
  pose proof inv_calls_walk_blocks as Hwalk. unfold wellformed in *.
  induction steps as [|steps IH]; intros; simpl;
    unfold_stats; repeat (calls_step || calls_leaf).
Qed.

Lemma inv_calls_read_revisions fuel :
  inv wellformed
    (read_revisions svn_cstring_strtoui64 call_cancel_func fuel query).
Proof.
  pose proof inv_calls_read_noderev as Hread.
  pose proof inv_calls_walk_blocks as Hwalk.
  pose proof inv_calls_read_packed_revisions as Hpacked.
  unfold wellformed in *.
  unfold_stats. repeat (calls_step || calls_leaf).
Qed.

End CallsWellformed.

(** X6.  What [svn_fs_fs__get_stats] calls.  Whatever the outcome of a run,
    every call it made went through a function pointer that is not null:
    the progress calls to [progress_func], the cancellation calls to
    [cancel_func], and each of these received [cancel_baton].  With a null
    [progress_func] no progress call is made, with a null [cancel_func] no
    cancellation call. *)
Theorem get_stats_calls_wellformed
    (svn_cstring_strtoui64 : list Byte.byte -> Z -> Z -> Z -> result Z)
    (call_cancel_func : ptr -> ptr -> list event -> option svn_error_t)
    (fuel : nat) (fs : svn_fs_t)
    (progress_func progress_baton cancel_func cancel_baton : ptr) :
  calls_wellformed progress_func cancel_func cancel_baton
    (st_trace (snd (svn_fs_fs__get_stats svn_cstring_strtoui64
                      call_cancel_func fuel fs progress_func progress_baton
                      cancel_func cancel_baton))).
Proof.
  unfold svn_fs_fs__get_stats. unfold bind at 1.
  destruct (create_query fs progress_func progress_func cancel_func
              cancel_baton (initial_state create_stats))
    as [[query|why] s1] eqn:Hquery.
  - apply create_query_fields in Hquery
      as (_ & Hf & _ & Hc & Hb & _ & _ & _ & Ht & _).
    assert (Hinv : inv (fun s => calls_wellformed progress_func cancel_func
                                   cancel_baton (st_trace s))
                     (read_revisions svn_cstring_strtoui64 call_cancel_func
                        fuel query ;; aggregate_stats)).
    { apply inv_bind.
      - pose proof (inv_calls_read_revisions svn_cstring_strtoui64
                      call_cancel_func query fuel) as H.
        rewrite Hf, Hc, Hb in H. exact H.
      - intros _. unfold aggregate_stats. unfold_stats.
        repeat (calls_step || calls_leaf). }
    apply Hinv. rewrite Ht. intros e He. inversion He.
  - apply create_query_stops in Hquery. subst s1. intros e He. inversion He.
Qed.

(** ** The histograms of a run *)

Lemma add_to_histogram_total (h h' : svn_fs_fs__histogram_t) (size : Z) :
  add_to_histogram h size = Some h' ->
  h_total h' = mk_line (hl_count (h_total h) + 1) (hl_sum (h_total h) + size).
Proof.
  unfold add_to_histogram. intros H.
  apply bind_Some in H as (shift & _ & H).
  apply bind_Some in H as (line & _ & H).
  inversion H. reflexivity.
Qed.

Lemma add_to_stats_histogram_total (m : histogram_member) (size : Z)
    (st st' : svn_fs_fs__stats_t) :
  add_to_stats_histogram m size st = Some st' ->
  by_extension st' = by_extension st
  /\ (forall m', m' <> m -> histograms st' m' = histograms st m')
  /\ total_count st' m = total_count st m + 1
  /\ total_sum st' m = total_sum st m + size.
Proof.
  unfold add_to_stats_histogram, total_count, total_sum. intros H.
  apply bind_Some in H as (h & Hh & H). inversion H; subst st'. clear H.
  apply add_to_histogram_total in Hh. cbn [by_extension histograms set_histogram].
  split; [reflexivity|]. split.
  - intros m' Hm. destruct (decide (m' = m)); [contradiction|reflexivity].
  - destruct (decide (m = m)); [|contradiction]. rewrite Hh. split; reflexivity.
Qed.

Lemma hash_set_sum (f : svn_fs_fs__extension_info_t -> Z)
    (h : list (string * svn_fs_fs__extension_info_t)) (key : string)
    (v : svn_fs_fs__extension_info_t) :
  sum_by_extension f (hash_set h key v)
  = sum_by_extension f h
    - match hash_get h key with Some old => f old | None => 0 end
    + f v.
Proof.
  induction h as [|[k v'] h IH]; simpl.
  - lia.
  - destruct (String.eqb k key); simpl; [lia|]. rewrite IH. lia.
Qed.

(** Read the total line of a histogram after a chain of additions back to
    the histograms before it. *)
Ltac trace_totals :=
  repeat match goal with
         | H : forall m', m' <> ?m -> histograms ?st m' = _
           |- context [histograms ?st ?m0] =>
             rewrite (H m0) by discriminate
         | H : hl_count (h_total (histograms ?st ?m)) = _
           |- context [hl_count (h_total (histograms ?st ?m))] => rewrite H
         | H : hl_sum (h_total (histograms ?st ?m)) = _
           |- context [hl_sum (h_total (histograms ?st ?m))] => rewrite H
         | H : by_extension ?st = _ |- context [by_extension ?st] => rewrite H
         end.

Lemma add_change_census (stats stats' : svn_fs_fs__stats_t)
    (rep_size expanded_size revision : Z) (path : string) (kind : rep_kind_t)
    (plain_added : bool) :
  kind <> unused_rep ->
  census stats ->
  add_change stats rep_size expanded_size revision path kind plain_added
    = Some stats' ->
  census stats'.
Proof.
  intros Hkind (Hunused & Hpart & Hext) H. unfold add_change in H.
  apply bind_Some in H as (lc & _ & H).
  remember (set_largest_changes lc stats) as st0 eqn:Hst0.
  assert (H0 : by_extension st0 = by_extension stats
               /\ forall m, histograms st0 m = histograms stats m)
    by (subst st0; split; reflexivity).
  clear Hst0. destruct H0 as [Hext0 Hhist0].
  unfold histograms_partition, extensions_partition, total_count, total_sum
    in Hpart, Hext.
  destruct kind; try contradiction; destruct plain_added;
    repeat match goal with
           | H : mbind _ _ = Some _ |- _ =>
               let x := fresh "st" in
               let Hx := fresh "Hstep" in
               apply bind_Some in H as (x & Hx & H)
           end;
    repeat match goal with
           | H : add_to_stats_histogram _ _ _ = Some _ |- _ =>
               apply add_to_stats_histogram_total in H as (? & ? & ? & ?)
           | H : add_to_histogram _ _ = Some _ |- _ =>
               apply add_to_histogram_total in H
           end;
    repeat match goal with
           | H : Some _ = Some ?b |- _ => injection H as H; subst b
           end;
    unfold census, histograms_partition, extensions_partition, total_count,
      total_sum in *;
    cbn [histograms by_extension set_by_extension];
    try rewrite !hash_set_sum; cbn [ei_rep_histogram ei_node_histogram];
    trace_totals; rewrite ?Hhist0, ?Hext0.
  all: try (split_and!; try assumption; lia).
  all: repeat match goal with
              | H : h_total ?h = _ |- context [h_total ?h] => rewrite H
              end;
    trace_totals; rewrite ?Hext0;
    destruct (hash_get (by_extension stats) (extension_of path));
    cbn [ei_rep_histogram ei_node_histogram zero_histogram h_total zero_line
           hl_count hl_sum];
    split_and!; try assumption; lia.
Qed.

Section StatsInvariant.

Variable P : svn_fs_fs__stats_t -> Prop.

Lemma inv_stats_alloc_rep r : inv (fun s => P (st_stats s)) (alloc_rep r).
Proof. intros s Hs. exact Hs. Qed.
Lemma inv_stats_update_rep p f :
  inv (fun s => P (st_stats s)) (update_rep p f).
Proof. intros s Hs. unfold update_rep. destruct (st_reps s !! p); exact Hs. Qed.
Lemma inv_stats_alloc_info i : inv (fun s => P (st_stats s)) (alloc_info i).
Proof. intros s Hs. exact Hs. Qed.
Lemma inv_stats_update_info p f :
  inv (fun s => P (st_stats s)) (update_info p f).
Proof. intros s Hs. unfold update_info. destruct (st_infos s !! p); exact Hs. Qed.
Lemma inv_stats_push_revision p :
  inv (fun s => P (st_stats s)) (push_revision p).
Proof. intros s Hs. exact Hs. Qed.
Lemma inv_stats_emit e : inv (fun s => P (st_stats s)) (emit e).
Proof. intros s Hs. exact Hs. Qed.
Lemma inv_stats_modify_stats f :
  (forall stats, P stats -> P (f stats)) ->
  inv (fun s => P (st_stats s)) (modify_stats f).
Proof. intros Hf s Hs. apply Hf. exact Hs. Qed.

End StatsInvariant.

Lemma inv_census_record_change (rep : option rep_ptr)
    (noderev : node_revision_t) :
  inv (fun s => all_unused_unreferenced s /\ census (st_stats s))
    (record_change rep noderev).
Proof.
  intros s [Hkinds Hcensus]. unfold record_change.
  destruct rep as [p|]; [|split; [exact Hkinds|exact Hcensus]].
  unfold bind, read_rep.
  destruct (st_reps s !! p) as [r|] eqn:Hp; [|split; [exact Hkinds|exact Hcensus]].
  destruct (rs_ref_count r =? 1) eqn:Hcount; [|split; [exact Hkinds|exact Hcensus]].
  cbn [when_]. unfold read_stats, defined, write_stats.
  destruct (add_change _ _ _ _ _ _ _) as [stats'|] eqn:Hadd;
    [|split; [exact Hkinds|exact Hcensus]].
  cbn [snd]. split; [exact Hkinds|]. cbn [st_stats].
  eapply add_change_census; [|exact Hcensus|exact Hadd].
  intros Hunused. unfold all_unused_unreferenced in Hkinds.
  rewrite Forall_forall in Hkinds.
  assert (Hr : r ∈ st_reps s) by (apply list_elem_of_lookup; eauto).
  specialize (Hkinds r Hr Hunused). lia.
Qed.

Lemma census_same_histograms (stats stats' : svn_fs_fs__stats_t) :
  histograms stats' = histograms stats ->
  by_extension stats' = by_extension stats ->
  census stats -> census stats'.
Proof.
  unfold census, histograms_partition, extensions_partition, total_count,
    total_sum.
  intros -> ->. exact id.
Qed.

Lemma census_aggregate_rep (rep : rep_stats_t) (stats : svn_fs_fs__stats_t) :
  census stats -> census (aggregate_rep rep stats).
Proof.
  apply census_same_histograms; unfold aggregate_rep;
    destruct (rs_kind rep); reflexivity.
Qed.

Ltac census_leaf :=
  first
    [ apply inv_census_record_change
    | apply (inv_conj all_unused_unreferenced (fun s => census (st_stats s)));
      [ first
          [ apply inv_kinds_alloc_rep; intros _; reflexivity
          | apply inv_kinds_update_rep; intros ? ?;
            first [ assumption
                  | apply add_reference_unused_unreferenced;
                    [destruct (decide _); discriminate|assumption] ]
          | unfold modify_stats; solve [inv_auto] ]
      | first
          [ apply inv_stats_alloc_rep | apply inv_stats_update_rep
          | apply inv_stats_alloc_info | apply inv_stats_update_info
          | apply inv_stats_push_revision | apply inv_stats_emit
          | apply inv_stats_modify_stats; intros ?;
            first [ apply census_aggregate_rep
                  | apply census_same_histograms; reflexivity ] ] ] ].

Section CensusInvariant.

Variable svn_cstring_strtoui64 : list Byte.byte -> Z -> Z -> Z -> result Z.
Variable call_cancel_func : ptr -> ptr -> list event -> option svn_error_t.

Let census_kept (s : state) : Prop :=
  all_unused_unreferenced s /\ census (st_stats s).

Lemma inv_census_read_noderev fuel :
  forall query file_content offset revision_info,
    inv census_kept (read_noderev fuel query file_content offset revision_info).
Proof.
  unfold census_kept.
  induction fuel as [|fuel IH]; intros; simpl; [apply inv_stop_with|].
  unfold_drivers. unfold parse_representation, find_representation.
  repeat (inv_step || census_leaf).
Qed.

Lemma inv_census_process_entries fuel query rev_file entries :
  forall i offset,
    inv census_kept (process_entries fuel query rev_file entries i offset).
Proof.
  pose proof inv_census_read_noderev as Hread. unfold census_kept in *.
  induction entries as [|entry entries IH]; intros; simpl; [apply inv_ret|].
  unfold_drivers. repeat (inv_step || census_leaf).
Qed.

Lemma inv_census_walk_blocks steps fuel query rev_file base max_offset :
  forall offset,
    inv census_kept
      (walk_blocks call_cancel_func steps fuel query rev_file base max_offset
         offset).
Proof.
  pose proof inv_census_process_entries as Hentries. unfold census_kept in *.
  induction steps as [|steps IH]; intros; simpl;
    unfold_drivers; repeat (inv_step || census_leaf).
Qed.

Lemma inv_census_read_packed_revisions steps fuel query :
  forall revision,
    inv census_kept
      (read_packed_revisions svn_cstring_strtoui64 call_cancel_func steps
         fuel query revision).
Proof.
  pose proof inv_census_read_noderev as Hread.
  pose proof inv_census_walk_blocks as Hwalk. unfold census_kept in *.
  induction steps as [|steps IH]; intros; simpl;
    unfold_drivers; repeat (inv_step || census_leaf).
Qed.

Lemma inv_census_read_revisions fuel query :
  inv census_kept
    (read_revisions svn_cstring_strtoui64 call_cancel_func fuel query).
Proof.
  pose proof inv_census_read_noderev as Hread.
  pose proof inv_census_walk_blocks as Hwalk.
  pose proof inv_census_read_packed_revisions as Hpacked.
  unfold census_kept in *.
  unfold_drivers. repeat (inv_step || census_leaf).
Qed.

Lemma inv_census_aggregate_stats : inv census_kept aggregate_stats.
Proof.
  unfold census_kept, aggregate_stats. repeat (inv_step || census_leaf).
Qed.

Lemma inv_census_create_query fs pf pb cf cb :
  inv census_kept (create_query fs pf pb cf cb).
Proof.
  unfold census_kept, create_query. repeat (inv_step || census_leaf).
Qed.

Lemma census_create_stats : census create_stats.
Proof.
  unfold census, histograms_partition, extensions_partition.
  split_and!; reflexivity.
Qed.

(** Whatever the outcome of [svn_fs_fs__get_stats], the histograms of the
    statistics object are consistent with each other. *)
Lemma get_stats_census fuel fs pf pb cf cb :
  census
    (st_stats
       (snd (svn_fs_fs__get_stats svn_cstring_strtoui64 call_cancel_func fuel
               fs pf pb cf cb))).
Proof.
  pose proof inv_census_read_revisions as Hread.
  pose proof inv_census_aggregate_stats as Haggregate.
  pose proof inv_census_create_query as Hquery.
  unfold census_kept in *. unfold svn_fs_fs__get_stats.
  assert (Hinv : inv (fun s => all_unused_unreferenced s
                               /\ census (st_stats s))
                   (query <- create_query fs pf pf cf cb ;;
                    read_revisions svn_cstring_strtoui64 call_cancel_func fuel
                      query ;;
                    aggregate_stats))
    by inv_auto.
  apply Hinv. split; [constructor|apply census_create_stats].
Qed.

End CensusInvariant.

(** X7.  The histogram of unused representations.  Whatever the outcome
    of [svn_fs_fs__get_stats], [unused_rep_histogram] is as [create_stats]
    left it: [add_change] is only called for a representation whose
    reference count is 1, and such a representation has been given one of
    the four other kinds. *)
Theorem get_stats_unused_rep_histogram_empty
    (svn_cstring_strtoui64 : list Byte.byte -> Z -> Z -> Z -> result Z)
    (call_cancel_func : ptr -> ptr -> list event -> option svn_error_t)
    (fuel : nat) (fs : svn_fs_t)
    (progress_func progress_baton cancel_func cancel_baton : ptr) :
  histograms
    (st_stats (snd (svn_fs_fs__get_stats svn_cstring_strtoui64
                      call_cancel_func fuel fs progress_func progress_baton
                      cancel_func cancel_baton)))
    unused_rep_histogram
  = zero_histogram.
Proof.
  apply (get_stats_census svn_cstring_strtoui64 call_cancel_func fuel fs
           progress_func progress_baton cancel_func cancel_baton).
Qed.



Lemma hash_get_set (h : list (string * svn_fs_fs__extension_info_t))
    (key : string) (v : svn_fs_fs__extension_info_t) :
  hash_get (hash_set h key v) key = Some v.
Proof.
  induction h as [|[k v'] h IH]; simpl.
  - rewrite String.eqb_refl. reflexivity.
  - destruct (String.eqb k key) eqn:Hk; simpl; rewrite Hk;
      [reflexivity|exact IH].
Qed.

Lemma hash_get_set_other (h : list (string * svn_fs_fs__extension_info_t))
    (key key' : string) (v : svn_fs_fs__extension_info_t) :
  key' <> key -> hash_get (hash_set h key v) key' = hash_get h key'.
Proof.
  intros Hne. induction h as [|[k v'] h IH]; simpl.
  - destruct (String.eqb_spec key key'); [congruence|reflexivity].
  - destruct (String.eqb_spec k key) as [->|Hk]; simpl.
    + destruct (String.eqb_spec key key'); [congruence|reflexivity].
    + destruct (String.eqb k key'); [reflexivity|exact IH].
Qed.

(** X10.  The table by extension.  An [add_change] for a file
    representation adds the two sizes to the histograms stored under the
    extension of the path, starting from empty histograms if the extension
    is new, and leaves the entry of every other extension as it is; for a
    representation of another kind the table does not change. *)
Theorem add_change_by_extension (stats stats' : svn_fs_fs__stats_t)
    (rep_size expanded_size revision : Z) (path : string) (kind : rep_kind_t)
    (plain_added : bool) :
  add_change stats rep_size expanded_size revision path kind plain_added
    = Some stats' ->
  if decide (kind = file_rep) then
    let extension := extension_of path in
    let old := default
                 (mk_extension_info extension zero_histogram zero_histogram)
                 (hash_get (by_extension stats) extension) in
    exists node_h rep_h,
      add_to_histogram (ei_node_histogram old) expanded_size = Some node_h
      /\ add_to_histogram (ei_rep_histogram old) rep_size = Some rep_h
      /\ hash_get (by_extension stats') extension
         = Some (mk_extension_info (ei_extension old) node_h rep_h)
      /\ forall key,
           key <> extension ->
           hash_get (by_extension stats') key
           = hash_get (by_extension stats) key
  else by_extension stats' = by_extension stats.
Proof.
  intros H. unfold add_change in H.
  apply bind_Some in H as (lc & _ & H).
  remember (set_largest_changes lc stats) as st0 eqn:Hst0.
  assert (Hext0 : by_extension st0 = by_extension stats)
    by (subst st0; reflexivity).
  clear Hst0.
  destruct kind, plain_added;
    repeat match goal with
           | H : mbind _ _ = Some _ |- _ =>
               let x := fresh "st" in
               let Hx := fresh "Hstep" in
               apply bind_Some in H as (x & Hx & H)
           end;
    repeat match goal with
           | H : add_to_stats_histogram _ _ _ = Some _ |- _ =>
               apply add_to_stats_histogram_total in H as (? & _ & _ & _)
           end;
    repeat match goal with
           | H : Some _ = Some ?b |- _ => injection H as H; subst b
           end;
    (destruct (decide _) as [Hkind|Hkind];
     [try discriminate Hkind|try (exfalso; apply Hkind; reflexivity)]);
    cbn [by_extension set_by_extension];
    repeat match goal with
           | H : by_extension ?st = _ |- _ => rewrite H in *; clear H
           end;
    try reflexivity.
  all: cbv zeta; eexists _, _;
    split_and!; [eassumption|eassumption|apply hash_get_set|];
    intros key Hkey; apply hash_get_set_other; exact Hkey.
Qed.

Lemma add_change_by_extension_witness :
  exists stats',
    add_change create_stats 5 7 0 "/trunk/a.txt" file_rep true = Some stats'
    /\ is_Some (hash_get (by_extension stats') ".txt")
    /\ hash_get (by_extension stats') ".c" = None.
Proof.
  destruct (add_change create_stats 5 7 0 "/trunk/a.txt" file_rep true)
    as [stats'|] eqn:Hadd; [|vm_compute in Hadd; discriminate].
  exists stats'. split; [reflexivity|].
  pose proof (add_change_by_extension _ _ _ _ _ _ _ _ Hadd) as H.
  cbv zeta in H. destruct (decide (file_rep = file_rep)); [|contradiction].
  destruct H as (node_h & rep_h & _ & _ & Hget & Hother).
  change (extension_of "/trunk/a.txt") with ".txt"%string in Hget, Hother.
  split; [rewrite Hget; eexists; reflexivity|].
  rewrite Hother by discriminate. reflexivity.
Defined.

(** ** The extension of a path *)






(** ** Aggregation of the revisions *)

Lemma aggregate_rep_revision_level (rep : rep_stats_t)
    (stats : svn_fs_fs__stats_t) :
  revisions_added [] stats (aggregate_rep rep stats)
  /\ revision_count (aggregate_rep rep stats) = revision_count stats.
Proof.
  unfold revisions_added, aggregate_rep, info_sum.
  destruct (rs_kind rep); cbn; split_and!; first [reflexivity|lia].
Qed.







(** ** The trailer of a revision *)

Lemma c_string_app (a b : list Byte.byte) :
  Forall (fun x => x <> nul) a -> c_string (a ++ b) = a ++ c_string b.
Proof.
  induction 1 as [|x a Hx _ IH]; simpl; [reflexivity|].
  destruct (Byte.eqb x nul) eqn:Hnul.
  - apply Byte.byte_dec_bl in Hnul. contradiction.
  - rewrite IH. reflexivity.
Qed.

Lemma c_string_terminated (a b : list Byte.byte) :
  Forall (fun x => x <> nul) a -> c_string (a ++ nul :: b) = a.
Proof.
  intros Ha. rewrite c_string_app by exact Ha. simpl. apply app_nil_r.
Qed.

Lemma byte_eqb_ne (x y : Byte.byte) : x <> y -> Byte.eqb x y = false.
Proof.
  intros Hne. destruct (Byte.eqb x y) eqn:H; [|reflexivity].
  apply Byte.byte_dec_bl in H. contradiction.
Qed.

Lemma bytes_strrchr_absent (s : list Byte.byte) (c : Byte.byte) :
  Forall (fun x => x <> c) s -> bytes_strrchr s c = None.
Proof.
  induction 1 as [|x s Hx _ IH]; simpl; [reflexivity|].
  rewrite IH, byte_eqb_ne by exact Hx. reflexivity.
Qed.

Lemma bytes_strrchr_last (a b : list Byte.byte) (c : Byte.byte) :
  Forall (fun x => x <> c) b ->
  bytes_strrchr (a ++ c :: b) c = Some (length a).
Proof.
  intros Hb. induction a as [|x a IH]; simpl.
  - rewrite bytes_strrchr_absent by exact Hb.
    rewrite (Byte.byte_dec_lb eq_refl). reflexivity.
  - rewrite IH. reflexivity.
Qed.

Lemma bytes_strchr_first (a b : list Byte.byte) (c : Byte.byte) :
  Forall (fun x => x <> c) a ->
  bytes_strchr (a ++ c :: b) c = Some (length a).
Proof.
  induction 1 as [|x a Hx _ IH]; simpl.
  - rewrite (Byte.byte_dec_lb eq_refl). reflexivity.
  - rewrite byte_eqb_ne by exact Hx. rewrite IH. reflexivity.
Qed.

Lemma insert_middle {A} (a b : list A) (x y : A) :
  <[length a := y]> (a ++ x :: b) = a ++ y :: b.
Proof. induction a as [|z a IH]; simpl; [reflexivity|]. f_equal. exact IH. Qed.

(** The last 64 bytes of a revision that ends in [trailer]. *)
Lemma read_revision_header_window (body trailer : list Byte.byte) :
  (1 <= length trailer <= 64)%nat ->
  let data := body ++ trailer in
  let len := Z.min 64 (Z.of_nat (length data)) in
  take (Z.to_nat len) (drop (Z.to_nat (Z.of_nat (length data) - len)) data)
  = drop (length data - 64) body ++ trailer
  /\ Z.of_nat (length (drop (length data - 64) body ++ trailer)) = len
  /\ 0 < len.
Proof.
  intros Hlen data len.
  assert (Hdata : length data = (length body + length trailer)%nat)
    by (unfold data; apply length_app).
  assert (Hn : Z.to_nat (Z.of_nat (length data) - len)
               = (length data - 64)%nat) by (unfold len; lia).
  rewrite Hn. unfold data at 2. rewrite drop_app_le by lia.
  assert (Hwin : length (drop (length data - 64) body ++ trailer)
                 = Z.to_nat len).
  { rewrite length_app, length_drop. unfold len. lia. }
  split_and!.
  - apply take_ge. rewrite Hwin. lia.
  - rewrite Hwin. unfold len. lia.
  - unfold len. lia.
Qed.

(** X13.  Reading the trailer of a revision.  For a revision whose last
    line is [root], a space, [changes] and a newline, where the line is
    preceded by a newline, fits the last 64 bytes with it, and holds no
    other space or newline, where these 64 bytes hold no NUL, and where
    [svn_cstring_strtoui64] reads [root] as [r] and [changes] as [c],
    [read_revision_header] yields the root node-revision offset [r], the
    changes offset [c], and as length of the changes the distance from
    [c] to the start of the last line, each in [apr_size_t]. *)
Theorem read_revision_header_trailer
    (svn_cstring_strtoui64 : list Byte.byte -> Z -> Z -> Z -> result Z)
    (body root changes : list Byte.byte) (r c : Z) (s : state) :
  let trailer := newline :: root ++ space :: changes ++ [newline] in
  let data := body ++ trailer in
  (length trailer <= 64)%nat ->
  Forall (fun b => b <> nul) (drop (length data - 64) body) ->
  Forall (fun b => b <> nul /\ b <> newline /\ b <> space) root ->
  Forall (fun b => b <> nul /\ b <> newline) changes ->
  svn_cstring_strtoui64 root 0 APR_SIZE_MAX 10 = Ok r ->
  svn_cstring_strtoui64 changes 0 APR_SIZE_MAX 10 = Ok c ->
  read_revision_header svn_cstring_strtoui64
    (mk_stringbuf data (Z.of_nat (length data))) s
  = (Ok (to_size c,
         to_size (Z.of_nat (length body) + 1 - to_size c),
         to_size r), s).
Proof.
  intros trailer data Hfit Hbody Hroot Hchanges Hr Hc.
  assert (Htrailer : (1 <= length trailer <= 64)%nat)
    by (split; [unfold trailer; simpl; lia|exact Hfit]).
  destruct (read_revision_header_window body trailer Htrailer)
    as (Hwin & Hlen & Hpos).
  fold data in Hwin, Hlen, Hpos.
  unfold read_revision_header. cbn [sb_len sb_data]. cbv zeta.
  rewrite Hwin.
  set (len := Z.min 64 (Z.of_nat (length data))) in *.
  set (pre := drop (length data - 64) body) in *.
  rewrite Hlen, Z.eqb_refl. cbn [negb].
  destruct (Z.leb_spec len 0) as [Hle|_]; [lia|].
  set (front := pre ++ newline :: root ++ space :: changes).
  assert (Hbuf : pre ++ trailer = front ++ [newline]).
  { unfold front, trailer. rewrite <- !app_assoc. simpl.
    rewrite <- !app_assoc. reflexivity. }
  assert (Hlast : Z.to_nat (len - 1) = length front).
  { rewrite <- Hlen, Hbuf, length_app. simpl. lia. }
  rewrite Hbuf, Hlast.
  unfold bind at 1. unfold defined at 1.
  rewrite list_lookup_middle by reflexivity.
  unfold ret at 1. cbv beta iota.
  rewrite (Byte.byte_dec_lb eq_refl). cbn [negb].
  rewrite insert_middle.
  assert (Hroot_nul : Forall (fun b => b <> nul) root)
    by (eapply Forall_impl; [exact Hroot|]; intros ? (? & _); assumption).
  assert (Hroot_newline : Forall (fun b => b <> newline) root)
    by (eapply Forall_impl; [exact Hroot|]; intros ? (_ & ? & _); assumption).
  assert (Hroot_space : Forall (fun b => b <> space) root)
    by (eapply Forall_impl; [exact Hroot|]; intros ? (_ & _ & ?); assumption).
  assert (Hchanges_nul : Forall (fun b => b <> nul) changes)
    by (eapply Forall_impl; [exact Hchanges|]; intros ? (? & _); assumption).
  assert (Hchanges_newline : Forall (fun b => b <> newline) changes)
    by (eapply Forall_impl; [exact Hchanges|]; intros ? (_ & ?); assumption).
  assert (Hfront : Forall (fun b => b <> nul) front).
  { unfold front. apply Forall_app. split; [exact Hbody|].
    constructor; [discriminate|]. apply Forall_app. split; [exact Hroot_nul|].
    constructor; [discriminate|exact Hchanges_nul]. }
  rewrite (c_string_terminated front []) by exact Hfront.
  unfold front at 1.
  rewrite bytes_strrchr_last
    by (apply Forall_app; split; [exact Hroot_newline|];
        constructor; [discriminate|exact Hchanges_newline]).
  unfold front at 1. rewrite <- app_assoc. rewrite drop_app_length.
  rewrite (c_string_terminated (newline :: root ++ space :: changes) [])
    by (constructor; [discriminate|]; apply Forall_app; split;
        [exact Hroot_nul|constructor; [discriminate|exact Hchanges_nul]]).
  change (newline :: root ++ space :: changes)
    with ((newline :: root) ++ space :: changes).
  rewrite bytes_strchr_first
    by (constructor; [discriminate|exact Hroot_space]).
  assert (Hsplit : front ++ [nul]
                   = (pre ++ newline :: root) ++ space :: changes ++ [nul]).
  { unfold front. rewrite <- !app_assoc. simpl. rewrite <- !app_assoc.
    reflexivity. }
  assert (Hspace : (length pre + length (newline :: root))%nat
                   = length (pre ++ newline :: root))
    by (rewrite length_app; reflexivity).
  rewrite Hsplit, Hspace, insert_middle.
  assert (Hline : drop (S (length pre))
                    ((pre ++ newline :: root) ++ nul :: changes ++ [nul])
                  = root ++ nul :: changes ++ [nul]).
  { rewrite <- app_assoc. simpl.
    change (S (length pre)) with (1 + length pre)%nat.
    rewrite Nat.add_comm, drop_app_add. reflexivity. }
  assert (Hrest : drop (S (length (pre ++ newline :: root)))
                    ((pre ++ newline :: root) ++ nul :: changes ++ [nul])
                  = changes ++ [nul]).
  { change (S (length (pre ++ newline :: root)))
      with (1 + length (pre ++ newline :: root))%nat.
    rewrite Nat.add_comm, drop_app_add. reflexivity. }
  rewrite Hline, Hrest.
  rewrite c_string_terminated by exact Hroot_nul.
  rewrite (c_string_terminated changes []) by exact Hchanges_nul.
  unfold bind, lift_result. rewrite Hr, Hc. unfold ret.
  repeat f_equal.
  assert (Hdata : Z.of_nat (length data)
                  = Z.of_nat (length body) + Z.of_nat (length trailer))
    by (unfold data; rewrite length_app; lia).
  assert (Hwindow : len = Z.of_nat (length pre) + Z.of_nat (length trailer))
    by (rewrite <- Hlen, length_app; lia).
  lia.
Qed.

Lemma read_revision_header_trailer_witness :
  read_revision_header decimal_strtoui64
    (mk_stringbuf (sample_body ++ sample_trailer) 8) (initial_state create_stats)
  = (Ok (1, 2, 12), initial_state create_stats).
Proof.
  apply (read_revision_header_trailer decimal_strtoui64 sample_body
           [Byte.x31; Byte.x32] [Byte.x31] 12 1 (initial_state create_stats)).
  - simpl. lia.
  - repeat constructor; discriminate.
  - repeat constructor; discriminate.
  - repeat constructor; discriminate.
  - reflexivity.
  - reflexivity.
Defined.

Lemma c_string_Forall (P : Byte.byte -> Prop) (s : list Byte.byte) :
  Forall P s -> Forall P (c_string s).
Proof.
  induction 1 as [|x s Hx _ IH]; simpl; [constructor|].
  destruct (Byte.eqb x nul); constructor; assumption.
Qed.

(** X14.  The revisions that [read_revision_header] rejects.  It returns
    the error SVN_ERR_FS_CORRUPT, and leaves the store as it is: with the
    message about the trailing newline for a revision whose last byte is
    not a newline; with the message about the final line for a revision
    that ends in a newline and holds no other newline in its last 64
    bytes; and with the message about the missing space for a revision
    whose last line, preceded by a newline within the last 64 bytes that
    hold no NUL, holds no space. *)
Theorem read_revision_header_corrupt
    (svn_cstring_strtoui64 : list Byte.byte -> Z -> Z -> Z -> result Z)
    (body line : list Byte.byte) (last : Byte.byte) (s : state) :
  let header data :=
    read_revision_header svn_cstring_strtoui64
      (mk_stringbuf data (Z.of_nat (length data))) s in
  (last <> newline ->
   header (body ++ [last])
   = (Stop (Failed (SVN_ERR_FS_CORRUPT "Revision lacks trailing newline")), s))
  /\ (Forall (fun b => b <> newline)
        (drop (length (body ++ [newline]) - 64) body) ->
      header (body ++ [newline])
      = (Stop (Failed (SVN_ERR_FS_CORRUPT
                         "Final line in revision file longer than 64 characters")),
         s))
  /\ ((length line + 2 <= 64)%nat ->
      Forall (fun b => b <> nul)
        (drop (length (body ++ newline :: line ++ [newline]) - 64) body) ->
      Forall (fun b => b <> nul /\ b <> newline /\ b <> space) line ->
      header (body ++ newline :: line ++ [newline])
      = (Stop (Failed (SVN_ERR_FS_CORRUPT
                         "Final line in revision file missing space")),
         s)).
Proof.
  cbv zeta. split_and!.
  - intros Hlast.
    destruct (read_revision_header_window body [last]) as (Hwin & Hlen & Hpos);
      [simpl; lia|].
    unfold read_revision_header. cbn [sb_len sb_data]. cbv zeta.
    rewrite Hwin.
    set (len := Z.min 64 (Z.of_nat (length (body ++ [last])))) in *.
    set (pre := drop (length (body ++ [last]) - 64) body) in *.
    rewrite Hlen, Z.eqb_refl. cbn [negb].
    destruct (Z.leb_spec len 0) as [Hle|_]; [lia|].
    assert (Hidx : Z.to_nat (len - 1) = length pre)
      by (rewrite <- Hlen, length_app; simpl; lia).
    rewrite Hidx. unfold bind at 1. unfold defined at 1.
    rewrite list_lookup_middle by reflexivity.
    unfold ret at 1. cbv beta iota.
    rewrite byte_eqb_ne by exact Hlast. reflexivity.
  - intros Hpre.
    destruct (read_revision_header_window body [newline])
      as (Hwin & Hlen & Hpos); [simpl; lia|].
    unfold read_revision_header. cbn [sb_len sb_data]. cbv zeta.
    rewrite Hwin.
    set (len := Z.min 64 (Z.of_nat (length (body ++ [newline])))) in *.
    set (pre := drop (length (body ++ [newline]) - 64) body) in *.
    rewrite Hlen, Z.eqb_refl. cbn [negb].
    destruct (Z.leb_spec len 0) as [Hle|_]; [lia|].
    assert (Hidx : Z.to_nat (len - 1) = length pre)
      by (rewrite <- Hlen, length_app; simpl; lia).
    rewrite Hidx. unfold bind at 1. unfold defined at 1.
    rewrite list_lookup_middle by reflexivity.
    unfold ret at 1. cbv beta iota.
    rewrite (Byte.byte_dec_lb eq_refl). cbn [negb].
    rewrite insert_middle.
    rewrite bytes_strrchr_absent; [reflexivity|].
    apply c_string_Forall. apply Forall_app. split; [exact Hpre|].
    constructor; [discriminate|constructor].
  - intros Hfit Hbody Hline.
    destruct (read_revision_header_window body (newline :: line ++ [newline]))
      as (Hwin & Hlen & Hpos); [simpl; rewrite length_app; simpl; lia|].
    unfold read_revision_header. cbn [sb_len sb_data]. cbv zeta.
    rewrite Hwin.
    set (len := Z.min 64
                  (Z.of_nat (length (body ++ newline :: line ++ [newline]))))
      in *.
    set (pre := drop (length (body ++ newline :: line ++ [newline]) - 64) body)
      in *.
    rewrite Hlen, Z.eqb_refl. cbn [negb].
    destruct (Z.leb_spec len 0) as [Hle|_]; [lia|].
    set (front := pre ++ newline :: line).
    assert (Hbuf : pre ++ newline :: line ++ [newline] = front ++ [newline]).
    { unfold front. rewrite <- app_assoc. reflexivity. }
    assert (Hidx : Z.to_nat (len - 1) = length front).
    { rewrite <- Hlen, Hbuf, length_app. simpl. lia. }
    rewrite Hbuf, Hidx. unfold bind at 1. unfold defined at 1.
    rewrite list_lookup_middle by reflexivity.
    unfold ret at 1. cbv beta iota.
    rewrite (Byte.byte_dec_lb eq_refl). cbn [negb].
    rewrite insert_middle.
    assert (Hline_nul : Forall (fun b => b <> nul) line)
      by (eapply Forall_impl; [exact Hline|]; intros ? (? & _); assumption).
    assert (Hline_newline : Forall (fun b => b <> newline) line)
      by (eapply Forall_impl; [exact Hline|]; intros ? (_ & ? & _);
          assumption).
    assert (Hline_space : Forall (fun b => b <> space) line)
      by (eapply Forall_impl; [exact Hline|]; intros ? (_ & _ & ?);
          assumption).
    rewrite (c_string_terminated front [])
      by (unfold front; apply Forall_app; split; [exact Hbody|];
          constructor; [discriminate|exact Hline_nul]).
    unfold front at 1. rewrite bytes_strrchr_last by exact Hline_newline.
    unfold front. rewrite <- app_assoc, drop_app_length.
    rewrite (c_string_terminated (newline :: line) [])
      by (constructor; [discriminate|exact Hline_nul]).
    assert (Hnone : bytes_strchr (newline :: line) space = None).
    { simpl. clear -Hline_space.
      induction Hline_space as [|x l Hx _ IH]; simpl; [reflexivity|].
      rewrite byte_eqb_ne by exact Hx.
      simpl in IH. destruct (bytes_strchr l space); [discriminate|reflexivity]. }
    rewrite Hnone. reflexivity.
Qed.

Lemma read_revision_header_corrupt_witness :
  read_revision_header decimal_strtoui64
    (mk_stringbuf (sample_body ++ [Byte.x0a; Byte.x31; Byte.x32; Byte.x0a]) 6)
    (initial_state create_stats)
  = (Stop (Failed (SVN_ERR_FS_CORRUPT
                     "Final line in revision file missing space")),
     initial_state create_stats).
Proof.
  apply (read_revision_header_corrupt decimal_strtoui64 sample_body
           [Byte.x31; Byte.x32] Byte.x0a (initial_state create_stats)).
  - simpl. lia.
  - repeat constructor; discriminate.
  - repeat constructor; discriminate.
Defined.

(** ** The number of revisions of a run that succeeds *)

Section RevisionCount.

Variable svn_cstring_strtoui64 : list Byte.byte -> Z -> Z -> Z -> result Z.
Variable call_cancel_func : ptr -> ptr -> list event -> option svn_error_t.

(** The value the loop over the pack files leaves in [revision]: the
    first value from [revision] on, in steps of the shard size, that is not
    below [min_unpacked_rev]. *)
Lemma read_packed_revisions_value steps fuel query :
  forall revision s r s',
    read_packed_revisions svn_cstring_strtoui64 call_cancel_func steps fuel
      query revision s = (Ok r, s') ->
    q_min_unpacked_rev query <= r
    /\ exists k : nat,
         r = revision + Z.of_nat k * q_shard_size query
         /\ ((0 < k)%nat -> r - q_shard_size query < q_min_unpacked_rev query).
Proof.
  induction steps as [|steps IH]; intros revision s r s' Hrun; simpl in Hrun;
    destruct (Z.ltb_spec revision (q_min_unpacked_rev query)) as [Hlt|Hge];
    try discriminate;
    try (inversion Hrun; subst; split; [exact Hge|];
         exists 0%nat; split; [lia|intros H; inversion H]).
  apply bind_Ok in Hrun as (? & s1 & _ & Hrest).
  apply IH in Hrest as (Hmin & k & Hr & Hk).
  split; [exact Hmin|]. exists (S k). split; [lia|].
  intros _. destruct k as [|k]; [lia|]. apply Hk. lia.
Qed.

Lemma read_revisions_count fuel query s s' :
  view_upto 0 (rev_view s) ->
  read_revisions svn_cstring_strtoui64 call_cancel_func fuel query s
    = (Ok tt, s') ->
  exists r,
    0 <= r
    /\ q_min_unpacked_rev query <= r
    /\ (exists k : nat,
          r = Z.of_nat k * q_shard_size query
          /\ ((0 < k)%nat ->
              r - q_shard_size query < q_min_unpacked_rev query))
    /\ length (st_revisions s')
       = (Z.to_nat r + Z.to_nat (q_head query - r + 1))%nat.
Proof.
  intros Hs Hrun. unfold read_revisions in Hrun.
  apply bind_Ok in Hrun as (r & s1 & Hpacked & Hloop).
  pose proof (triple_read_packed_revisions svn_cstring_strtoui64
                call_cancel_func fuel fuel query 0 s) as Htriple.
  rewrite Hpacked in Htriple.
  destruct Htriple as [Hs1 Hr].
  { destruct Hs as [Hs Hlen]. split; [exact Hs|]. left. simpl in Hlen.
    rewrite Hlen. reflexivity. }
  apply read_packed_revisions_value in Hpacked as (Hmin & k & Hk & Hlast).
  exists r. split_and!; [lia|exact Hmin|exists k; split; [lia|exact Hlast]|].
  rewrite seqZ_of_nat in Hloop.
  pose proof (triple_for_each_seqZ
                (fun k s => view_upto k (rev_view s)) revisions_indexed
                (fun revision =>
                   if svn_fs_fs__use_log_addressing (q_fs query)
                   then read_log_revision_file call_cancel_func fuel query
                          revision
                   else read_phys_revision_file svn_cstring_strtoui64
                          call_cancel_func fuel query revision)
                (Z.to_nat (q_head query - r + 1))
                r (Z.to_nat r)) as Hfor.
  cbv beta in Hfor.
  assert (Hbody : forall k : nat,
             (k < Z.to_nat (q_head query - r + 1))%nat ->
             triple
               (fun s => view_upto (Z.to_nat r + k) (rev_view s))
               (if svn_fs_fs__use_log_addressing (q_fs query)
                then read_log_revision_file call_cancel_func fuel query
                       (r + Z.of_nat k)
                else read_phys_revision_file svn_cstring_strtoui64
                       call_cancel_func fuel query (r + Z.of_nat k))
               (fun _ s => view_upto (S (Z.to_nat r + k)) (rev_view s))
               revisions_indexed).
  { intros j Hj.
    replace (r + Z.of_nat j) with (Z.of_nat (Z.to_nat r + j)) by lia.
    destruct (svn_fs_fs__use_log_addressing (q_fs query));
      [apply triple_read_log_revision_file
      |apply triple_read_phys_revision_file]. }
  specialize (Hfor Hbody s1 Hs1). rewrite Hloop in Hfor.
  destruct Hfor as [_ Hlen]. exact Hlen.
Qed.

Lemma aggregate_stats_revision_count (s : state) :
  let s' := snd (aggregate_stats s) in
  st_revisions s' = st_revisions s
  /\ revision_count (st_stats s') = Z.of_nat (length (st_revisions s)).
Proof.
  cbv zeta. split.
  - pose proof (inv_view_aggregate_stats (rev_view s) s eq_refl) as Hview.
    cbv beta in Hview. apply (f_equal fst) in Hview. exact Hview.
  - set (n := Z.of_nat (length (st_revisions s))).
    unfold aggregate_stats. unfold bind at 1. unfold get_state at 1.
    cbv beta iota. fold n.
    assert (Hinv : inv (fun s => revision_count (st_stats s) = n)
                     (for_each (st_revisions s) (fun p =>
                        revision <- read_info p ;;
                        modify_stats (aggregate_revision revision) ;;
                        for_each (ri_representations revision) (fun k =>
                          rep <- read_rep k ;;
                          modify_stats (aggregate_rep rep))))).
    { repeat (inv_step
              || (apply (inv_stats_modify_stats
                           (fun stats => revision_count stats = n));
                  intros stats Hstats;
                  first [ exact Hstats
                        | rewrite (proj2 (aggregate_rep_revision_level _ _));
                          exact Hstats ])). }
    unfold bind at 1.
    change (modify_stats (set_revision_count n) s)
      with (Ok tt, with_stats (set_revision_count n (st_stats s)) s).
    cbv beta iota. apply Hinv. reflexivity.
Qed.

End RevisionCount.

(** X15.  The revisions of a run that succeeds.  When
    [svn_fs_fs__get_stats] returns without error on a repository whose
    youngest revision is [head], at least 0, and whose first unpacked
    revision is a multiple of the shard size and at most [head + 1], then
    [query->revisions] holds [head + 1] elements and [revision_count] is
    [head + 1]. *)
Theorem get_stats_revision_count
    (svn_cstring_strtoui64 : list Byte.byte -> Z -> Z -> Z -> result Z)
    (call_cancel_func : ptr -> ptr -> list event -> option svn_error_t)
    (fuel : nat) (fs : svn_fs_t)
    (progress_func progress_baton cancel_func cancel_baton : ptr)
    (head min_unpacked_rev packs : Z) (s : state) :
  svn_fs_fs__get_stats svn_cstring_strtoui64 call_cancel_func fuel fs
    progress_func progress_baton cancel_func cancel_baton = (Ok tt, s) ->
  svn_fs_fs__youngest_rev fs = Ok head ->
  svn_fs_fs__min_unpacked_rev fs = Ok min_unpacked_rev ->
  0 <= head ->
  min_unpacked_rev <= head + 1 ->
  min_unpacked_rev = packs * svn_fs_fs__shard_size fs ->
  Z.of_nat (length (st_revisions s)) = head + 1
  /\ revision_count (st_stats s) = head + 1.
Proof.
  intros Hrun Hhead Hmin Hpos Hle Hpacks.
  unfold svn_fs_fs__get_stats in Hrun.
  apply bind_Ok in Hrun as (query & s1 & Hquery & Hrun).
  apply create_query_fields in Hquery
    as (_ & _ & _ & _ & _ & Hshard & Hhead' & Hmin' & _ & _ & Hrevs & Hinfos).
  rewrite Hhead in Hhead'. inversion Hhead' as [Hh].
  rewrite Hmin in Hmin'. inversion Hmin' as [Hm].
  apply bind_Ok in Hrun as ([] & s2 & Hread & Hagg).
  assert (H1 : view_upto 0 (rev_view s1)).
  { unfold rev_view. rewrite Hrevs, Hinfos. simpl.
    split; [|reflexivity]. intros i p Hi. inversion Hi. }
  destruct (read_revisions_count svn_cstring_strtoui64 call_cancel_func fuel
              query s1 s2 H1 Hread)
    as (r & Hr & Hrmin & (k & Hk & Hlast) & Hlen).
  rewrite <- Hh, <- Hm, Hshard in *.
  destruct (aggregate_stats_revision_count s2) as [Hsame Hcount].
  cbv zeta in Hsame, Hcount. rewrite Hagg in Hsame, Hcount.
  cbn [snd] in Hsame, Hcount. rewrite Hcount, Hsame.
  assert (Hr' : r = min_unpacked_rev \/ r = 0).
  { destruct k as [|k]; [right; lia|]. left.
    specialize (Hlast ltac:(lia)).
    set (shard := svn_fs_fs__shard_size fs) in *.
    destruct (Z.lt_trichotomy shard 0) as [Hneg|[Hzero|Hshard_pos]];
      [nia|rewrite Hzero in *; lia|].
    assert (Hlow : Z.of_nat (S k) - 1 < packs) by nia.
    assert (Hhigh : packs <= Z.of_nat (S k)) by nia.
    assert (Heq : packs = Z.of_nat (S k)) by lia.
    rewrite Hpacks, Hk, Heq. reflexivity. }
  split; destruct Hr'; lia.
Qed.

Lemma get_stats_revision_count_witness :
  Z.of_nat (length (st_revisions (snd sample_progress_run))) = 2
  /\ revision_count (st_stats (snd sample_progress_run)) = 2.
Proof.
  apply (get_stats_revision_count no_strtoui64 never_cancel 5
           (sample_log_fs 0 10) 77 88 0 0 1 0 0 (snd sample_progress_run)).
  - vm_compute. reflexivity.
  - reflexivity.
  - reflexivity.
  - lia.
  - lia.
  - reflexivity.
Defined.

(** ** The node-revision counters *)

Lemma inv_info_alloc_rep info i r :
  inv (info_but_representations info i) (alloc_rep r).
Proof. inv_prim. Qed.
Lemma inv_info_update_rep info i p f :
  inv (info_but_representations info i) (update_rep p f).
Proof. inv_prim. Qed.
Lemma inv_info_write_stats info i st :
  inv (info_but_representations info i) (write_stats st).
Proof. inv_prim. Qed.

Lemma inv_info_update_info info i p v :
  inv (info_but_representations info i)
    (update_info p (set_ri_representations v)).
Proof.
  intros s [reps Hs]. unfold update_info, info_but_representations.
  destruct (st_infos s !! p) as [ip|] eqn:Hp; cbn [snd st_infos];
    [|exists reps; exact Hs].
  destruct (decide (p = info)) as [->|Hne].
  - exists v. rewrite list_lookup_insert_eq
      by (apply lookup_lt_is_Some_1; eauto).
    rewrite Hs in Hp. injection Hp as <-. reflexivity.
  - exists reps. rewrite list_lookup_insert_ne by exact Hne. exact Hs.
Qed.

#[export] Hint Resolve inv_info_alloc_rep inv_info_update_rep
  inv_info_write_stats inv_info_update_info : inv.

Ltac info_leaf := progress unfold record_change.

(** X16.  What [read_noderev] counts.  When [read_noderev] returns
    without error for a node-revision it does not descend from (a file, or
    any node in logical addressing), the [revision_info_t] it was given is
    as before but for its array of representations and for the count and
    the size of the node-revisions of the node's kind: the count has grown
    by one and the size by the length of the node-revision, both in
    [apr_size_t]. *)
Theorem read_noderev_counts (fuel : nat) (query : query_t)
    (file_content : svn_stringbuf_t) (offset : Z) (info : info_ptr)
    (nr : node_revision_t) (i : revision_info_t) (s s' : state) :
  read_noderev (S fuel) query file_content offset info s = (Ok tt, s') ->
  noderev_at query file_content offset = Ok nr ->
  no_descent query nr ->
  st_infos s !! info = Some i ->
  exists representations,
    st_infos s' !! info
    = Some (set_ri_representations representations
              (if decide (nr_kind nr = svn_node_dir)
               then set_ri_dir_noderev
                      (to_size (ri_dir_noderev_count i + 1))
                      (to_size (ri_dir_noderev_size i
                                + noderev_len file_content offset)) i
               else set_ri_file_noderev
                      (to_size (ri_file_noderev_count i + 1))
                      (to_size (ri_file_noderev_size i
                                + noderev_len file_content offset)) i)).
Proof.
  intros Hrun Hnr Hflat Hinfo. cbn [read_noderev] in Hrun.
  destruct (Z.of_nat (length (sb_data file_content)) <? offset);
    [discriminate|].
  apply bind_Ok in Hrun as (nr' & s0 & Hnr' & Hrun).
  unfold lift_result in Hnr'. injection Hnr' as Hnr' <-.
  unfold noderev_at in Hnr. rewrite Hnr in Hnr'. injection Hnr' as <-.
  assert (H0 : info_but_representations info i s).
  { exists (ri_representations i). rewrite Hinfo. destruct i; reflexivity. }
  apply bind_Ok in Hrun as (text & s1 & Htext & Hrun).
  assert (H1 : info_but_representations info i s1).
  { assert (Hinv : inv (info_but_representations info i)
                     (match nr_data_rep nr with
                      | Some data_rep =>
                          text <- parse_representation query data_rep info ;;
                          update_rep text
                            (add_reference
                               (if decide (nr_kind nr = svn_node_dir)
                                then dir_rep else file_rep)) ;;
                          ret (Some text)
                      | None => ret None
                      end))
      by (unfold_stats; repeat (inv_step || info_leaf)).
    apply Hinv in H0. rewrite Htext in H0. exact H0. }
  apply bind_Ok in Hrun as (props & s2 & Hprops & Hrun).
  assert (H2 : info_but_representations info i s2).
  { assert (Hinv : inv (info_but_representations info i)
                     (match nr_prop_rep nr with
                      | Some prop_rep =>
                          props <- parse_representation query prop_rep info ;;
                          update_rep props
                            (add_reference
                               (if decide (nr_kind nr = svn_node_dir)
                                then dir_property_rep
                                else file_property_rep)) ;;
                          ret (Some props)
                      | None => ret None
                      end))
      by (unfold_stats; repeat (inv_step || info_leaf)).
    apply Hinv in H1. rewrite Hprops in H1. exact H1. }
  apply bind_Ok in Hrun as (u1 & s3 & Hrc1 & Hrun).
  assert (H3 : info_but_representations info i s3).
  { assert (Hinv : inv (info_but_representations info i)
                     (record_change text nr))
      by repeat (inv_step || info_leaf).
    apply Hinv in H2. rewrite Hrc1 in H2. exact H2. }
  apply bind_Ok in Hrun as (u2 & s4 & Hrc2 & Hrun).
  assert (H4 : info_but_representations info i s4).
  { assert (Hinv : inv (info_but_representations info i)
                     (record_change props nr))
      by repeat (inv_step || info_leaf).
    apply Hinv in H3. rewrite Hrc2 in H3. exact H3. }
  apply bind_Ok in Hrun as (first_use & s5 & Hfirst & Hrun).
  assert (H5 : info_but_representations info i s5).
  { assert (Hinv : inv (info_but_representations info i)
                     (match text with
                      | Some p => r <- read_rep p ;; ret (rs_ref_count r =? 1)
                      | None => ret false
                      end))
      by inv_auto.
    apply Hinv in H4. rewrite Hfirst in H4. exact H4. }
  apply bind_Ok in Hrun as (u3 & s6 & Hdir & Hrun).
  assert (H6 : info_but_representations info i s6).
  { replace (bool_decide (nr_kind nr = svn_node_dir) && first_use
             && negb (svn_fs_fs__use_log_addressing (q_fs query)))
      with false in Hdir.
    - injection Hdir as _ <-. exact H5.
    - destruct Hflat as [Hkind|Hlog].
      + rewrite bool_decide_eq_false_2 by exact Hkind. reflexivity.
      + rewrite Hlog. rewrite andb_false_r. reflexivity. }
  destruct H6 as [representations H6]. exists representations.
  fold (noderev_len file_content offset) in Hrun.
  destruct (decide (nr_kind nr = svn_node_dir));
    unfold update_info in Hrun; rewrite H6 in Hrun;
    injection Hrun as <-; cbn [st_infos];
    (rewrite list_lookup_insert_eq by (apply lookup_lt_is_Some_1; eauto));
    reflexivity.
Qed.

Lemma read_noderev_counts_witness :
  exists i',
    st_infos sample_first_parsed !! 0%nat = Some i'
    /\ ri_file_noderev_count i' = 1
    /\ ri_file_noderev_size i' = 2
    /\ ri_dir_noderev_count i' = 0.
Proof.
  destruct (read_noderev_counts 0 sample_query sample_content 0 0%nat
              (sample_file_node 3 "/a.txt")
              (set_ri_end 20 (set_ri_revision 0 zero_revision_info))
              sample_walk_store sample_first_parsed)
    as [representations Hinfo].
  - vm_compute. reflexivity.
  - reflexivity.
  - right. reflexivity.
  - reflexivity.
  - eexists. split; [exact Hinfo|]. split_and!; reflexivity.
Defined.

(** ** The arrays of representations of a run *)

(** X17.  The arrays of representations.  Whatever the outcome of
    [svn_fs_fs__get_stats], the array of representations of every
    [revision_info_t] holds pointers to representations of the store in
    strictly ascending order of their offsets, and no representation is in
    the arrays of two [revision_info_t]. *)
Theorem get_stats_arrays_sorted
    (svn_cstring_strtoui64 : list Byte.byte -> Z -> Z -> Z -> result Z)
    (call_cancel_func : ptr -> ptr -> list event -> option svn_error_t)
    (fuel : nat) (fs : svn_fs_t)
    (progress_func progress_baton cancel_func cancel_baton : ptr) :
  let s := snd (svn_fs_fs__get_stats svn_cstring_strtoui64 call_cancel_func
                  fuel fs progress_func progress_baton cancel_func
                  cancel_baton) in
  (forall (t : info_ptr) (info : revision_info_t) (i j : nat)
          (p q : rep_ptr),
      st_infos s !! t = Some info ->
      (i < j)%nat ->
      ri_representations info !! i = Some p ->
      ri_representations info !! j = Some q ->
      exists rp rq,
        st_reps s !! p = Some rp /\ st_reps s !! q = Some rq
        /\ rs_offset rp < rs_offset rq)
  /\ (forall (t : info_ptr) (info : revision_info_t) (p : rep_ptr),
         st_infos s !! t = Some info ->
         p ∈ ri_representations info ->
         is_Some (st_reps s !! p))
  /\ (forall (t t' : info_ptr) (info info' : revision_info_t) (p : rep_ptr),
         st_infos s !! t = Some info ->
         st_infos s !! t' = Some info' ->
         p ∈ ri_representations info ->
         p ∈ ri_representations info' ->
         t = t').
Proof.
  intros s.
  pose proof (get_stats_arrays_in_order svn_cstring_strtoui64
                call_cancel_func fuel fs progress_func progress_baton
                cancel_func cancel_baton) as [Harrays Hdisjoint].
  fold s in Harrays, Hdisjoint. cbn [reg_view fst snd] in Harrays, Hdisjoint.
  assert (Hview : forall t info,
             st_infos s !! t = Some info ->
             ((fun i => (ri_revision i, ri_representations i)) <$> st_infos s)
               !! t = Some (ri_revision info, ri_representations info)).
  { intros t info Ht. rewrite list_lookup_fmap, Ht. reflexivity. }
  split_and!.
  - intros t info i j p q Ht Hij Hp Hq.
    destruct (Harrays _ _ _ (Hview t info Ht)) as [_ Hsorted].
    destruct (Hsorted i j p q Hij Hp Hq) as (x & y & Hx & Hy & Hlt).
    unfold offset_at in Hx, Hy. rewrite list_lookup_fmap in Hx, Hy.
    destruct (st_reps s !! p) as [rp|]; [|discriminate].
    destruct (st_reps s !! q) as [rq|]; [|discriminate].
    injection Hx as <-. injection Hy as <-.
    exists rp, rq. split_and!; [reflexivity|reflexivity|exact Hlt].
  - intros t info p Ht Hp.
    destruct (Harrays _ _ _ (Hview t info Ht)) as [Hvalid _].
    apply Hvalid in Hp. rewrite length_fmap in Hp.
    apply lookup_lt_is_Some_2. exact Hp.
  - intros t t' info info' p Ht Ht' Hp Hp'.
    exact (Hdisjoint _ _ _ _ _ _ p (Hview t info Ht) (Hview t' info' Ht')
             Hp Hp').
Qed.

(** ** Header sizes in logical addressing *)

Lemma inv_headers_alloc_rep (r : rep_stats_t) :
  rs_header_size r = 0 -> inv no_header_sizes (alloc_rep r).
Proof.
  intros Hr s Hs. unfold no_header_sizes in *. simpl.
  apply Forall_app. split; [exact Hs|]. constructor; [exact Hr|constructor].
Qed.

Lemma inv_headers_update_rep (p : rep_ptr) (f : rep_stats_t -> rep_stats_t) :
  (forall r, rs_header_size (f r) = rs_header_size r) ->
  inv no_header_sizes (update_rep p f).
Proof.
  intros Hf s Hs. unfold update_rep, no_header_sizes in *.
  destruct (st_reps s !! p) as [r|] eqn:Hp; simpl; [|exact Hs].
  apply Forall_insert; [exact Hs|]. rewrite Hf.
  rewrite Forall_forall in Hs. apply Hs.
  apply list_elem_of_lookup. exists p. exact Hp.
Qed.

Lemma inv_headers_alloc_info i : inv no_header_sizes (alloc_info i).
Proof. inv_prim. Qed.
Lemma inv_headers_update_info p f : inv no_header_sizes (update_info p f).
Proof. inv_prim. Qed.
Lemma inv_headers_push_revision p : inv no_header_sizes (push_revision p).
Proof. inv_prim. Qed.
Lemma inv_headers_write_stats st : inv no_header_sizes (write_stats st).
Proof. inv_prim. Qed.
Lemma inv_headers_emit e : inv no_header_sizes (emit e).
Proof. inv_prim. Qed.

#[export] Hint Resolve inv_headers_alloc_info inv_headers_update_info
  inv_headers_push_revision inv_headers_write_stats inv_headers_emit : inv.

Ltac headers_leaf :=
  first
    [ progress unfold record_change
    | apply inv_headers_alloc_rep; reflexivity
    | apply inv_headers_update_rep; intros ?;
      apply add_reference_fields ].

Section LogicalAddressing.

Variable svn_cstring_strtoui64 : list Byte.byte -> Z -> Z -> Z -> result Z.
Variable call_cancel_func : ptr -> ptr -> list event -> option svn_error_t.
Variable query : query_t.
Hypothesis Hlog : svn_fs_fs__use_log_addressing (q_fs query) = true.

(** The header of a representation is read in physical addressing
    only. *)
Ltac headers_step :=
  lazymatch goal with
  | |- inv _ (when_ (negb (svn_fs_fs__use_log_addressing (q_fs query))) _) =>
      rewrite Hlog; apply inv_ret
  | |- _ => inv_step
  end.

Lemma inv_headers_read_noderev fuel :
  forall file_content offset revision_info,
    inv no_header_sizes
      (read_noderev fuel query file_content offset revision_info).
Proof.
  induction fuel as [|fuel IH]; intros; simpl; [apply inv_stop_with|].
  unfold_stats. repeat (headers_step || headers_leaf).
Qed.

Lemma inv_headers_process_entries fuel rev_file entries :
  forall i offset,
    inv no_header_sizes
      (process_entries fuel query rev_file entries i offset).
Proof.
  pose proof inv_headers_read_noderev as Hread.
  induction entries as [|entry entries IH]; intros; simpl; [apply inv_ret|].
  unfold_stats. repeat (headers_step || headers_leaf).
Qed.

Lemma inv_headers_walk_blocks steps fuel rev_file base max_offset :
  forall offset,
    inv no_header_sizes
      (walk_blocks call_cancel_func steps fuel query rev_file base max_offset
         offset).
Proof.
  pose proof inv_headers_process_entries as Hentries.
  induction steps as [|steps IH]; intros; simpl;
    unfold_stats; repeat (headers_step || headers_leaf).
Qed.

Lemma inv_headers_read_packed_revisions steps fuel :
  forall revision,
    inv no_header_sizes
      (read_packed_revisions svn_cstring_strtoui64 call_cancel_func steps
         fuel query revision).
Proof.
  pose proof inv_headers_read_noderev as Hread.
  pose proof inv_headers_walk_blocks as Hwalk.
  induction steps as [|steps IH]; intros; simpl;
    unfold_stats; repeat (headers_step || headers_leaf).
Qed.

Lemma inv_headers_read_revisions fuel :
  inv no_header_sizes
    (read_revisions svn_cstring_strtoui64 call_cancel_func fuel query).
Proof.
  pose proof inv_headers_read_noderev as Hread.
  pose proof inv_headers_walk_blocks as Hwalk.
  pose proof inv_headers_read_packed_revisions as Hpacked.
  unfold_stats. repeat (headers_step || headers_leaf).
Qed.

End LogicalAddressing.

(** X18.  Header sizes in logical addressing.  For a repository in
    logical addressing, whatever the outcome of [svn_fs_fs__get_stats], no
    representation of the store has a header size recorded: the header of
    a representation is read in physical addressing only. *)
Theorem get_stats_logical_header_sizes
    (svn_cstring_strtoui64 : list Byte.byte -> Z -> Z -> Z -> result Z)
    (call_cancel_func : ptr -> ptr -> list event -> option svn_error_t)
    (fuel : nat) (fs : svn_fs_t)
    (progress_func progress_baton cancel_func cancel_baton : ptr) :
  svn_fs_fs__use_log_addressing fs = true ->
  no_header_sizes
    (snd (svn_fs_fs__get_stats svn_cstring_strtoui64 call_cancel_func fuel
            fs progress_func progress_baton cancel_func cancel_baton)).
Proof.
  intros Hlog.
  { unfold svn_fs_fs__get_stats. unfold bind at 1.
    destruct (create_query fs progress_func progress_func cancel_func
                cancel_baton (initial_state create_stats))
      as [[query|why] s1] eqn:Hquery.
    - assert (H1 : no_header_sizes s1).
      { assert (Hinv : inv no_header_sizes
                         (create_query fs progress_func progress_func
                            cancel_func cancel_baton))
          by (unfold create_query; repeat (inv_step || headers_leaf)).
        specialize (Hinv (initial_state create_stats)).
        rewrite Hquery in Hinv. apply Hinv. constructor. }
      apply create_query_fields in Hquery as (Hfs & _).
      assert (Hinv : inv no_header_sizes
                       (read_revisions svn_cstring_strtoui64 call_cancel_func
                          fuel query ;; aggregate_stats)).
      { apply inv_bind.
        - apply inv_headers_read_revisions. rewrite Hfs. exact Hlog.
        - intros _. unfold aggregate_stats. unfold_stats.
          repeat (inv_step || headers_leaf). }
      apply Hinv. exact H1.
    - apply create_query_stops in Hquery. subst s1. constructor. }
Qed.

Lemma get_stats_logical_header_sizes_witness :
  no_header_sizes (snd sample_progress_run).
Proof.
  apply (get_stats_logical_header_sizes no_strtoui64 never_cancel 5
           (sample_log_fs 0 10) 77 88 0 0).
  reflexivity.
Defined.

(** ** A revision file in physical addressing *)

Lemma inv_header_alloc_rep info h revs r :
  inv (header_kept info h revs) (alloc_rep r).
Proof. inv_prim. Qed.
Lemma inv_header_update_rep info h revs p f :
  inv (header_kept info h revs) (update_rep p f).
Proof. inv_prim. Qed.
Lemma inv_header_write_stats info h revs st :
  inv (header_kept info h revs) (write_stats st).
Proof. inv_prim. Qed.
Lemma inv_header_emit info h revs e :
  inv (header_kept info h revs) (emit e).
Proof. inv_prim. Qed.

Lemma inv_header_update_info info h revs p f :
  (forall i, revision_header (f i) = revision_header i) ->
  inv (header_kept info h revs) (update_info p f).
Proof.
  intros Hf s [Hs Hrevs]. unfold update_info, header_kept.
  destruct (st_infos s !! p) as [ip|] eqn:Hp; cbn [snd st_infos st_revisions];
    [|split; assumption].
  split; [|exact Hrevs].
  destruct (decide (p = info)) as [->|Hne].
  - rewrite list_lookup_insert_eq by (apply lookup_lt_is_Some_1; eauto).
    rewrite Hp in Hs. simpl in *. rewrite Hf. exact Hs.
  - rewrite list_lookup_insert_ne by exact Hne. exact Hs.
Qed.

#[export] Hint Resolve inv_header_alloc_rep inv_header_update_rep
  inv_header_write_stats inv_header_emit : inv.

Ltac header_leaf :=
  first
    [ progress unfold record_change
    | apply inv_header_update_info; intros ?; reflexivity ].

Lemma inv_header_read_noderev info h revs fuel :
  forall query file_content offset revision_info,
    inv (header_kept info h revs)
      (read_noderev fuel query file_content offset revision_info).
Proof.
  induction fuel as [|fuel IH]; intros; simpl; [apply inv_stop_with|].
  unfold_stats. repeat (inv_step || header_leaf).
Qed.

(** [read_revision_header] only reads. *)
Lemma read_revision_header_reads
    (svn_cstring_strtoui64 : list Byte.byte -> Z -> Z -> Z -> result Z)
    (file_content : svn_stringbuf_t) (s : state) :
  snd (read_revision_header svn_cstring_strtoui64 file_content s) = s.
Proof.
  assert (Hinv : inv (fun s0 => s0 = s)
                   (read_revision_header svn_cstring_strtoui64 file_content))
    by (unfold read_revision_header; inv_auto).
  apply Hinv. reflexivity.
Qed.

Lemma read_revision_header_pure
    (svn_cstring_strtoui64 : list Byte.byte -> Z -> Z -> Z -> result Z)
    (file_content : svn_stringbuf_t) (s s0 : state) :
  fst (read_revision_header svn_cstring_strtoui64 file_content s)
  = fst (read_revision_header svn_cstring_strtoui64 file_content s0).
Proof.
  unfold read_revision_header, bind, defined, lift_result, ret, raise,
    stop_with.
  repeat case_match; simplify_eq; first [reflexivity|congruence].
Qed.

Lemma update_info_header (info : info_ptr)
    (h h' : Z * Z * Z * Z * Z * Z * option rev_file_t) (revs : list info_ptr)
    (f : revision_info_t -> revision_info_t) (s s' : state) (x : unit) :
  header_kept info h revs s ->
  update_info info f s = (Ok x, s') ->
  (forall i, revision_header i = h -> revision_header (f i) = h') ->
  header_kept info h' revs s'.
Proof.
  intros [Hs Hrevs] Hrun Hf. unfold update_info in Hrun.
  destruct (st_infos s !! info) as [i|] eqn:Hi; [|discriminate].
  injection Hrun as _ <-. split; [|exact Hrevs]. cbn [st_infos].
  rewrite list_lookup_insert_eq by (apply lookup_lt_is_Some_1; eauto).
  simpl in *. f_equal. apply Hf. congruence.
Qed.

Lemma header_kept_run {A} (info : info_ptr)
    (h : Z * Z * Z * Z * Z * Z * option rev_file_t) (revs : list info_ptr)
    (m : M A) (s s' : state) (r : result A) :
  inv (header_kept info h revs) m ->
  header_kept info h revs s -> m s = (r, s') -> header_kept info h revs s'.
Proof. intros Hinv Hs Hrun. apply Hinv in Hs. rewrite Hrun in Hs. exact Hs. Qed.

(** X19.  What a revision file in physical addressing leaves in the
    store.  When [read_phys_revision_file] returns without error, it has
    opened the file of the revision, asked for its size and read that many
    bytes from offset 0, [read_revision_header] accepted them, and the
    changes were counted; the [revision_info_t] it allocated is appended to
    [query->revisions], and it holds the revision number, the offset 0, the
    file size as end, the offset, length and count of the changes, and no
    file. *)
Theorem read_phys_revision_file_info
    (svn_cstring_strtoui64 : list Byte.byte -> Z -> Z -> Z -> result Z)
    (call_cancel_func : ptr -> ptr -> list event -> option svn_error_t)
    (fuel : nat) (query : query_t) (revision : Z) (s s' : state) :
  read_phys_revision_file svn_cstring_strtoui64 call_cancel_func fuel query
    revision s = (Ok tt, s') ->
  exists rev_file file_size data changes changes_len root count i',
    svn_fs_fs__open_pack_or_rev_file (q_fs query) revision = Ok rev_file
    /\ svn_io_file_size (q_fs query) rev_file = Ok file_size
    /\ svn_io_file_read_at (q_fs query) rev_file 0 (to_size file_size)
       = Ok data
    /\ fst (read_revision_header svn_cstring_strtoui64
              (mk_stringbuf data (to_size file_size)) s)
       = Ok (changes, changes_len, root)
    /\ get_change_count (drop (Z.to_nat changes) data) changes_len
       = Some count
    /\ st_revisions s' = st_revisions s ++ [length (st_infos s)]
    /\ st_infos s' !! length (st_infos s) = Some i'
    /\ revision_header i'
       = (revision, 0, file_size, changes, changes_len, count, None).
Proof.
  intros Hrun. unfold read_phys_revision_file in Hrun.
  apply bind_Ok in Hrun as (info & s1 & Halloc & Hrun).
  unfold alloc_info in Halloc. injection Halloc as <- <-.
  set (info := length (st_infos s)) in *.
  set (revs := st_revisions s) in *.
  match type of Hrun with
  | bind _ _ ?st = _ =>
      assert (H1 : header_kept info (revision_header zero_revision_info)
                     revs st)
  end.
  { split; [|reflexivity]. cbn [st_infos]. unfold info.
    rewrite list_lookup_middle by reflexivity. reflexivity. }
  apply bind_Ok in Hrun as ([] & s2 & Hcancel & Hrun).
  assert (H2 : header_kept info (revision_header zero_revision_info) revs s2).
  { eapply header_kept_run; [|exact H1|exact Hcancel].
    unfold_stats. inv_auto. }
  apply bind_Ok in Hrun as (rev_file & s3 & Hopen & Hrun).
  unfold lift_result in Hopen. injection Hopen as Hopen <-.
  apply bind_Ok in Hrun as (file_size & s3 & Hsize & Hrun).
  unfold get_file_size, lift_result in Hsize. injection Hsize as Hsize <-.
  apply bind_Ok in Hrun as ([] & s3 & Hupd & Hrun).
  eapply update_info_header in Hupd as H3; [|exact H2|].
  2:{ intros i Hi. unfold revision_header in *. simpl.
      injection Hi as _ _ _ Hc Hl Hn _. rewrite Hc, Hl, Hn. reflexivity. }
  apply bind_Ok in Hrun as (rev_content & s4 & Hcontent & Hrun).
  unfold get_content in Hcontent.
  apply bind_Ok in Hcontent as (data & s4' & Hdata & Hret).
  unfold lift_result in Hdata. injection Hdata as Hdata <-.
  unfold ret in Hret. injection Hret as <- <-.
  apply bind_Ok in Hrun as (header & s5 & Hheader & Hrun).
  pose proof (read_revision_header_reads svn_cstring_strtoui64
                (mk_stringbuf data (to_size file_size)) s3) as Hsame.
  rewrite Hheader in Hsame. cbn [snd] in Hsame. subst s5.
  apply (f_equal fst) in Hheader. cbn [fst] in Hheader.
  rewrite (read_revision_header_pure _ _ s3 s) in Hheader.
  destruct header as [[changes changes_len] root].
  apply bind_Ok in Hrun as ([] & s5 & Hupd2 & Hrun).
  eapply update_info_header in Hupd2 as H5; [|exact H3|].
  2:{ intros i Hi. unfold revision_header in *. simpl.
      injection Hi as Hr Ho He _ _ Hn Hf. rewrite Hr, Ho, He, Hn, Hf.
      reflexivity. }
  apply bind_Ok in Hrun as (count & s6 & Hcount & Hrun).
  unfold defined in Hcount. cbn [sb_data] in Hcount.
  destruct (get_change_count (drop (Z.to_nat changes) data) changes_len)
    as [count'|] eqn:Hchanges; [|discriminate].
  unfold ret in Hcount. injection Hcount as <- <-.
  apply bind_Ok in Hrun as ([] & s6 & Hupd3 & Hrun).
  eapply update_info_header in Hupd3 as H6; [|exact H5|].
  2:{ intros i Hi. unfold revision_header in *. simpl.
      injection Hi as Hr Ho He Hc Hl _ Hf. rewrite Hr, Ho, He, Hc, Hl, Hf.
      reflexivity. }
  apply bind_Ok in Hrun as ([] & s7 & Hnoderev & Hrun).
  eapply header_kept_run in Hnoderev as H7;
    [|apply inv_header_read_noderev|exact H6].
  apply bind_Ok in Hrun as ([] & s8 & Hclose & Hrun).
  unfold lift_result in Hclose. injection Hclose as _ <-.
  apply bind_Ok in Hrun as ([] & s8 & Hupd4 & Hrun).
  eapply update_info_header in Hupd4 as H8; [|exact H7|].
  2:{ intros i Hi. unfold revision_header in *. simpl.
      injection Hi as Hr Ho He Hc Hl Hn _. rewrite Hr, Ho, He, Hc, Hl, Hn.
      reflexivity. }
  apply bind_Ok in Hrun as ([] & s9 & Hpush & Hrun).
  unfold push_revision in Hpush. injection Hpush as <-.
  match type of Hrun with
  | _ ?st = _ =>
      assert (H9 : header_kept info
                     (revision, 0, file_size, changes, changes_len, count',
                      None)
                     (revs ++ [info]) st)
  end.
  { destruct H8 as [H8 Hrevs]. split; [exact H8|].
    cbn [st_revisions]. rewrite Hrevs. reflexivity. }
  eapply header_kept_run in Hrun as [Hfinal Hrevs];
    [| |exact H9]; [|unfold_stats; inv_auto].
  destruct (st_infos s' !! info) as [i'|] eqn:Hi'; [|discriminate].
  exists rev_file, file_size, data, changes, changes_len, root, count', i'.
  split_and!; try assumption; try reflexivity.
  simpl in Hfinal. congruence.
Qed.

Lemma read_phys_revision_file_info_witness :
  exists s' i',
    read_phys_revision_file decimal_strtoui64 never_cancel 2
      sample_phys_query 0 (initial_state create_stats) = (Ok tt, s')
    /\ st_revisions s' = [0%nat]
    /\ st_infos s' !! 0%nat = Some i'
    /\ revision_header i' = (0, 0, 7, 1, 2, 0, None).
Proof.
  destruct (read_phys_revision_file decimal_strtoui64 never_cancel 2
              sample_phys_query 0 (initial_state create_stats))
    as [[[]|why] s'] eqn:Hrun; [|vm_compute in Hrun; discriminate].
  destruct (read_phys_revision_file_info _ _ _ _ _ _ _ Hrun)
    as (rev_file & file_size & data & changes & changes_len & root & count
        & i' & Hopen & Hsize & Hdata & Hheader & Hcount & Hrevs & Hinfo
        & Hi').
  exists s', i'. split; [reflexivity|].
  injection Hopen as <-. injection Hsize as <-. injection Hdata as <-.
  vm_compute in Hheader. injection Hheader as <- <- <-.
  vm_compute in Hcount. injection Hcount as <-.
  split_and!; [exact Hrevs|exact Hinfo|exact Hi'].
Defined.

(** ** Looking up a representation *)

Lemma sample_store_arrays_in_order : arrays_in_order sample_store.
Proof.
  split; cbn [fst snd reg_view sample_store st_reps st_infos fmap list_fmap].
  - intros [|t] rev ptrs Ht; [|discriminate].
    injection Ht as <- <-. split.
    + intros p Hp. apply elem_of_cons in Hp as [->|Hp]; [simpl; lia|].
      apply list_elem_of_singleton in Hp as ->. simpl. lia.
    + intros [|[|i]] [|[|j]] p q Hij Hp Hq; try lia; try discriminate.
      injection Hp as <-. injection Hq as <-.
      exists 3, 17. split_and!; [reflexivity|reflexivity|lia].
  - intros [|t] [|t'] rev rev' ptrs ptrs' p Ht Ht'; try discriminate.
    reflexivity.
Qed.

(** X20.  What [find_representation] finds.  On a store whose arrays of
    representations are in order, called for the node-revisions of [info]
    and a representation of revision [rev], it looks into the array of
    [info] itself if that is of revision [rev], and else into the array of
    the element [rev] of [query->revisions].  It yields the representation
    of that array at [offset] if there is one, and none otherwise; [*idx]
    is the lower bound of [offset] in the array, that is the index at which
    a representation at [offset] is or would have to be inserted; the
    store is left alone. *)
Theorem find_representation_finds (query : query_t) (s : state)
    (info t : info_ptr) (i it : revision_info_t) (rev offset : Z) :
  arrays_in_order s ->
  st_infos s !! info = Some i ->
  (if ri_revision i =? rev then t = info
   else 0 <= rev /\ st_revisions s !! Z.to_nat rev = Some t) ->
  st_infos s !! t = Some it ->
  exists (idx : nat) (found : option rep_ptr),
    find_representation query (Some (Some info)) rev offset s
    = (Ok (found, Z.of_nat idx, Some (Some t)), s)
    /\ (idx <= length (ri_representations it))%nat
    /\ (forall k p r,
           (k < idx)%nat -> ri_representations it !! k = Some p ->
           st_reps s !! p = Some r -> rs_offset r < offset)
    /\ (forall k p r,
           (idx <= k)%nat -> ri_representations it !! k = Some p ->
           st_reps s !! p = Some r -> offset <= rs_offset r)
    /\ match found with
       | Some p =>
           ri_representations it !! idx = Some p
           /\ exists r, st_reps s !! p = Some r /\ rs_offset r = offset
       | None =>
           forall p r, p ∈ ri_representations it ->
                       st_reps s !! p = Some r -> rs_offset r <> offset
       end.
Proof.
  intros Hok Hinfo Ht Hit.
  assert (Hres : resolve (reg_view s) info rev = Some t).
  { unfold resolve. cbn [reg_view fst snd].
    rewrite list_lookup_fmap, Hinfo. simpl.
    destruct (ri_revision i =? rev); [congruence|].
    destruct Ht as [Hrev Ht].
    destruct (Z.leb_spec 0 rev); [exact Ht|lia]. }
  assert (Hview : (reg_view s).1.2 !! t
                  = Some (ri_revision it, ri_representations it)).
  { cbn [reg_view fst snd]. rewrite list_lookup_fmap, Hit. reflexivity. }
  destruct (find_representation_run query s info rev (ri_revision it) offset
              t (ri_representations it) Hok Hres Hview)
    as (idx & found & Hrun & Hlen & Hlow & Hhigh & Hfound).
  assert (Hoff : forall p r,
             st_reps s !! p = Some r ->
             offset_at (reg_view s).1.1 p = Some (rs_offset r)).
  { intros p r Hp. unfold offset_at. cbn [reg_view fst snd].
    rewrite list_lookup_fmap, Hp. reflexivity. }
  exists idx, found. split_and!; [exact Hrun|exact Hlen|..].
  - intros k p r Hk Hp Hr. exact (Hlow k p _ Hk Hp (Hoff p r Hr)).
  - intros k p r Hk Hp Hr. exact (Hhigh k p _ Hk Hp (Hoff p r Hr)).
  - destruct found as [p|].
    + destruct Hfound as [Hp Hat]. split; [exact Hp|].
      unfold offset_at in Hat. cbn [reg_view fst snd] in Hat.
      rewrite list_lookup_fmap in Hat.
      destruct (st_reps s !! p) as [r|]; [|discriminate].
      exists r. split; [reflexivity|]. simpl in Hat. congruence.
    + intros p r Hp Hr Heq. apply (Hfound p Hp).
      rewrite (Hoff p r Hr), Heq. reflexivity.
Qed.

Lemma find_representation_finds_witness :
  exists idx found,
    find_representation sample_query (Some (Some 0%nat)) 0 17 sample_store
    = (Ok (found, Z.of_nat idx, Some (Some 0%nat)), sample_store)
    /\ (idx <= 2)%nat
    /\ found = Some 1%nat.
Proof.
  destruct (find_representation_finds sample_query sample_store 0%nat 0%nat
              (mk_revision_info 0 0 0 0 0 30 0 2 0 20 [0%nat; 1%nat] None)
              (mk_revision_info 0 0 0 0 0 30 0 2 0 20 [0%nat; 1%nat] None)
              0 17)
    as (idx & found & Hrun & Hlen & _ & _ & _).
  - exact sample_store_arrays_in_order.
  - reflexivity.
  - reflexivity.
  - reflexivity.
  - exists idx, found. split_and!; [exact Hrun|exact Hlen|].
    vm_compute in Hrun. congruence.
Defined.

(** ** Directories *)

(** X21.  The entries [parse_dir] follows.  It calls [read_noderev] for
    the entries of the directory whose node-revision is of the revision at
    hand, and for no other: on a directory whose entries are all of other
    revisions it returns without a call and leaves the store alone, and
    the error of [svn_fs_fs__rep_contents_dir] is returned as it is. *)
Theorem parse_dir_other_revisions
    (read_noderev : query_t -> svn_stringbuf_t -> Z -> info_ptr -> M unit)
    (query : query_t) (file_content : svn_stringbuf_t)
    (noderev : node_revision_t) (revision_info : info_ptr)
    (i : revision_info_t) (s : state) :
  st_infos s !! revision_info = Some i ->
  match svn_fs_fs__rep_contents_dir (q_fs query) noderev with
  | Ok entries =>
      Forall (fun dirent =>
                svn_fs_fs__id_rev (dirent_id dirent) <> ri_revision i)
        entries ->
      parse_dir read_noderev query file_content noderev revision_info s
      = (Ok tt, s)
  | Stop why =>
      parse_dir read_noderev query file_content noderev revision_info s
      = (Stop why, s)
  end.
Proof.
  intros Hinfo. unfold parse_dir. unfold bind at 1. unfold lift_result.
  destruct (svn_fs_fs__rep_contents_dir (q_fs query) noderev)
    as [entries|why]; [|reflexivity].
  induction 1 as [|dirent entries Hrev _ IH]; [reflexivity|].
  cbn [for_each]. unfold bind at 1. unfold bind at 1. unfold read_info at 1.
  rewrite Hinfo.
  destruct (Z.eqb_spec (svn_fs_fs__id_rev (dirent_id dirent)) (ri_revision i))
    as [Heq|_]; [contradiction|].
  cbn [when_]. unfold ret at 1. exact IH.
Qed.

Lemma parse_dir_other_revisions_witness :
  parse_dir (read_noderev 1) sample_dir_query sample_content
    (mk_node_revision svn_node_dir None None None "/trunk") 0%nat
    sample_walk_store
  = (Ok tt, sample_walk_store).
Proof.
  pose proof (parse_dir_other_revisions (read_noderev 1) sample_dir_query
                sample_content
                (mk_node_revision svn_node_dir None None None "/trunk")
                0%nat (set_ri_end 20 (set_ri_revision 0 zero_revision_info))
                sample_walk_store eq_refl) as H.
  cbn [svn_fs_fs__rep_contents_dir sample_dir_query q_fs sample_dir_fs] in H.
  apply H. repeat constructor; discriminate.
Defined.

(** ** Where a large change is inserted *)

Lemma sample_largest_sorted : sorted_descending (lc_changes sample_largest).
Proof.
  intros [|[|[|i]]] [|[|[|j]]] a b Hij Ha Hb; try discriminate; try lia;
    injection Ha as <-; injection Hb as <-; simpl; lia.
Qed.

(** X22.  Where [add_change] puts a large change.  On a list of largest
    changes in descending order that is as long as [count] says, a change
    whose size is at least [min_size] is inserted behind all entries of at
    least its size and before all smaller ones, which move down by one
    place, and the last entry is dropped. *)
Theorem add_largest_change_inserts (lc : svn_fs_fs__largest_changes_t)
    (rep_size revision : Z) (path : string) :
  1 <= lc_count lc ->
  Z.of_nat (length (lc_changes lc)) = lc_count lc ->
  sorted_descending (lc_changes lc) ->
  lc_min_size lc <= rep_size ->
  exists (k : nat) lc',
    add_largest_change lc rep_size revision path = Some lc'
    /\ (k < length (lc_changes lc))%nat
    /\ lc_changes lc'
       = take k (lc_changes lc)
         ++ mk_large_change path rep_size revision
            :: take (length (lc_changes lc) - 1 - k) (drop k (lc_changes lc))
    /\ Forall (fun c => rep_size <= lci_size c) (take k (lc_changes lc))
    /\ Forall (fun c => lci_size c < rep_size)
         (take (length (lc_changes lc) - 1 - k) (drop k (lc_changes lc))).
Proof.
  intros Hcount Hlen Hsorted Hmin.
  unfold add_largest_change.
  destruct (Z.geb_spec rep_size (lc_min_size lc)) as [_|]; [|lia].
  set (last_ := Z.to_nat (lc_count lc - 1)).
  assert (Hlast : (last_ < length (lc_changes lc))%nat) by (subst last_; lia).
  assert (Hlast' : length (lc_changes lc) = S last_) by (subst last_; lia).
  destruct (Z.leb_spec 1 (lc_count lc)); [|lia].
  rewrite bool_decide_eq_true_2 by exact Hlast. simpl andb. cbv iota.
  set (info := mk_large_change path rep_size revision).
  destruct (shift_changes last_ rep_size (<[last_ := info]> (lc_changes lc)))
    as [k changes1] eqn:Hshift.
  apply shift_changes_spec in Hshift; [|rewrite length_insert; exact Hlast].
  destruct Hshift as (Hk & Hl & Hstop & Hskip & Hlook).
  rewrite length_insert in Hl.
  assert (Hfinal : forall n,
             (n <= last_)%nat ->
             <[k := info]> changes1 !! n
             = if decide (n = k) then Some info
               else if decide (k < n)%nat then lc_changes lc !! (n - 1)%nat
                    else lc_changes lc !! n).
  { intros n Hn. destruct (decide (n = k)) as [->|Hne].
    - apply list_lookup_insert_eq. lia.
    - rewrite list_lookup_insert_ne by lia. rewrite Hlook.
      destruct (decide (k < n <= last_)%nat), (decide (k < n)%nat); try lia.
      + apply list_lookup_insert_ne. lia.
      + apply list_lookup_insert_ne. lia. }
  assert (Hstop' : k = 0%nat
                   \/ exists c, lc_changes lc !! (k - 1)%nat = Some c
                                /\ rep_size <= lci_size c).
  { destruct Hstop as [->|(c & Hc & Hsize)]; [left; reflexivity|].
    destruct (decide (k = 0%nat)) as [->|]; [left; reflexivity|].
    right. exists c. split; [|exact Hsize].
    rewrite list_lookup_insert_ne in Hc by lia. exact Hc. }
  assert (Hskip' : forall n c, (k <= n < last_)%nat ->
                               lc_changes lc !! n = Some c ->
                               lci_size c < rep_size).
  { intros n c Hn Hc. apply (Hskip n c Hn).
    rewrite list_lookup_insert_ne by lia. exact Hc. }
  destruct (lookup_lt_is_Some_2 (<[k := info]> changes1) last_) as [new Hnew];
    [rewrite length_insert; lia|].
  rewrite Hnew. simpl.
  exists k. eexists. split; [reflexivity|]. cbn [lc_changes].
  split_and!.
  - lia.
  - apply list_eq. intros n.
    destruct (decide (n <= last_)%nat) as [Hn|Hn].
    + rewrite Hfinal by exact Hn.
      destruct (decide (n = k)) as [->|Hne].
      * rewrite list_lookup_middle; [reflexivity|].
        rewrite length_take. lia.
      * destruct (decide (k < n)%nat) as [Hlt|Hge].
        -- rewrite lookup_app_r by (rewrite length_take; lia).
           rewrite length_take.
           rewrite lookup_cons_ne_0 by lia.
           rewrite lookup_take_lt by lia. rewrite lookup_drop.
           f_equal. lia.
        -- rewrite lookup_app_l by (rewrite length_take; lia).
           rewrite lookup_take_lt by lia. reflexivity.
    + rewrite !lookup_ge_None_2; [reflexivity|..].
      * rewrite length_app. cbn [length]. rewrite !length_take, length_drop.
        lia.
      * rewrite length_insert. lia.
  - apply Forall_forall. intros c Hc.
    apply list_elem_of_lookup in Hc as [n Hn].
    apply lookup_lt_Some in Hn as Hbound. rewrite length_take in Hbound.
    rewrite lookup_take_lt in Hn by lia.
    destruct Hstop' as [->|(c' & Hc' & Hsize)]; [lia|].
    pose proof (Hsorted n (k - 1)%nat c c' ltac:(lia) Hn Hc'). lia.
  - apply Forall_forall. intros c Hc.
    apply list_elem_of_lookup in Hc as [n Hn].
    apply lookup_lt_Some in Hn as Hbound.
    rewrite length_take, length_drop in Hbound.
    rewrite lookup_take_lt in Hn by lia. rewrite lookup_drop in Hn.
    apply (Hskip' (k + n)%nat c); [lia|exact Hn].
Qed.

Lemma add_largest_change_inserts_witness :
  exists lc',
    add_largest_change sample_largest 5 7 "/d" = Some lc'
    /\ lci_size <$> lc_changes lc' = [9; 5; 4].
Proof.
  destruct (add_largest_change_inserts sample_largest 5 7 "/d")
    as (k & lc' & Hadd & Hk & Hchanges & _ & _).
  - simpl. lia.
  - reflexivity.
  - exact sample_largest_sorted.
  - simpl. lia.
  - exists lc'. split; [exact Hadd|].
    vm_compute in Hadd. injection Hadd as <-. reflexivity.
Defined.
